(** * obj.c: the generic object runtime of rsyslog

    A shallow embedding of [src/obj.c]: the class-information table
    ([InfoConstruct], [InfoSetMethod], [RegisterObj]), the serializer
    ([objSerializeHeader], [SerializeProp], [EndSerialize]) and the
    deserializer with its resynchronisation scanner
    ([objDeserializeNumber] ... [Deserialize], [DeserializePropBag]).

    Conventions of the embedding:
    - a [uchar] is a [Z]; a C string or a stream content is a [list Z];
    - a function returning [rsRetVal] through [DEFiRet]/[CHKiRet]/
      [ABORT_FINALIZE] is a computation in the monad [M]: it ends with a
      value ([OK]), with a return code other than [RS_RET_OK] ([Err]) or by
      terminating the process ([Crash]: a failed [assert], a call of
      [abort()], a dereference of [NULL]);
    - [assert(e)] is a checked precondition (a build with assertions): a
      call that violates it ends in [Crash assert_failed];
    - [number_t] is a 64 bit signed integer, [int] a 32 bit one; arithmetic
      that can leave the range is written with its wrap-around;
    - memory allocation inside the parsers ([rsCStrConstruct],
      [rsCStrAppendChar], [var.Construct]) and the write operations of the
      stream succeed; a function of a class returns to its caller.  Where a
      statement is about every return code of a parser, the parser is taken
      with the return codes of the string class as parameters
      ([objDeserializeStr_mem], [objDeserializeProperty_mem]). *)

From Stdlib Require Import ZArith Lia List Bool Ascii String.
From stdpp Require Import base list gmap.
From Equations Require Import Equations.
Import ListNotations.

Local Open Scope Z_scope.

(** ** Return codes

    The codes of [rsyslog.h] that [obj.c] names.  Only their being distinct
    matters to the code ([iRet != RS_RET_NO_PROPLINE], [iRet == RS_RET_OK]). *)
Inductive rsRetVal : Set :=
| RS_RET_OK
| RS_RET_NOT_IMPLEMENTED
| RS_RET_OUT_OF_MEMORY
| RS_RET_PROVIDED_BUFFER_TOO_SMALL
| RS_RET_INVALID_NUMBER
| RS_RET_INVALID_DELIMITER
| RS_RET_INVALID_HEADER
| RS_RET_INVALID_HEADER_RECTYPE
| RS_RET_INVALID_HEADER_VERS
| RS_RET_INVALID_OID
| RS_RET_NO_PROPLINE
| RS_RET_INVALID_PROPFRAME
| RS_RET_INVALID_TRAILER
| RS_RET_EOF
| RS_RET_INTERFACE_NOT_SUPPORTED
| RS_RET_ERR.

Definition rsRetVal_eqb (a b : rsRetVal) : bool :=
  match a, b with
  | RS_RET_OK, RS_RET_OK
  | RS_RET_NOT_IMPLEMENTED, RS_RET_NOT_IMPLEMENTED
  | RS_RET_OUT_OF_MEMORY, RS_RET_OUT_OF_MEMORY
  | RS_RET_PROVIDED_BUFFER_TOO_SMALL, RS_RET_PROVIDED_BUFFER_TOO_SMALL
  | RS_RET_INVALID_NUMBER, RS_RET_INVALID_NUMBER
  | RS_RET_INVALID_DELIMITER, RS_RET_INVALID_DELIMITER
  | RS_RET_INVALID_HEADER, RS_RET_INVALID_HEADER
  | RS_RET_INVALID_HEADER_RECTYPE, RS_RET_INVALID_HEADER_RECTYPE
  | RS_RET_INVALID_HEADER_VERS, RS_RET_INVALID_HEADER_VERS
  | RS_RET_INVALID_OID, RS_RET_INVALID_OID
  | RS_RET_NO_PROPLINE, RS_RET_NO_PROPLINE
  | RS_RET_INVALID_PROPFRAME, RS_RET_INVALID_PROPFRAME
  | RS_RET_INVALID_TRAILER, RS_RET_INVALID_TRAILER
  | RS_RET_EOF, RS_RET_EOF
  | RS_RET_INTERFACE_NOT_SUPPORTED, RS_RET_INTERFACE_NOT_SUPPORTED
  | RS_RET_ERR, RS_RET_ERR => true
  | _, _ => false
  end.

(** ** Outcomes and the [CHKiRet] monad *)

(** How the process can end inside a call instead of returning. *)
Inductive crash : Set :=
| abort_called     (* abort() *)
| assert_failed    (* assert(e) with e false *)
| invalid_deref.   (* call or read through NULL, or through a pointer of
                      the wrong type *)

(** The outcome of a call on a state [S]: [OK a s] is [iRet == RS_RET_OK]
    with the values [a] stored through the out-parameters, [Err iRet s] is
    any other return code; [s] is the state the call leaves. *)
Inductive res (S A : Type) : Type :=
| OK (a : A) (s : S)
| Err (iRet : rsRetVal) (s : S)
| Crash (k : crash).
Arguments OK {S A} a s.
Arguments Err {S A} iRet s.
Arguments Crash {S A} k.

Definition M (S A : Type) : Type := S -> res S A.

Definition ret {S A} (a : A) : M S A := fun s => OK a s.

(** [CHKiRet(m); k]: a return code other than [RS_RET_OK] jumps to
    [finalize_it]. *)
Definition bind {S A B} (m : M S A) (k : A -> M S B) : M S B :=
  fun s =>
    match m s with
    | OK a s' => k a s'
    | Err iRet s' => Err iRet s'
    | Crash c => Crash c
    end.

(** [ABORT_FINALIZE(iRet)] with [iRet] other than [RS_RET_OK]. *)
Definition ABORT_FINALIZE {S A} (iRet : rsRetVal) : M S A :=
  fun s => Err iRet s.

(** [assert(b)]. *)
Definition assert {S} (b : bool) : M S unit :=
  fun s => if b then OK tt s else Crash assert_failed.

(** [abort()]. *)
Definition abort {S} : M S unit := fun _ => Crash abort_called.

Declare Scope chk_scope.
Delimit Scope chk_scope with chk.
Notation "x <- m ;; k" := (bind m (fun x => k))
  (at level 100, m at next level, right associativity) : chk_scope.
Notation "m ;;; k" := (bind m (fun _ => k))
  (at level 100, right associativity) : chk_scope.
Local Open Scope chk_scope.

(** ** Characters *)

Definition uchar := Z.

Definition chr (a : ascii) : uchar := Z.of_N (N_of_ascii a).

Definition bytes_of (s : string) : list uchar :=
  List.map chr (list_ascii_of_string s).

(* cookies for serialized lines *)
Definition COOKIE_OBJLINE : uchar := Eval cbv in chr "<".
Definition COOKIE_PROPLINE : uchar := Eval cbv in chr "+".
Definition COOKIE_ENDLINE : uchar := Eval cbv in chr ">".
Definition COOKIE_BLANKLINE : uchar := Eval cbv in chr ".".

Definition c_colon : uchar := Eval cbv in chr ":".
Definition c_minus : uchar := Eval cbv in chr "-".
Definition c_0 : uchar := Eval cbv in chr "0".
Definition c_1 : uchar := Eval cbv in chr "1".
Definition c_E : uchar := Eval cbv in chr "E".
Definition c_n : uchar := Eval cbv in chr "n".
Definition c_d : uchar := Eval cbv in chr "d".
Definition c_NL : uchar := 10.

(** [isdigit(c)] of <ctype.h> in the C locale. *)
Definition isdigit (c : uchar) : bool := (48 <=? c) && (c <=? 57).

(** ** Machine integers *)

(** Two's-complement wrap-around of a signed integer of [w] bits. *)
Definition wrap (w : Z) (z : Z) : Z := (z + 2 ^ (w - 1)) mod 2 ^ w - 2 ^ (w - 1).

(** [number_t]: 64 bit. *)
Definition wrap_number : Z -> Z := wrap 64.
(** [int]: 32 bit. *)
Definition wrap_int : Z -> Z := wrap 32.

(** ** The stream, as [obj.c] reads and writes it *)

(** Modelled from the spec: the stream class ([stream.c]) is not part of
    src/; the spec gives its boundary (section 6): [readChar() -> char | EOF],
    [unreadChar(c)] (one character of pushback), [writeChar], [writeBytes],
    [writeInteger] (decimal ASCII).  A stream being read is the list of the
    characters [strmReadChar] will deliver, a pushed back character first; a
    stream being written is the list of the characters written so far. *)
Definition strm_t := list uchar.

Definition strmReadChar : M strm_t uchar :=
  fun pStrm =>
    match pStrm with
    | [] => Err RS_RET_EOF []
    | c :: rest => OK c rest
    end.

Definition strmUnreadChar (c : uchar) : M strm_t unit :=
  fun pStrm => OK tt (c :: pStrm).

Definition strmWriteChar (c : uchar) : M strm_t unit :=
  fun pStrm => OK tt (pStrm ++ [c]).

Definition strmWrite (pBuf : list uchar) (lenBuf : Z) : M strm_t unit :=
  fun pStrm => OK tt (pStrm ++ take (Z.to_nat lenBuf) pBuf).

(** [strlen]: the number of characters before the first NUL of a buffer
    that is NUL-terminated after its last element. *)
Fixpoint strlen (s : list uchar) : Z :=
  match s with
  | [] => 0
  | c :: s' => if c =? 0 then 0 else 1 + strlen s'
  end.

(** Modelled from the spec: [srUtilItoA] ([srUtils.c] is not part of src/) is
    the shared integer-formatting routine of section 4.3: decimal ASCII, with a
    leading [-] for negatives.  [itoa_digits] produces the digits of a
    non-negative number from the last one to the first; a number has no more
    decimal digits than binary ones, which bounds the loop. *)
Fixpoint itoa_digits (fuel : nat) (n : Z) (acc : list uchar) : list uchar :=
  match fuel with
  | O => acc
  | S fuel' =>
      let acc' := (c_0 + n mod 10) :: acc in
      if 0 <? n / 10 then itoa_digits fuel' (n / 10) acc' else acc'
  end.

Definition itoa_nonneg (n : Z) : list uchar :=
  itoa_digits (S (Z.to_nat (Z.log2 n))) n [].

Definition itoa (n : Z) : list uchar :=
  if n <? 0 then c_minus :: itoa_nonneg (- n) else itoa_nonneg n.

Definition srUtilItoA {S} (iToConv : Z) : M S (list uchar) := ret (itoa iToConv).

(** Modelled from the spec: [strmWriteLong] is the stream's
    [writeInteger(n)] (decimal ASCII). *)
Definition strmWriteLong (i : Z) : M strm_t unit :=
  fun pStrm => OK tt (pStrm ++ itoa i).

(** ** Grammar primitives of the deserializer *)

(** The loop [while(isdigit(c)) { i = i * 10 + c - '0'; NEXTC; }] of
    [objDeserializeNumber]; the [match] on the stream is [NEXTC].  It hands
    back [i] and the character that ended it. *)
Fixpoint number_digits (i : Z) (c : uchar) (pStrm : strm_t) {struct pStrm}
  : res strm_t (Z * uchar) :=
  if isdigit c then
    match pStrm with
    | [] => Err RS_RET_EOF []
    | c' :: rest => number_digits (wrap_number (i * 10 + c - c_0)) c' rest
    end
  else OK (i, c) pStrm.

(* de-serialize a number *)
Definition objDeserializeNumber : M strm_t Z :=
  c <- strmReadChar ;;
  sc <- (if c =? c_minus
         then (c' <- strmReadChar ;; ret (true, c'))
         else ret (false, c)) ;;
  let bIsNegative := fst sc in
  let c := snd sc in
  (* we check this so that we get more meaningful error codes *)
  if negb (isdigit c) then ABORT_FINALIZE RS_RET_INVALID_NUMBER else
  ic <- number_digits 0 c ;;
  let i := fst ic in
  let c := snd ic in
  if negb (c =? c_colon) then ABORT_FINALIZE RS_RET_INVALID_DELIMITER else
  ret (if bIsNegative : bool then wrap_number (i * -1) else i).

(** The loop [for(i = 0 ; i < iLen ; ++i) { rsCStrAppendChar(pCStr, c);
    NEXTC; }] of [objDeserializeStr], [n] iterations left. *)
Fixpoint str_chars (n : nat) (pCStr : list uchar) (c : uchar)
  : M strm_t (list uchar * uchar) :=
  match n with
  | O => ret (pCStr, c)
  | S n' => c' <- strmReadChar ;; str_chars n' (pCStr ++ [c]) c'
  end.

(* de-serialize a string, length must be provided *)
Definition objDeserializeStr (iLen : Z) : M strm_t (list uchar) :=
  assert (0 <? iLen) ;;;
  c <- strmReadChar ;;
  sc <- str_chars (Z.to_nat iLen) [] c ;;
  (* check terminator *)
  if negb (snd sc =? c_colon) then ABORT_FINALIZE RS_RET_INVALID_DELIMITER else
  ret (fst sc).

(** [syslogTime_t]; the C types of its fields are declared in
    [syslogd-types.h], which is not part of src/: a field holds the number
    that was parsed for it or that is printed from it. *)
Record syslogTime_t : Set := mk_syslogTime {
  timeType : Z;
  year : Z;
  month : Z;
  day : Z;
  hour : Z;
  minute : Z;
  second : Z;
  secfrac : Z;
  secfracPrecision : Z;
  OffsetMode : uchar;
  OffsetHour : Z;
  OffsetMinute : Z
}.

(* de-serialize a syslogTime -- rgerhards,2008-01-08 *)
Definition objDeserializeSyslogTime : M strm_t syslogTime_t :=
  v_timeType <- objDeserializeNumber ;;
  v_year <- objDeserializeNumber ;;
  v_month <- objDeserializeNumber ;;
  v_day <- objDeserializeNumber ;;
  v_hour <- objDeserializeNumber ;;
  v_minute <- objDeserializeNumber ;;
  v_second <- objDeserializeNumber ;;
  v_secfrac <- objDeserializeNumber ;;
  v_secfracPrecision <- objDeserializeNumber ;;
  (* OffsetMode is a single character! *)
  v_OffsetMode <- strmReadChar ;;
  c <- strmReadChar ;;
  if negb (c =? c_colon) then ABORT_FINALIZE RS_RET_INVALID_DELIMITER else
  v_OffsetHour <- objDeserializeNumber ;;
  v_OffsetMinute <- objDeserializeNumber ;;
  ret (mk_syslogTime v_timeType v_year v_month v_day v_hour v_minute v_second
         v_secfrac v_secfracPrecision v_OffsetMode v_OffsetHour v_OffsetMinute).

(** The loop [NEXTC; while(c != '\n') { NEXTC; }] that ends
    [objDeserializeHeader]. *)
Fixpoint skip_line (pStrm : strm_t) : res strm_t unit :=
  match pStrm with
  | [] => Err RS_RET_EOF []
  | c :: rest => if c =? c_NL then OK tt rest else skip_line rest
  end.

(** The loop [NEXTC; while(c != ':') { rsCStrAppendChar(pProp->pcsName, c);
    NEXTC; }] of [objDeserializeProperty]. *)
Fixpoint name_chars (pcsName : list uchar) (pStrm : strm_t)
  : res strm_t (list uchar) :=
  match pStrm with
  | [] => Err RS_RET_EOF []
  | c :: rest =>
      if c =? c_colon then OK pcsName rest else name_chars (pcsName ++ [c]) rest
  end.

(* de-serialize an object trailer. This does not get any data but checks if the
 * format is ok. *)
Definition expect (e : uchar) (iRet : rsRetVal) : M strm_t unit :=
  c <- strmReadChar ;;
  if negb (c =? e) then ABORT_FINALIZE iRet else ret tt.

Definition objDeserializeTrailer : M strm_t unit :=
  expect COOKIE_ENDLINE RS_RET_INVALID_TRAILER ;;;
  expect c_E RS_RET_INVALID_TRAILER ;;;
  expect c_n RS_RET_INVALID_TRAILER ;;;
  expect c_d RS_RET_INVALID_TRAILER ;;;
  expect c_NL RS_RET_INVALID_TRAILER ;;;
  expect COOKIE_BLANKLINE RS_RET_INVALID_TRAILER ;;;
  expect c_NL RS_RET_INVALID_TRAILER.

(** The loop of [objDeserializeTryRecover]: it ends ([bRun = 0]) on the
    start-cookie read right after a newline and hands that character back. *)
Fixpoint recover_scan (bWasNL : bool) (pStrm : strm_t) : res strm_t uchar :=
  match pStrm with
  | [] => Err RS_RET_EOF []
  | c :: rest =>
      if c =? c_NL then recover_scan true rest
      else if bWasNL && (c =? COOKIE_OBJLINE) then OK c rest (* we found it! *)
      else recover_scan false rest
  end.

(* This method tries to recover a serial store if it got out of sync. *)
Definition objDeserializeTryRecover : M strm_t unit :=
  c <- recover_scan false ;;
  strmUnreadChar c.


(** ** Variables and properties *)

(** The member of the union [val] of a [var_t] that was written last. *)
Inductive var_val : Set :=
| VAL_none
| VAL_pStr (pStr : list uchar)
| VAL_num (num : Z)
| VAL_vSyslogTime (vSyslogTime : syslogTime_t).

Record var_t : Set := mk_var {
  pcsName : list uchar;
  varType : Z;
  val : var_val
}.

(** What [pUsr] of [SerializeProp] points to. *)
Inductive usr_t : Set :=
| USR_sz (psz : list uchar)        (* uchar*: a C string *)
| USR_short (n : Z)                (* short* *)
| USR_int (n : Z)                  (* int* *)
| USR_long (n : Z)                 (* long* *)
| USR_int64 (n : Z)                (* int64* *)
| USR_cstr (pBuf : list uchar)     (* cstr_t*: a counted string *)
| USR_syslogTime (t : syslogTime_t).

(** [propType_t]; [PROPTYPE_other] stands for every value of the type that
    has no [case] in [SerializeProp]. *)
Inductive propType_t : Set :=
| PROPTYPE_PSZ
| PROPTYPE_SHORT
| PROPTYPE_INT
| PROPTYPE_LONG
| PROPTYPE_INT64
| PROPTYPE_CSTR
| PROPTYPE_SYSLOGTIME
| PROPTYPE_other (n : Z).

(* slot 0 and 1 of the jump table, as InfoConstruct fills them *)
Definition objMethod_CONSTRUCT : nat := 0.
Definition objMethod_DESTRUCT : nat := 1.

Section Obj.

(** Constants and types of [obj.h], [obj-types.h] and [var.h], which are not
    part of src/: they are parameters of the development. *)
Variable OBJ_NUM_IDS : Z.
Variable OBJ_NUM_METHODS : nat.
Variables objMethod_SETPROPERTY objMethod_CONSTRUCTION_FINALIZER : nat.
Variables VARTYPE_NONE VARTYPE_STR VARTYPE_NUMBER VARTYPE_SYSLOGTIME : Z.

(** The instances ([obj_t] and what every class puts behind it), with the
    accessor macros of [obj.h]. *)
Variable obj_t : Type.
Variable objGetObjID : obj_t -> Z.
Variable objGetVersion : obj_t -> Z.
Variable objGetClassName : obj_t -> list uchar.

Definition is_rectype (pszRecType : list uchar) : bool :=
  bool_decide (pszRecType = bytes_of "Obj") || bool_decide (pszRecType = bytes_of "OPB").

(* de-serialize an object header
 * rgerhards, 2008-01-07 *)
Definition objDeserializeHeader (pszRecType : list uchar) : M strm_t (Z * Z) :=
  assert (is_rectype pszRecType) ;;;
  (* check header cookie *)
  expect COOKIE_OBJLINE RS_RET_INVALID_HEADER ;;;
  expect (nth 0 pszRecType 0) RS_RET_INVALID_HEADER_RECTYPE ;;;
  expect (nth 1 pszRecType 0) RS_RET_INVALID_HEADER_RECTYPE ;;;
  expect (nth 2 pszRecType 0) RS_RET_INVALID_HEADER_RECTYPE ;;;
  expect c_colon RS_RET_INVALID_HEADER ;;;
  expect c_1 RS_RET_INVALID_HEADER_VERS ;;;
  expect c_colon RS_RET_INVALID_HEADER_VERS ;;;
  (* object type and version *)
  ioID <- objDeserializeNumber ;;
  oVers <- objDeserializeNumber ;;
  if (ioID <? 1) || (ioID >=? OBJ_NUM_IDS) then ABORT_FINALIZE RS_RET_INVALID_OID else
  (* and now we skip over the rest until the delemiting \n *)
  skip_line ;;;
  ret (ioID, wrap_int oVers).

(* Deserialize a single property. Pointer must be positioned at begin of line. Whole line
 * up until the \n is read. *)
Definition objDeserializeProperty (pProp : var_t) : M strm_t var_t :=
  (* check cookie *)
  c <- strmReadChar ;;
  if negb (c =? COOKIE_PROPLINE) then
    (* oops, we've read one char that does not belong to use - unget it first *)
    strmUnreadChar c ;;;
    ABORT_FINALIZE RS_RET_NO_PROPLINE
  else
  (* get the property name first *)
  name <- name_chars [] ;;
  (* property type *)
  i <- objDeserializeNumber ;;
  (* size (needed for strings) *)
  iLen <- objDeserializeNumber ;;
  (* we now need to deserialize the value *)
  v <- (if i =? VARTYPE_STR then
          pStr <- objDeserializeStr (wrap_int iLen) ;; ret (VAL_pStr pStr)
        else if i =? VARTYPE_NUMBER then
          num <- objDeserializeNumber ;; ret (VAL_num num)
        else if i =? VARTYPE_SYSLOGTIME then
          t <- objDeserializeSyslogTime ;; ret (VAL_vSyslogTime t)
        else ret (val pProp)) ;;
  (* we should now be at the end of the line. So the next char must be \n *)
  expect c_NL RS_RET_INVALID_PROPFRAME ;;;
  ret (mk_var name i v).

(** *** The grammar primitives only consume

    A primitive leaves a suffix of the stream it found; this is what bounds
    the loops that call them. *)
Definition consumes {A} (m : M strm_t A) : Prop :=
  forall s,
    match m s with
    | OK _ s' => s' `suffix_of` s
    | Err _ s' => s' `suffix_of` s
    | Crash _ => True
    end.

Lemma consumes_ret {A} (a : A) : consumes (ret a).
Proof. intros s. simpl. reflexivity. Qed.

Lemma consumes_ABORT_FINALIZE {A} iRet : consumes (@ABORT_FINALIZE strm_t A iRet).
Proof. intros s. simpl. reflexivity. Qed.

Lemma consumes_assert b : consumes (@assert strm_t b).
Proof. intros s. unfold assert. destruct b; simpl; auto. Qed.

Lemma consumes_bind {A B} (m : M strm_t A) (k : A -> M strm_t B) :
  consumes m -> (forall a, consumes (k a)) -> consumes (bind m k).
Proof.
  intros Hm Hk s. unfold bind. specialize (Hm s).
  destruct (m s) as [a s1| |]; auto.
  specialize (Hk a s1). destruct (k a s1); auto; etrans; eauto.
Qed.

Lemma consumes_if {A} (b : bool) (m1 m2 : M strm_t A) :
  consumes m1 -> consumes m2 -> consumes (if b then m1 else m2).
Proof. destruct b; auto. Qed.

Lemma consumes_strmReadChar : consumes strmReadChar.
Proof. intros [|c s]; simpl; [apply suffix_nil | apply suffix_cons_r; reflexivity]. Qed.

Lemma consumes_number_digits i c : consumes (number_digits i c).
Proof.
  intros s. revert i c. induction s as [|c' s IH]; intros i c; simpl.
  - destruct (isdigit c); simpl; reflexivity.
  - destruct (isdigit c); simpl; [|reflexivity].
    specialize (IH (wrap_number (i * 10 + c - c_0)) c').
    destruct (number_digits _ c' s); auto; apply suffix_cons_r; auto.
Qed.

Lemma consumes_str_chars n : forall acc c, consumes (str_chars n acc c).
Proof.
  induction n as [|n IH]; intros acc c; simpl.
  - apply consumes_ret.
  - apply consumes_bind; [apply consumes_strmReadChar | intros; apply IH].
Qed.

Lemma consumes_skip_line : consumes skip_line.
Proof.
  intros s. induction s as [|c s IH]; simpl; [reflexivity|].
  destruct (c =? c_NL); simpl; [apply suffix_cons_r; reflexivity|].
  destruct (skip_line s); auto; apply suffix_cons_r; auto.
Qed.

Lemma consumes_name_chars acc : consumes (name_chars acc).
Proof.
  intros s. revert acc. induction s as [|c s IH]; intros acc; simpl; [reflexivity|].
  destruct (c =? c_colon); simpl; [apply suffix_cons_r; reflexivity|].
  specialize (IH (acc ++ [c])).
  destruct (name_chars _ s); auto; apply suffix_cons_r; auto.
Qed.

Create HintDb consumes.
#[local] Hint Resolve consumes_ret consumes_ABORT_FINALIZE consumes_assert
  consumes_strmReadChar consumes_number_digits consumes_str_chars
  consumes_skip_line consumes_name_chars : consumes.

Ltac consumes_tac :=
  repeat first
    [ apply consumes_bind; [|intros]
    | apply consumes_if
    | solve [auto with consumes] ].

Lemma consumes_expect e iRet : consumes (expect e iRet).
Proof. unfold expect. consumes_tac. Qed.
#[local] Hint Resolve consumes_expect : consumes.

Lemma consumes_objDeserializeNumber : consumes objDeserializeNumber.
Proof. unfold objDeserializeNumber. consumes_tac. Qed.
#[local] Hint Resolve consumes_objDeserializeNumber : consumes.

Lemma consumes_objDeserializeStr iLen : consumes (objDeserializeStr iLen).
Proof. unfold objDeserializeStr. consumes_tac. Qed.

Lemma consumes_objDeserializeSyslogTime : consumes objDeserializeSyslogTime.
Proof. unfold objDeserializeSyslogTime. consumes_tac. Qed.

Lemma consumes_objDeserializeTrailer : consumes objDeserializeTrailer.
Proof. unfold objDeserializeTrailer. consumes_tac. Qed.

Lemma consumes_objDeserializeHeader pszRecType :
  consumes (objDeserializeHeader pszRecType).
Proof. unfold objDeserializeHeader. consumes_tac. Qed.
#[local] Hint Resolve consumes_objDeserializeStr consumes_objDeserializeSyslogTime
  consumes_objDeserializeTrailer consumes_objDeserializeHeader : consumes.

(** A property line that was read took at least its cookie. *)
Lemma objDeserializeProperty_shrinks pProp s v s' :
  objDeserializeProperty pProp s = OK v s' -> (length s' < length s)%nat.
Proof.
  unfold objDeserializeProperty. unfold bind at 1.
  destruct s as [|c s]; cbn [strmReadChar]; [discriminate|].
  destruct (negb (c =? COOKIE_PROPLINE)); [discriminate|].
  intros H.
  match type of H with ?m s = _ =>
    assert (Hc : consumes m) by consumes_tac; specialize (Hc s); rewrite H in Hc
  end.
  apply suffix_length in Hc. simpl. lia.
Qed.

(** The recovery scanner hands back a strictly shorter stream: it found a
    newline and the cookie, and pushed back the cookie only. *)
Lemma recover_scan_shrinks b s c s' :
  recover_scan b s = OK c s' ->
  (length s' + (if b then 1 else 2) <= length s)%nat.
Proof.
  revert b. induction s as [|x s IH]; intros b; simpl; [discriminate|].
  destruct (x =? c_NL).
  - intros H. apply IH in H. destruct b; lia.
  - destruct (b && (x =? COOKIE_OBJLINE)) eqn:E.
    + intros [= _ <-]. destruct b; [lia | discriminate].
    + intros H. apply IH in H. destruct b; lia.
Qed.

Lemma objDeserializeTryRecover_shrinks s u s' :
  objDeserializeTryRecover s = OK u s' -> (length s' < length s)%nat.
Proof.
  unfold objDeserializeTryRecover, bind, strmUnreadChar.
  destruct (recover_scan false s) as [c s1| |] eqn:E; try discriminate.
  intros [= _ <-]. apply recover_scan_shrinks in E. simpl. lia.
Qed.

(** ** Class information: the jump table and the registry *)

(** A function of a class, as the jump table calls it: it is handed the
    instance [pObj] points to ([None]: [NULL]) and, for the property setter,
    the property; it returns a code and leaves the instance behind [pObj]. *)
Definition class_fn : Type :=
  option obj_t -> option var_t -> rsRetVal * option obj_t.

(** A function pointer of type [rsRetVal ( * )(void* )]. *)
Inductive handler : Type :=
| fn_NULL
| objInfoNotImplementedDummy   (* returns RS_RET_NOT_IMPLEMENTED *)
| fn_class (f : class_fn).

Record objInfo_t : Type := mk_objInfo {
  pszName : list uchar;
  iObjVers : Z;
  objID : Z;
  objMethods : list handler
}.

(* and now the macro to check if something is not implemented
 * must be provided an objInfo_t pointer. *)
Definition objInfoIsImplemented (pThis : objInfo_t) (method : nat) : bool :=
  match objMethods pThis !! method with
  | Some objInfoNotImplementedDummy => false
  | _ => true
  end.

(** The loop [for(i = 2 ; i < OBJ_NUM_METHODS ; ++i)] of [InfoConstruct],
    at index [i] with [n] iterations left. *)
Fixpoint fill_dummy (i n : nat) (tbl : list handler) : list handler :=
  match n with
  | O => tbl
  | S n' => fill_dummy (S i) n' (<[i := objInfoNotImplementedDummy]> tbl)
  end.

(* construct an object Info object. Each class shall do this on init. *)
Definition InfoConstruct {S} (calloc_ok : bool) (objID : Z) (pszName : list uchar)
    (iObjVers : Z) (pConstruct pDestruct : handler) : M S objInfo_t :=
  assert (match pDestruct with fn_NULL => false | _ => true end) ;;;
  if negb calloc_ok then ABORT_FINALIZE RS_RET_OUT_OF_MEMORY else
  let tbl := replicate OBJ_NUM_METHODS fn_NULL in      (* calloc *)
  let tbl := <[0%nat := pConstruct]> tbl in
  let tbl := <[1%nat := pDestruct]> tbl in
  let tbl := fill_dummy 2 (OBJ_NUM_METHODS - 2) tbl in
  ret (mk_objInfo pszName iObjVers objID tbl).

(* set a method handler *)
Definition InfoSetMethod (objMethod : nat) (pHandler : handler) : M objInfo_t unit :=
  assert ((0 <? objMethod)%nat && (objMethod <? OBJ_NUM_METHODS)%nat) ;;;
  fun pThis =>
    OK tt (mk_objInfo (pszName pThis) (iObjVers pThis) (objID pThis)
             (<[objMethod := pHandler]> (objMethods pThis))).

(** The class information objects live on the heap, [arrObjInfo] holds
    pointers to them.  [arrObjInfo] is the array
    [static objInfo_t *arrObjInfo[OBJ_NUM_IDS]] seen as the memory that starts
    at its first element: an index in [0, OBJ_NUM_IDS) is an element, absent
    from the map while it is [NULL]; any other index is memory behind or
    before the array. *)
Definition loc := positive.

Record objsys : Type := mk_objsys {
  infos : gmap loc objInfo_t;
  arrObjInfo : gmap Z loc
}.

(* register a classe's info pointer, so that we can reference it later, if needed to
 * (e.g. for de-serialization support). *)
Definition RegisterObj (oID : Z) (pInfo : loc) : M (gmap Z loc) unit :=
  fun arr =>
    (assert (bool_decide (arr !! oID = None)) ;;;
     if (oID <? 1) || (oID >? OBJ_NUM_IDS) then ABORT_FINALIZE RS_RET_INVALID_OID else
     fun arr => OK tt (<[oID := pInfo]> arr)) arr.

(** [arrObjInfo[oID]], dereferenced. *)
Definition info_at (sys : objsys) (oID : Z) : option objInfo_t :=
  match arrObjInfo sys !! oID with
  | Some p => infos sys !! p
  | None => None
  end.

(** ** The deserializer *)

(** A call through the jump table, or of the fixup function. *)
Inductive event : Set :=
| EvMethod (oID : Z) (objMethod : nat)
| EvFixup.

(** What a deserialize operation works on: the stream, the instance behind
    its [pObj] ([None]: [pObj == NULL]), and the calls made so far. *)
Record world : Type := mk_world {
  pStrm : strm_t;
  pObj : option obj_t;
  calls : list event
}.

Definition on_strm {A} (m : M strm_t A) : M world A :=
  fun w =>
    match m (pStrm w) with
    | OK a s => OK a (mk_world s (pObj w) (calls w))
    | Err iRet s => Err iRet (mk_world s (pObj w) (calls w))
    | Crash k => Crash k
    end.

(** [arrObjInfo[oID]->objMethods[objMethod](pObj, pVar)] *)
Definition jump (sys : objsys) (oID : Z) (objMethod : nat) (pVar : option var_t)
  : M world unit :=
  fun w =>
    match info_at sys oID with
    | None => Crash invalid_deref
    | Some pInfo =>
        match objMethods pInfo !! objMethod with
        | None | Some fn_NULL => Crash invalid_deref
        | Some objInfoNotImplementedDummy =>
            Err RS_RET_NOT_IMPLEMENTED
              (mk_world (pStrm w) (pObj w) (calls w ++ [EvMethod oID objMethod]))
        | Some (fn_class f) =>
            let r := f (pObj w) pVar in
            let w' := mk_world (pStrm w) (snd r) (calls w ++ [EvMethod oID objMethod]) in
            match fst r with
            | RS_RET_OK => OK tt w'
            | iRet => Err iRet w'
            end
        end
    end.

(** A value together with the equation that names it, for the loops below
    to remember which call gave the result they match on. *)
Definition inspect {A : Type} (a : A) : {b : A | a = b} := exist _ a eq_refl.

(** [ISOBJ_assert(pObj)] *)
Definition ISOBJ_assert : M world unit :=
  fun w => match pObj w with Some _ => OK tt w | None => Crash assert_failed end.

Lemma jump_pStrm sys oID m pVar w u w' :
  jump sys oID m pVar w = OK u w' -> pStrm w' = pStrm w.
Proof.
  unfold jump. destruct (info_at sys oID) as [pInfo|]; [|discriminate].
  destruct (objMethods pInfo !! m) as [[| |f]|]; try discriminate.
  destruct (f (pObj w) pVar) as [[] o]; simpl; try discriminate.
  intros [= _ <-]. reflexivity.
Qed.

(** The loop of [objDeserializeProperties]:
    [iRet = objDeserializeProperty(pVar, pStrm);
     while(iRet == RS_RET_OK) { CHKiRet(...objMethods[objMethod_SETPROPERTY](pObj, pVar));
                                iRet = objDeserializeProperty(pVar, pStrm); }]
    It ends with the [iRet] that is not [RS_RET_OK], or leaves through
    [CHKiRet]. *)
Equations? properties_loop (sys : objsys) (oID : Z) (pVar : var_t) (w : world)
  : res world rsRetVal by wf (length (pStrm w)) lt :=
  properties_loop sys oID pVar w
    with inspect (objDeserializeProperty pVar (pStrm w)) := {
    | exist _ (OK pVar' s') H1
        with inspect (jump sys oID objMethod_SETPROPERTY (Some pVar')
                        (mk_world s' (pObj w) (calls w))) := {
        | exist _ (OK _ w') H2 := properties_loop sys oID pVar' w';
        | exist _ (Err iRet w') _ := Err iRet w';
        | exist _ (Crash k) _ := Crash k };
    | exist _ (Err iRet s') _ := OK iRet (mk_world s' (pObj w) (calls w));
    | exist _ (Crash k) _ := Crash k }.
Proof.
  apply jump_pStrm in H2. simpl in H2. rewrite H2.
  eapply objDeserializeProperty_shrinks; eauto.
Qed.

(* De-serialize the properties of an object. This includes processing
 * of the trailer. Header must already have been processed. *)
Definition objDeserializeProperties (sys : objsys) (oID : Z) : M world unit :=
  ISOBJ_assert ;;;
  assert ((0 <? oID) && (oID <? OBJ_NUM_IDS)) ;;;
  (* var.Construct(&pVar); var.ConstructFinalize(pVar) *)
  let pVar := mk_var [] 0 VAL_none in
  iRet <- properties_loop sys oID pVar ;;
  (* var.Destruct(&pVar) *)
  if negb (rsRetVal_eqb iRet RS_RET_NO_PROPLINE) then ABORT_FINALIZE iRet else
  on_strm objDeserializeTrailer (* do trailer checks *).

(** The loop
    [do { iRetLocal = objDeserializeHeader(pszRecType, &oID, &oVers, pStrm);
          if(iRetLocal != RS_RET_OK) { dbgprintf(...); CHKiRet(objDeserializeTryRecover(pStrm)); }
        } while(iRetLocal != RS_RET_OK);]
    which [Deserialize], [objDeserializeObjAsPropBag] and [DeserializePropBag]
    each have a copy of.  [Deserialize]'s copy has the statement [abort();]
    before the call of [objDeserializeTryRecover]: [bAbort] says whether the
    copy has it. *)
Equations? header_do_while (bAbort : bool) (pszRecType : list uchar) (s : strm_t)
  : res strm_t (Z * Z) by wf (length s) lt :=
  header_do_while bAbort pszRecType s
    with inspect (objDeserializeHeader pszRecType s) := {
    | exist _ (OK r s') _ := OK r s';
    | exist _ (Crash k) _ := Crash k;
    | exist _ (Err iRetLocal s1) H1
        with inspect (((if bAbort then abort else ret tt) ;;;
                       objDeserializeTryRecover) s1) := {
        | exist _ (OK _ s2) H2 := header_do_while bAbort pszRecType s2;
        | exist _ (Err iRet s2) _ := Err iRet s2;
        | exist _ (Crash k) _ := Crash k } }.
Proof.
  pose proof (consumes_objDeserializeHeader pszRecType s) as Hh.
  rewrite H1 in Hh. apply suffix_length in Hh.
  destruct bAbort; [discriminate|].
  apply objDeserializeTryRecover_shrinks in H2. lia.
Qed.

(** [finalize_it: if(iRet != RS_RET_OK && pObj != NULL) free(pObj);] of
    [Deserialize]. *)
Definition Deserialize_finalize_it {A} (r : res world A) : res world A :=
  match r with
  | Err iRet w => Err iRet (mk_world (pStrm w) None (calls w))
  | _ => r
  end.

(** [fFixup(pObj, pUsr)]; the function keeps [pUsr] to itself. *)
Definition call_fFixup (fFixup : obj_t -> rsRetVal * obj_t) : M world unit :=
  fun w =>
    match pObj w with
    | None => Crash invalid_deref
    | Some o =>
        let r := fFixup o in
        let w' := mk_world (pStrm w) (Some (snd r)) (calls w ++ [EvFixup]) in
        match fst r with
        | RS_RET_OK => OK tt w'
        | iRet => Err iRet w'
        end
    end.

(** [objInfoIsImplemented(arrObjInfo[oID], method)] *)
Definition objInfoIsImplemented_at (sys : objsys) (oID : Z) (method : nat)
  : M world bool :=
  fun w =>
    match info_at sys oID with
    | None => Crash invalid_deref
    | Some pInfo => OK (objInfoIsImplemented pInfo method) w
    end.

(* De-Serialize an object.
 * Params: Pointer to object Pointer (pObj) (like a obj_t**, but can not do that due to compiler warning)
 * expected object ID (to check against), a fixup function that can modify the object before it is finalized
 * and a user pointer that is to be passed to that function in addition to the object. The fixup function
 * pointer may be NULL, in which case none is called.
 * The caller must destruct the created object. *)
Definition Deserialize (sys : objsys) (objTypeExpected : Z)
    (fFixup : option (obj_t -> rsRetVal * obj_t)) : M world unit :=
  fun w =>
    Deserialize_finalize_it
      ((assert ((0 <? objTypeExpected) && (objTypeExpected <? OBJ_NUM_IDS)) ;;;
        r <- on_strm (header_do_while true (bytes_of "Obj")) ;;
        let oID := fst r in
        if negb (oID =? objTypeExpected) then ABORT_FINALIZE RS_RET_INVALID_OID else
        jump sys oID objMethod_CONSTRUCT None ;;;
        (* we got the object, now we need to fill the properties *)
        objDeserializeProperties sys oID ;;;
        (* check if we need to call a fixup function that modifies the object
         * before it is finalized. *)
        match fFixup with Some f => call_fFixup f | None => ret tt end ;;;
        (* we have a valid object, let's finalize our work and return *)
        bImpl <- objInfoIsImplemented_at sys oID objMethod_CONSTRUCTION_FINALIZER ;;
        if bImpl : bool then jump sys oID objMethod_CONSTRUCTION_FINALIZER None
        else ret tt)
         (mk_world (pStrm w) None (calls w))).

(** [oID != objGetObjID(pObj)] *)
Definition check_oID_of_pObj (oID : Z) : M world unit :=
  fun w =>
    match pObj w with
    | None => Crash invalid_deref
    | Some o =>
        if negb (oID =? objGetObjID o) then Err RS_RET_INVALID_OID w else OK tt w
    end.

(* De-Serialize an object, but treat it as property bag.
 * rgerhards, 2008-01-11 *)
Definition objDeserializeObjAsPropBag (sys : objsys) : M world unit :=
  ISOBJ_assert ;;;
  r <- on_strm (header_do_while false (bytes_of "Obj")) ;;
  let oID := fst r in
  check_oID_of_pObj oID ;;;
  (* we got the object, now we need to fill the properties *)
  objDeserializeProperties sys oID.

(* De-Serialize an object property bag. As a property bag contains only partial properties,
 * it is not instanciable. Thus, the caller must provide a pointer of an already-instanciated
 * object of the correct type. *)
Definition DeserializePropBag (sys : objsys) : M world unit :=
  ISOBJ_assert ;;;
  r <- on_strm (header_do_while false (bytes_of "OPB")) ;;
  let oID := fst r in
  check_oID_of_pObj oID ;;;
  (* we got the object, now we need to fill the properties *)
  objDeserializeProperties sys oID.

(** The two loops satisfy the equations of the C loops they stand for. *)
Lemma header_do_while_eq bAbort pszRecType s :
  header_do_while bAbort pszRecType s =
  match objDeserializeHeader pszRecType s with
  | OK r s' => OK r s'
  | Err iRetLocal s1 =>
      match ((if bAbort then abort else ret tt) ;;; objDeserializeTryRecover) s1 with
      | OK _ s2 => header_do_while bAbort pszRecType s2
      | Err iRet s2 => Err iRet s2
      | Crash k => Crash k
      end
  | Crash k => Crash k
  end.
Proof.
  rewrite header_do_while_equation_1. unfold inspect.
  assert (aux2 : forall iRetLocal s1 H1 r
                   (H : ((if bAbort then abort else ret tt) ;;;
                         objDeserializeTryRecover) s1 = r),
             header_do_while_unfold_clause_1_clause_3 bAbort pszRecType s
               iRetLocal s1 (exist _ r H) H1 =
             match r with
             | OK _ s2 => header_do_while bAbort pszRecType s2
             | Err iRet s2 => Err iRet s2
             | Crash k => Crash k
             end).
  { intros iRetLocal s1 H1 r H. destruct r; reflexivity. }
  assert (aux1 : forall r (H : objDeserializeHeader pszRecType s = r),
             header_do_while_unfold_clause_1 bAbort pszRecType s (exist _ r H) =
             match r with
             | OK r s' => OK r s'
             | Err iRetLocal s1 =>
                 match ((if bAbort then abort else ret tt) ;;;
                        objDeserializeTryRecover) s1 with
                 | OK _ s2 => header_do_while bAbort pszRecType s2
                 | Err iRet s2 => Err iRet s2
                 | Crash k => Crash k
                 end
             | Crash k => Crash k
             end).
  { intros r H. destruct r; try reflexivity.
    rewrite header_do_while_clause_1_equation_2. apply aux2. }
  apply aux1.
Qed.

Lemma header_do_while_false_eq pszRecType s :
  header_do_while false pszRecType s =
  match objDeserializeHeader pszRecType s with
  | OK r s' => OK r s'
  | Err iRetLocal s1 =>
      match objDeserializeTryRecover s1 with
      | OK _ s2 => header_do_while false pszRecType s2
      | Err iRet s2 => Err iRet s2
      | Crash k => Crash k
      end
  | Crash k => Crash k
  end.
Proof. rewrite header_do_while_eq. reflexivity. Qed.

Lemma properties_loop_eq sys oID pVar w :
  properties_loop sys oID pVar w =
  match objDeserializeProperty pVar (pStrm w) with
  | OK pVar' s' =>
      match jump sys oID objMethod_SETPROPERTY (Some pVar')
              (mk_world s' (pObj w) (calls w)) with
      | OK _ w' => properties_loop sys oID pVar' w'
      | Err iRet w' => Err iRet w'
      | Crash k => Crash k
      end
  | Err iRet s' => OK iRet (mk_world s' (pObj w) (calls w))
  | Crash k => Crash k
  end.
Proof.
  rewrite properties_loop_equation_1. unfold inspect.
  assert (aux2 : forall pVar' s' H1 r
                   (H : jump sys oID objMethod_SETPROPERTY (Some pVar')
                          (mk_world s' (pObj w) (calls w)) = r),
             properties_loop_unfold_clause_1_clause_1 sys oID pVar w pVar' s'
               (exist _ r H) H1 =
             match r with
             | OK _ w' => properties_loop sys oID pVar' w'
             | Err iRet w' => Err iRet w'
             | Crash k => Crash k
             end).
  { intros pVar' s' H1 r H. destruct r; reflexivity. }
  assert (aux1 : forall r (H : objDeserializeProperty pVar (pStrm w) = r),
             properties_loop_unfold_clause_1 sys oID pVar w (exist _ r H) =
             match r with
             | OK pVar' s' =>
                 match jump sys oID objMethod_SETPROPERTY (Some pVar')
                         (mk_world s' (pObj w) (calls w)) with
                 | OK _ w' => properties_loop sys oID pVar' w'
                 | Err iRet w' => Err iRet w'
                 | Crash k => Crash k
                 end
             | Err iRet s' => OK iRet (mk_world s' (pObj w) (calls w))
             | Crash k => Crash k
             end).
  { intros r H. destruct r; try reflexivity.
    rewrite properties_loop_clause_1_equation_1. apply aux2. }
  apply aux1.
Qed.

(** ** The serializer *)

(** Modelled from the spec: [strmRecordBegin] and [strmRecordEnd] of
    [stream.c] (not part of src/) are the transactional framing of section 6;
    they write nothing. *)
Definition strmRecordBegin : M strm_t unit := ret tt.
Definition strmRecordEnd : M strm_t unit := ret tt.

(* serialize the header of an object
 * pszRecType must be either "Obj" (Object) or "OPB" (Object Property Bag) *)
Definition objSerializeHeader (pObj : obj_t) (pszRecType : list uchar)
  : M strm_t unit :=
  assert (is_rectype pszRecType) ;;;
  (* object cookie and serializer version (so far always 1) *)
  strmWriteChar COOKIE_OBJLINE ;;;
  strmWrite pszRecType 3 ;;; (* record types are always 3 octets *)
  strmWriteChar c_colon ;;;
  strmWriteChar c_1 ;;;
  (* object type, version and string length *)
  strmWriteChar c_colon ;;;
  strmWriteLong (objGetObjID pObj) ;;;
  strmWriteChar c_colon ;;;
  strmWriteLong (objGetVersion pObj) ;;;
  (* and finally we write the object name - this is primarily meant for
   * human readers. *)
  strmWriteChar c_colon ;;;
  strmWrite (objGetClassName pObj) (strlen (objGetClassName pObj)) ;;;
  (* record trailer *)
  strmWriteChar c_colon ;;;
  strmWriteChar c_NL.

(* begin serialization of an object *)
Definition BeginSerialize (pObj : obj_t) : M strm_t unit :=
  strmRecordBegin ;;;
  objSerializeHeader pObj (bytes_of "Obj").

(* begin serialization of an object's property bag *)
Definition BeginSerializePropBag (pObj : obj_t) : M strm_t unit :=
  strmRecordBegin ;;;
  objSerializeHeader pObj (bytes_of "OPB").

(** [snprintf(szBuf, sizeof(szBuf), "%d:%d:%d:%d:%d:%d:%d:%d:%d:%c:%d:%d", ...)]:
    the characters the format produces; their number is what [snprintf]
    returns, whatever the size of the buffer. *)
Definition syslogTime_fmt (t : syslogTime_t) : list uchar :=
  itoa (timeType t) ++ c_colon ::
  itoa (year t) ++ c_colon ::
  itoa (month t) ++ c_colon ::
  itoa (day t) ++ c_colon ::
  itoa (hour t) ++ c_colon ::
  itoa (minute t) ++ c_colon ::
  itoa (second t) ++ c_colon ::
  itoa (secfrac t) ++ c_colon ::
  itoa (secfracPrecision t) ++ c_colon ::
  OffsetMode t :: c_colon ::
  itoa (OffsetHour t) ++ c_colon ::
  itoa (OffsetMinute t).

(** [sizeof(szBuf)] for [uchar szBuf[64]] *)
Definition sizeof_szBuf : Z := 64.

(** The [switch(propType)] of [SerializeProp]: [pszBuf], [lenBuf] and
    [vType] as the cases leave them.  A [pUsr] that does not point to what
    [propType] says is read through a pointer of the wrong type. *)
Definition SerializeProp_switch (propType : propType_t) (pUsr : usr_t)
  : M strm_t (list uchar * Z * Z) :=
  match propType, pUsr with
  | PROPTYPE_PSZ, USR_sz pszBuf =>
      ret (pszBuf, strlen pszBuf, VARTYPE_STR)
  | PROPTYPE_SHORT, USR_short n =>
      szBuf <- srUtilItoA n ;; ret (szBuf, strlen szBuf, VARTYPE_NUMBER)
  | PROPTYPE_INT, USR_int n =>
      szBuf <- srUtilItoA n ;; ret (szBuf, strlen szBuf, VARTYPE_NUMBER)
  | PROPTYPE_LONG, USR_long n =>
      szBuf <- srUtilItoA n ;; ret (szBuf, strlen szBuf, VARTYPE_NUMBER)
  | PROPTYPE_INT64, USR_int64 n =>
      szBuf <- srUtilItoA n ;; ret (szBuf, strlen szBuf, VARTYPE_NUMBER)
  | PROPTYPE_CSTR, USR_cstr pBuf =>
      ret (pBuf, Z.of_nat (length pBuf), VARTYPE_STR)
  | PROPTYPE_SYSLOGTIME, USR_syslogTime t =>
      let szBuf := syslogTime_fmt t in
      let lenBuf := Z.of_nat (length szBuf) in
      if lenBuf >? sizeof_szBuf - 1
      then ABORT_FINALIZE RS_RET_PROVIDED_BUFFER_TOO_SMALL
      else ret (szBuf, lenBuf, VARTYPE_SYSLOGTIME)
  | PROPTYPE_other _, _ =>
      (* default: dbgprintf("invalid PROPTYPE %d\n", propType); *)
      ret ([], 0, VARTYPE_NONE)
  | _, _ => fun _ => Crash invalid_deref
  end.

(* append a property *)
Definition SerializeProp (pszPropName : list uchar) (propType : propType_t)
    (pUsr : option usr_t) : M strm_t unit :=
  match pUsr with
  | None =>
      (* if we have no user pointer, there is no need to write this property. *)
      ret tt
  | Some u =>
      b <- SerializeProp_switch propType u ;;
      let pszBuf := fst (fst b) in
      let lenBuf := snd (fst b) in
      let vType := snd b in
      (* cookie *)
      strmWriteChar COOKIE_PROPLINE ;;;
      (* name *)
      strmWrite pszPropName (strlen pszPropName) ;;;
      strmWriteChar c_colon ;;;
      (* type *)
      strmWriteLong vType ;;;
      strmWriteChar c_colon ;;;
      (* length *)
      strmWriteLong lenBuf ;;;
      strmWriteChar c_colon ;;;
      (* data *)
      strmWrite pszBuf lenBuf ;;;
      (* trailer *)
      strmWriteChar c_colon ;;;
      strmWriteChar c_NL
  end.

(* end serialization of an object. *)
Definition EndSerialize : M strm_t unit :=
  strmWriteChar COOKIE_ENDLINE ;;;
  strmWrite (bytes_of "End" ++ [c_NL]) 4 ;;;
  strmWriteChar COOKIE_BLANKLINE ;;;
  strmWriteChar c_NL ;;;
  strmRecordEnd.

(** How a class serializes an instance through this interface:
    [BeginSerialize], one [SerializeProp] for each of its properties,
    [EndSerialize] (the record of section 4.3: header line, property lines,
    trailer). *)
Record prop_t : Set := mk_prop {
  prop_name : list uchar;
  prop_type : propType_t;
  prop_usr : option usr_t
}.

Fixpoint SerializeProps (props : list prop_t) : M strm_t unit :=
  match props with
  | [] => ret tt
  | p :: props' =>
      SerializeProp (prop_name p) (prop_type p) (prop_usr p) ;;;
      SerializeProps props'
  end.

Definition serialize (pObj : obj_t) (props : list prop_t) : M strm_t unit :=
  BeginSerialize pObj ;;;
  SerializeProps props ;;;
  EndSerialize.

Definition serializePropBag (pObj : obj_t) (props : list prop_t) : M strm_t unit :=
  BeginSerializePropBag pObj ;;;
  SerializeProps props ;;;
  EndSerialize.

(** * Properties *)

(** ** The registry and the jump table *)

Lemma RegisterObj_INVALID_OID_iff oID pInfo (arr : gmap Z loc) :
  arr !! oID = None ->
  (RegisterObj oID pInfo arr = Err RS_RET_INVALID_OID arr) <->
  (oID < 1 \/ oID > OBJ_NUM_IDS).
Proof.
  intros Hfree. unfold RegisterObj, bind, assert, ABORT_FINALIZE.
  rewrite bool_decide_eq_true_2 by assumption.
  destruct (oID <? 1) eqn:E1; destruct (oID >? OBJ_NUM_IDS) eqn:E2; simpl;
    split; intros H; try reflexivity; try discriminate; lia.
Qed.

Lemma RegisterObj_in_range oID pInfo (arr : gmap Z loc) :
  arr !! oID = None -> 1 <= oID < OBJ_NUM_IDS ->
  RegisterObj oID pInfo arr = OK tt (<[oID := pInfo]> arr).
Proof.
  intros Hfree Hr. unfold RegisterObj, bind, assert.
  rewrite bool_decide_eq_true_2 by assumption.
  destruct (oID <? 1) eqn:E1; destruct (oID >? OBJ_NUM_IDS) eqn:E2; simpl;
    try reflexivity; lia.
Qed.

Lemma RegisterObj_occupied oID pInfo (arr : gmap Z loc) p :
  arr !! oID = Some p -> RegisterObj oID pInfo arr = Crash assert_failed.
Proof.
  intros Hocc. unfold RegisterObj, bind, assert.
  rewrite bool_decide_eq_false_2; [reflexivity | congruence].
Qed.

(** C3: [RegisterObj] does not fail with [RS_RET_INVALID_OID] for the class id
    [OBJ_NUM_IDS], which lies outside [1, OBJ_NUM_IDS): the test is
    [oID > OBJ_NUM_IDS], so the call returns [RS_RET_OK] and stores the pointer
    at index [OBJ_NUM_IDS], one behind the last element of [arrObjInfo]. *)
Theorem RegisterObj_accepts_OBJ_NUM_IDS pInfo (arr : gmap Z loc) :
  1 <= OBJ_NUM_IDS ->
  arr !! OBJ_NUM_IDS = None ->
  RegisterObj OBJ_NUM_IDS pInfo arr = OK tt (<[OBJ_NUM_IDS := pInfo]> arr).
Proof.
  intros Hpos Hfree. unfold RegisterObj, bind, assert.
  rewrite bool_decide_eq_true_2 by assumption.
  destruct (OBJ_NUM_IDS <? 1) eqn:E1; [lia|].
  destruct (OBJ_NUM_IDS >? OBJ_NUM_IDS) eqn:E2; [lia|].
  reflexivity.
Qed.

Definition set_objMethods (pThis : objInfo_t) (tbl : list handler) : objInfo_t :=
  mk_objInfo (pszName pThis) (iObjVers pThis) (objID pThis) tbl.

(** C5 (as amended): [InfoSetMethod] overwrites the slot it is given for every
    index [objMethod] with [0 < objMethod < OBJ_NUM_METHODS] and leaves every
    other slot as it was; this includes the destructor slot 1, which nothing
    guards.  The constructor slot 0 is excluded by the function's assertion
    [objMethod > 0]. *)
Theorem InfoSetMethod_slots pHandler (pThis : objInfo_t) :
  InfoSetMethod 0 pHandler pThis = Crash assert_failed /\
  (forall objMethod,
     (0 < objMethod < OBJ_NUM_METHODS)%nat ->
     InfoSetMethod objMethod pHandler pThis =
       OK tt (set_objMethods pThis (<[objMethod := pHandler]> (objMethods pThis))) /\
     (length (objMethods pThis) = OBJ_NUM_METHODS ->
      <[objMethod := pHandler]> (objMethods pThis) !! objMethod = Some pHandler) /\
     (forall j, j <> objMethod ->
        <[objMethod := pHandler]> (objMethods pThis) !! j = objMethods pThis !! j)) /\
  ((1 < OBJ_NUM_METHODS)%nat ->
   InfoSetMethod objMethod_DESTRUCT pHandler pThis =
     OK tt (set_objMethods pThis (<[1%nat := pHandler]> (objMethods pThis)))).
Proof.
  assert (Hin : forall objMethod, (0 < objMethod < OBJ_NUM_METHODS)%nat ->
            InfoSetMethod objMethod pHandler pThis =
            OK tt (set_objMethods pThis (<[objMethod := pHandler]> (objMethods pThis)))).
  { intros m [H0 H1]. unfold InfoSetMethod, bind, assert.
    apply Nat.ltb_lt in H0, H1. rewrite H0, H1. reflexivity. }
  split; [reflexivity|]. split.
  - intros m Hm. split; [auto|]. split.
    + intros Hlen. apply list_lookup_insert_eq. lia.
    + intros j Hj. apply list_lookup_insert_ne. auto.
  - intros H1. apply (Hin 1%nat). lia.
Qed.

(** ** The serializer writes what the grammar says *)

(** [emits m l]: [m] returns [RS_RET_OK] and appends [l] to the stream. *)
Definition emits (m : M strm_t unit) (l : list uchar) : Prop :=
  forall s, m s = OK tt (s ++ l).

Lemma emits_bind m1 m2 l1 l2 :
  emits m1 l1 -> emits m2 l2 -> emits (m1 ;;; m2) (l1 ++ l2).
Proof.
  intros H1 H2 s. unfold bind. rewrite H1, H2, app_assoc. reflexivity.
Qed.

Lemma emits_strmWriteChar c : emits (strmWriteChar c) [c].
Proof. intros s. reflexivity. Qed.

Lemma emits_strmWrite pBuf lenBuf :
  emits (strmWrite pBuf lenBuf) (take (Z.to_nat lenBuf) pBuf).
Proof. intros s. reflexivity. Qed.

Lemma emits_strmWriteLong i : emits (strmWriteLong i) (itoa i).
Proof. intros s. reflexivity. Qed.

Lemma emits_ret : emits (ret tt) [].
Proof. intros s. unfold ret. rewrite app_nil_r. reflexivity. Qed.

Lemma emits_ext m l l' : emits m l -> l = l' -> emits m l'.
Proof. intros H <-. exact H. Qed.

Ltac emits_tac :=
  repeat first
    [ apply emits_strmWriteChar | apply emits_strmWrite | apply emits_strmWriteLong
    | apply emits_ret | (eapply emits_bind; [|]) ].

(** The line [SerializeProp] writes for a name, a type tag and a value of
    [lenBuf] characters. *)
Definition prop_line (pszPropName : list uchar) (vType lenBuf : Z)
    (pszBuf : list uchar) : list uchar :=
  COOKIE_PROPLINE :: take (Z.to_nat (strlen pszPropName)) pszPropName ++
  c_colon :: itoa vType ++ c_colon :: itoa lenBuf ++
  c_colon :: take (Z.to_nat lenBuf) pszBuf ++ [c_colon; c_NL].

Lemma SerializeProp_emits pszPropName propType u pszBuf lenBuf vType :
  (forall s, SerializeProp_switch propType u s = OK (pszBuf, lenBuf, vType) s) ->
  emits (SerializeProp pszPropName propType (Some u))
        (prop_line pszPropName vType lenBuf pszBuf).
Proof.
  intros Hsw s. unfold SerializeProp. unfold bind at 1. rewrite Hsw. cbn [fst snd].
  revert s. eapply emits_ext; [emits_tac|].
  unfold prop_line. simpl.
  repeat (rewrite <- ?app_assoc; simpl; f_equal).
Qed.

(** C10: [SerializeProp] with a user pointer and a property type that has no
    case of its own does not fail: it returns [RS_RET_OK] and writes a property
    line with the type tag [VARTYPE_NONE], the length 0 and no value
    characters. *)
Theorem SerializeProp_unknown_type pszPropName n u s :
  SerializeProp pszPropName (PROPTYPE_other n) (Some u) s =
  OK tt (s ++ COOKIE_PROPLINE :: take (Z.to_nat (strlen pszPropName)) pszPropName ++
              c_colon :: itoa VARTYPE_NONE ++ c_colon :: bytes_of "0" ++
              c_colon :: [] ++ [c_colon; c_NL]).
Proof.
  rewrite (SerializeProp_emits pszPropName (PROPTYPE_other n) u [] 0 VARTYPE_NONE).
  - reflexivity.
  - intros s'. destruct u; reflexivity.
Qed.

(** ** Header failure in [Deserialize] *)

Lemma assert_true {S} (b : bool) (s : S) : b = true -> assert b s = OK tt s.
Proof. intros ->. reflexivity. Qed.

Lemma Deserialize_range_ok (E : Z) :
  0 < E < OBJ_NUM_IDS -> (0 <? E) && (E <? OBJ_NUM_IDS) = true.
Proof. intros [H0 H1]. apply andb_true_intro. split; apply Z.ltb_lt; lia. Qed.

(** C1: when the header does not parse, [Deserialize] does not run the recovery
    scanner: its loop calls [abort()] before [objDeserializeTryRecover], so the
    process ends there. *)
Theorem Deserialize_aborts_on_header_failure sys E fFixup w iRetLocal s1 :
  0 < E < OBJ_NUM_IDS ->
  objDeserializeHeader (bytes_of "Obj") (pStrm w) = Err iRetLocal s1 ->
  Deserialize sys E fFixup w = Crash abort_called.
Proof.
  intros HE Hh. unfold Deserialize.
  unfold bind at 1. rewrite assert_true by (apply Deserialize_range_ok; exact HE).
  unfold bind at 1. unfold on_strm. cbn [pStrm].
  rewrite header_do_while_eq, Hh. reflexivity.
Qed.

(** C7: the stream's first well-formed header, as the loop the comment of
    [Deserialize] describes reaches it (recovery while the header fails, which
    is the loop of the two sibling readers), carries a class id [D] other than
    the expected one.  When that header is at the start of the stream,
    [Deserialize] returns [RS_RET_INVALID_OID]; it has made no call through the
    jump table, so no instance was constructed.  When damaged data precedes
    it, [Deserialize] does not return [RS_RET_INVALID_OID]: the first header
    failure reaches [abort()] and the process ends there. *)
Theorem Deserialize_class_id_mismatch sys E fFixup w D oVers s' :
  0 < E < OBJ_NUM_IDS ->
  header_do_while false (bytes_of "Obj") (pStrm w) = OK (D, oVers) s' ->
  D <> E ->
  match objDeserializeHeader (bytes_of "Obj") (pStrm w) with
  | OK _ _ =>
      Deserialize sys E fFixup w = Err RS_RET_INVALID_OID (mk_world s' None (calls w))
  | Err _ _ => Deserialize sys E fFixup w = Crash abort_called
  | Crash _ => False
  end.
Proof.
  intros HE Hh Hne. rewrite header_do_while_false_eq in Hh.
  destruct (objDeserializeHeader (bytes_of "Obj") (pStrm w)) as [r s1|e s1|k] eqn:Hhd;
    [| |discriminate].
  - injection Hh as -> ->. unfold Deserialize.
    unfold bind at 1. rewrite assert_true by (apply Deserialize_range_ok; exact HE).
    unfold bind at 1. unfold on_strm. cbn [pStrm pObj calls].
    rewrite header_do_while_eq, Hhd. cbn [fst].
    apply Z.eqb_neq in Hne. rewrite Hne. reflexivity.
  - unfold Deserialize.
    unfold bind at 1. rewrite assert_true by (apply Deserialize_range_ok; exact HE).
    unfold bind at 1. unfold on_strm. cbn [pStrm].
    rewrite header_do_while_eq, Hhd. reflexivity.
Qed.

(** ** Numbers: [objDeserializeNumber] reads back what [itoa] wrote *)

Lemma isdigit_true c : isdigit c = true <-> 48 <= c <= 57.
Proof. unfold isdigit. rewrite andb_true_iff, !Z.leb_le. reflexivity. Qed.

(** The value of a digit string read after the value [i], without
    wrap-around. *)
Definition digits_value (i : Z) (ds : list uchar) : Z :=
  fold_left (fun a d => a * 10 + (d - c_0)) ds i.

(** The same as [number_digits] computes it. *)
Definition digits_wrapped (i : Z) (ds : list uchar) : Z :=
  fold_left (fun a d => wrap_number (a * 10 + d - c_0)) ds i.

Lemma wrap_number_mod a : wrap_number a mod 2 ^ 64 = a mod 2 ^ 64.
Proof.
  unfold wrap_number, wrap. change (64 - 1) with 63.
  rewrite Zminus_mod_idemp_l. f_equal. lia.
Qed.

Lemma wrap_number_congr a b : a mod 2 ^ 64 = b mod 2 ^ 64 -> wrap_number a = wrap_number b.
Proof.
  intros H. unfold wrap_number, wrap. f_equal.
  rewrite (Z.add_mod a), (Z.add_mod b), H by lia. reflexivity.
Qed.

Lemma wrap_number_id a : - 2 ^ 63 <= a < 2 ^ 63 -> wrap_number a = a.
Proof.
  intros H. unfold wrap_number, wrap. change (64 - 1) with 63.
  rewrite Z.mod_small; lia.
Qed.

Lemma digits_wrapped_mod_gen ds : forall i j,
  i mod 2 ^ 64 = j mod 2 ^ 64 ->
  digits_wrapped i ds mod 2 ^ 64 = digits_value j ds mod 2 ^ 64.
Proof.
  induction ds as [|d ds IH]; intros i j Hij; [exact Hij|].
  change (digits_wrapped (wrap_number (i * 10 + d - c_0)) ds mod 2 ^ 64 =
          digits_value (j * 10 + (d - c_0)) ds mod 2 ^ 64).
  apply IH. rewrite wrap_number_mod.
  replace (i * 10 + d - c_0) with (i * 10 + (d - c_0)) by lia.
  rewrite (Z.add_mod (i * 10)), (Z.mul_mod i), Hij by lia.
  rewrite <- Z.mul_mod, <- Z.add_mod by lia. reflexivity.
Qed.

Lemma digits_wrapped_mod ds i :
  digits_wrapped i ds mod 2 ^ 64 = digits_value i ds mod 2 ^ 64.
Proof. apply digits_wrapped_mod_gen. reflexivity. Qed.

Lemma number_digits_digits ds : forall i c t rest,
  isdigit c = true -> Forall (fun d => isdigit d = true) ds -> isdigit t = false ->
  number_digits i c (ds ++ t :: rest) = OK (digits_wrapped i (c :: ds), t) rest.
Proof.
  induction ds as [|d ds IH]; intros i c t rest Hc Hds Ht; simpl.
  - rewrite Hc. destruct rest; simpl; rewrite Ht; reflexivity.
  - rewrite Hc. inversion Hds; subst. rewrite IH by assumption. reflexivity.
Qed.

Lemma digits_value_app i ds1 ds2 :
  digits_value i (ds1 ++ ds2) = digits_value (digits_value i ds1) ds2.
Proof. apply fold_left_app. Qed.

Lemma digits_value_one i d : digits_value i [d] = i * 10 + (d - c_0).
Proof. reflexivity. Qed.

Lemma itoa_digits_S fuel n acc :
  itoa_digits (S fuel) n acc =
  if 0 <? n / 10 then itoa_digits fuel (n / 10) ((c_0 + n mod 10) :: acc)
  else (c_0 + n mod 10) :: acc.
Proof. reflexivity. Qed.

Lemma itoa_digits_spec fuel : forall n acc,
  0 <= n < 10 ^ Z.of_nat (S fuel) ->
  exists d ds,
    itoa_digits (S fuel) n acc = (d :: ds) ++ acc /\
    Forall (fun c => isdigit c = true) (d :: ds) /\
    digits_value 0 (d :: ds) = n.
Proof.
  induction fuel as [|fuel IH]; intros n acc Hn.
  - change (10 ^ Z.of_nat 1) with 10 in Hn. simpl.
    assert (Hq : n / 10 = 0) by (apply Z.div_small; lia).
    rewrite Hq. simpl. exists (c_0 + n mod 10), []. split; [reflexivity|].
    rewrite Z.mod_small by lia. split.
    + constructor; [|constructor]. apply isdigit_true. unfold c_0. lia.
    + unfold digits_value. simpl. lia.
  - rewrite itoa_digits_S. destruct (0 <? n / 10) eqn:E.
    + apply Z.ltb_lt in E.
      assert (Hq : 0 <= n / 10 < 10 ^ Z.of_nat (S fuel)).
      { split; [lia|]. apply Z.div_lt_upper_bound; [lia|].
        rewrite <- Z.pow_succ_r by lia. rewrite <- Nat2Z.inj_succ. lia. }
      destruct (IH (n / 10) ((c_0 + n mod 10) :: acc) Hq) as (d & ds & Heq & Hall & Hval).
      exists d, (ds ++ [c_0 + n mod 10]). split; [|split].
      * rewrite Heq. simpl. rewrite <- app_assoc. reflexivity.
      * rewrite app_comm_cons. apply Forall_app. split; [assumption|].
        constructor; [|constructor]. apply isdigit_true.
        pose proof (Z.mod_pos_bound n 10). unfold c_0. lia.
      * rewrite app_comm_cons, digits_value_app, Hval, digits_value_one.
        pose proof (Z.div_mod n 10). lia.
    + apply Z.ltb_ge in E.
      assert (Hq : n / 10 = 0) by (pose proof (Z.div_pos n 10); lia).
      assert (Hn10 : n < 10).
      { pose proof (Z.div_mod n 10). pose proof (Z.mod_pos_bound n 10). lia. }
      exists (c_0 + n mod 10), []. split; [reflexivity|].
      rewrite Z.mod_small by lia. split.
      * constructor; [|constructor]. apply isdigit_true. unfold c_0. lia.
      * unfold digits_value. simpl. lia.
Qed.

Lemma itoa_fuel_enough n : 0 <= n -> n < 10 ^ Z.of_nat (S (Z.to_nat (Z.log2 n))).
Proof.
  intros Hn. rewrite Nat2Z.inj_succ, Z2Nat.id by apply Z.log2_nonneg.
  destruct (Z.eq_dec n 0) as [->|Hne]; [reflexivity|].
  pose proof (Z.log2_spec n ltac:(lia)) as [_ Hlt].
  eapply Z.lt_le_trans; [exact Hlt|].
  apply Z.pow_le_mono_l. pose proof (Z.log2_nonneg n). lia.
Qed.

Lemma itoa_nonneg_spec n :
  0 <= n ->
  exists d ds,
    itoa_nonneg n = d :: ds /\
    Forall (fun c => isdigit c = true) (d :: ds) /\
    digits_value 0 (d :: ds) = n.
Proof.
  intros Hn. unfold itoa_nonneg.
  destruct (itoa_digits_spec (Z.to_nat (Z.log2 n)) n [])
    as (d & ds & Heq & Hall & Hval).
  { split; [lia | apply itoa_fuel_enough; lia]. }
  exists d, ds. rewrite Heq, app_nil_r. auto.
Qed.

Lemma isdigit_not_minus c : isdigit c = true -> (c =? c_minus) = false.
Proof. intros H%isdigit_true. apply Z.eqb_neq. unfold c_minus. lia. Qed.

(** Whatever number [itoa] renders, [objDeserializeNumber] reads all of its
    characters and the delimiter, and returns the number as a [number_t]. *)
Lemma objDeserializeNumber_itoa n rest :
  objDeserializeNumber (itoa n ++ c_colon :: rest) = OK (wrap_number n) rest.
Proof.
  unfold itoa. destruct (n <? 0) eqn:E.
  - apply Z.ltb_lt in E.
    destruct (itoa_nonneg_spec (- n)) as (d & ds & -> & Hall & Hval); [lia|].
    pose proof (Forall_inv Hall) as Hd. pose proof (Forall_inv_tail Hall) as Hds.
    simpl in Hd.
    unfold objDeserializeNumber. unfold bind at 1. simpl strmReadChar. cbv iota.
    unfold bind at 1. simpl. unfold bind at 1. simpl.
    rewrite Hd. simpl. unfold bind.
    rewrite number_digits_digits by (auto; reflexivity).
    simpl. unfold ret. f_equal.
    apply wrap_number_congr.
    change (digits_wrapped (wrap_number (0 * 10 + d - c_0)) ds)
      with (digits_wrapped 0 (d :: ds)).
    rewrite Z.mul_mod, digits_wrapped_mod, Hval, <- Z.mul_mod by lia.
    f_equal. lia.
  - apply Z.ltb_ge in E.
    destruct (itoa_nonneg_spec n) as (d & ds & -> & Hall & Hval); [lia|].
    pose proof (Forall_inv Hall) as Hd. pose proof (Forall_inv_tail Hall) as Hds.
    simpl in Hd.
    unfold objDeserializeNumber. unfold bind at 1. simpl strmReadChar. cbv iota.
    unfold bind at 1. rewrite (isdigit_not_minus d Hd). simpl.
    rewrite Hd. simpl. unfold bind.
    rewrite number_digits_digits by (auto; reflexivity).
    simpl. unfold ret. f_equal.
    assert (Hw : digits_wrapped 0 (d :: ds) = wrap_number (digits_wrapped 0 (d :: ds))).
    { clear. destruct ds as [|x ds _] using rev_ind.
      - simpl. unfold digits_wrapped. simpl. symmetry. apply wrap_number_congr.
        rewrite wrap_number_mod. reflexivity.
      - rewrite app_comm_cons. unfold digits_wrapped. rewrite fold_left_app. simpl.
        symmetry. apply wrap_number_congr. rewrite wrap_number_mod. reflexivity. }
    change (digits_wrapped (wrap_number (0 * 10 + d - c_0)) ds)
      with (digits_wrapped 0 (d :: ds)).
    rewrite Hw. apply wrap_number_congr. rewrite digits_wrapped_mod, Hval. reflexivity.
Qed.

Lemma objDeserializeNumber_itoa_id n rest :
  - 2 ^ 63 <= n < 2 ^ 63 ->
  objDeserializeNumber (itoa n ++ c_colon :: rest) = OK n rest.
Proof. intros H. rewrite objDeserializeNumber_itoa, wrap_number_id; auto. Qed.

(** ** Strings, names and timestamps read back *)

(** [c] does not occur in [l]. *)
Definition no_char (c : uchar) (l : list uchar) : bool :=
  forallb (fun x => negb (x =? c)) l.

Lemma no_char_cons c x l :
  no_char c (x :: l) = true <-> x <> c /\ no_char c l = true.
Proof.
  unfold no_char. simpl. rewrite andb_true_iff, negb_true_iff, Z.eqb_neq. reflexivity.
Qed.

Lemma no_char_app c l1 l2 :
  no_char c (l1 ++ l2) = no_char c l1 && no_char c l2.
Proof. apply forallb_app. Qed.

Lemma strlen_no_NUL l : no_char 0 l = true -> strlen l = Z.of_nat (length l).
Proof.
  induction l as [|x l IH]; [reflexivity|].
  intros [Hx Hl]%no_char_cons. cbn [strlen length].
  apply Z.eqb_neq in Hx. rewrite Hx, IH by assumption. lia.
Qed.

Lemma take_strlen l : no_char 0 l = true -> take (Z.to_nat (strlen l)) l = l.
Proof.
  intros H. rewrite strlen_no_NUL, Nat2Z.id by assumption. apply firstn_all.
Qed.

Lemma no_NUL_digits ds :
  Forall (fun c => isdigit c = true) ds -> no_char 0 ds = true.
Proof.
  induction 1 as [|d ds Hd _ IH]; [reflexivity|].
  apply no_char_cons. split; [|assumption]. apply isdigit_true in Hd. lia.
Qed.

Lemma no_NUL_itoa n : no_char 0 (itoa n) = true.
Proof.
  unfold itoa. destruct (n <? 0) eqn:E.
  - apply Z.ltb_lt in E.
    destruct (itoa_nonneg_spec (- n)) as (d & ds & -> & Hall & _); [lia|].
    apply no_char_cons. split; [discriminate | apply no_NUL_digits; assumption].
  - apply Z.ltb_ge in E.
    destruct (itoa_nonneg_spec n) as (d & ds & -> & Hall & _); [lia|].
    apply no_NUL_digits; assumption.
Qed.

Lemma name_chars_app name : forall acc rest,
  no_char c_colon name = true ->
  name_chars acc (name ++ c_colon :: rest) = OK (acc ++ name) rest.
Proof.
  induction name as [|x name IH]; intros acc rest Hn; simpl.
  - rewrite app_nil_r. reflexivity.
  - apply no_char_cons in Hn as [Hx Hn]. apply Z.eqb_neq in Hx. rewrite Hx.
    rewrite IH by assumption. rewrite <- app_assoc. reflexivity.
Qed.

Lemma skip_line_app l rest :
  no_char c_NL l = true -> skip_line (l ++ c_NL :: rest) = OK tt rest.
Proof.
  induction l as [|x l IH]; intros Hl; simpl; [reflexivity|].
  apply no_char_cons in Hl as [Hx Hl]. apply Z.eqb_neq in Hx. rewrite Hx. auto.
Qed.

Lemma str_chars_app l : forall acc c t rest,
  str_chars (S (length l)) acc c (l ++ t :: rest) = OK (acc ++ c :: l, t) rest.
Proof.
  induction l as [|d l IH]; intros acc c t rest.
  - reflexivity.
  - cbn [length str_chars]. unfold bind at 1. cbn [app strmReadChar].
    change (str_chars (S (length l)) (acc ++ [c]) d (l ++ t :: rest) =
            OK (acc ++ c :: d :: l, t) rest).
    rewrite IH, <- app_assoc. reflexivity.
Qed.

Lemma objDeserializeStr_app l rest :
  l <> [] ->
  objDeserializeStr (Z.of_nat (length l)) (l ++ c_colon :: rest) = OK l rest.
Proof.
  intros Hl. destruct l as [|c l]; [congruence|].
  unfold objDeserializeStr. unfold bind at 1. rewrite assert_true.
  2:{ apply Z.ltb_lt. cbn [length]. lia. }
  unfold bind at 1. cbn [app strmReadChar]. unfold bind at 1.
  rewrite Nat2Z.id. cbn [length]. rewrite str_chars_app. reflexivity.
Qed.

(** Stepping through [CHKiRet]. *)
Lemma bind_OK {S A B} (m : M S A) (k : A -> M S B) s a s' :
  m s = OK a s' -> bind m k s = k a s'.
Proof. intros H. unfold bind. rewrite H. reflexivity. Qed.

Lemma expect_OK e iRet rest : expect e iRet (e :: rest) = OK tt rest.
Proof. unfold expect, bind. simpl. rewrite Z.eqb_refl. reflexivity. Qed.

Lemma objDeserializeTrailer_OK rest :
  objDeserializeTrailer
    (COOKIE_ENDLINE :: bytes_of "End" ++ c_NL :: COOKIE_BLANKLINE :: c_NL :: rest)
  = OK tt rest.
Proof. reflexivity. Qed.

(** The timestamp with every number as a [number_t]. *)
Definition syslogTime_wrapped (t : syslogTime_t) : syslogTime_t :=
  mk_syslogTime (wrap_number (timeType t)) (wrap_number (year t))
    (wrap_number (month t)) (wrap_number (day t)) (wrap_number (hour t))
    (wrap_number (minute t)) (wrap_number (second t)) (wrap_number (secfrac t))
    (wrap_number (secfracPrecision t)) (OffsetMode t)
    (wrap_number (OffsetHour t)) (wrap_number (OffsetMinute t)).

Lemma objDeserializeSyslogTime_fmt t rest :
  objDeserializeSyslogTime (syslogTime_fmt t ++ c_colon :: rest) =
  OK (syslogTime_wrapped t) rest.
Proof.
  unfold syslogTime_fmt, objDeserializeSyslogTime.
  repeat (rewrite <- ?app_assoc, <- ?app_comm_cons;
          erewrite bind_OK by apply objDeserializeNumber_itoa).
  unfold bind at 1. cbn [strmReadChar]. unfold bind at 1. cbn [strmReadChar].
  rewrite Z.eqb_refl. cbn [negb].
  repeat (rewrite <- ?app_assoc, <- ?app_comm_cons;
          erewrite bind_OK by apply objDeserializeNumber_itoa).
  reflexivity.
Qed.

Definition in_number_t (n : Z) : bool := (- 2 ^ 63 <=? n) && (n <? 2 ^ 63).

Lemma in_number_t_wrap n : in_number_t n = true -> wrap_number n = n.
Proof.
  unfold in_number_t. rewrite andb_true_iff, Z.leb_le, Z.ltb_lt.
  intros H. apply wrap_number_id. lia.
Qed.

(** ** A property line read back *)

(** The type tag, the value and the value's characters that [SerializeProp]
    derives from what [pUsr] points to. *)
Definition vType_of (u : usr_t) : Z :=
  match u with
  | USR_sz _ | USR_cstr _ => VARTYPE_STR
  | USR_short _ | USR_int _ | USR_long _ | USR_int64 _ => VARTYPE_NUMBER
  | USR_syslogTime _ => VARTYPE_SYSLOGTIME
  end.

Definition val_of (u : usr_t) : var_val :=
  match u with
  | USR_sz s | USR_cstr s => VAL_pStr s
  | USR_short n | USR_int n | USR_long n | USR_int64 n => VAL_num n
  | USR_syslogTime t => VAL_vSyslogTime t
  end.

Definition value_bytes (u : usr_t) : list uchar :=
  match u with
  | USR_sz s | USR_cstr s => s
  | USR_short n | USR_int n | USR_long n | USR_int64 n => itoa n
  | USR_syslogTime t => syslogTime_fmt t
  end.

Definition prop_bytes (pszPropName : list uchar) (u : usr_t) : list uchar :=
  prop_line pszPropName (vType_of u) (Z.of_nat (length (value_bytes u)))
    (value_bytes u).

(** [pUsr] points to what [propType] says. *)
Definition type_matches (propType : propType_t) (u : usr_t) : bool :=
  match propType, u with
  | PROPTYPE_PSZ, USR_sz _
  | PROPTYPE_SHORT, USR_short _
  | PROPTYPE_INT, USR_int _
  | PROPTYPE_LONG, USR_long _
  | PROPTYPE_INT64, USR_int64 _
  | PROPTYPE_CSTR, USR_cstr _
  | PROPTYPE_SYSLOGTIME, USR_syslogTime _ => true
  | _, _ => false
  end.

(** The values the format carries: a string is not empty (the decoder's
    [assert(iLen > 0)]) and its length is an [int]; a C string holds no NUL;
    a number is a [number_t]; the rendering of a timestamp fits [szBuf]. *)
Definition str_ok (s : list uchar) : bool :=
  (0 <? Z.of_nat (length s)) && (Z.of_nat (length s) <? 2 ^ 31).

Definition syslogTime_ok (t : syslogTime_t) : bool :=
  in_number_t (timeType t) && in_number_t (year t) && in_number_t (month t) &&
  in_number_t (day t) && in_number_t (hour t) && in_number_t (minute t) &&
  in_number_t (second t) && in_number_t (secfrac t) &&
  in_number_t (secfracPrecision t) && in_number_t (OffsetHour t) &&
  in_number_t (OffsetMinute t) &&
  (Z.of_nat (length (syslogTime_fmt t)) <=? sizeof_szBuf - 1).

Definition usr_ok (u : usr_t) : bool :=
  match u with
  | USR_sz s => no_char 0 s && str_ok s
  | USR_cstr s => str_ok s
  | USR_short n | USR_int n | USR_long n | USR_int64 n => in_number_t n
  | USR_syslogTime t => syslogTime_ok t
  end.

(** A property name is a C string without the delimiter. *)
Definition name_ok (pszPropName : list uchar) : bool :=
  no_char 0 pszPropName && no_char c_colon pszPropName.

(** The three type tags that have a case in [objDeserializeProperty] are
    distinct (they are labels of one [switch]) and are [number_t] values. *)
Definition vartypes_ok : bool :=
  in_number_t VARTYPE_STR && in_number_t VARTYPE_NUMBER &&
  in_number_t VARTYPE_SYSLOGTIME &&
  negb (VARTYPE_STR =? VARTYPE_NUMBER) && negb (VARTYPE_STR =? VARTYPE_SYSLOGTIME) &&
  negb (VARTYPE_NUMBER =? VARTYPE_SYSLOGTIME).

Lemma SerializeProp_switch_ok propType u s :
  type_matches propType u = true -> usr_ok u = true ->
  SerializeProp_switch propType u s =
  OK (value_bytes u, Z.of_nat (length (value_bytes u)), vType_of u) s.
Proof.
  intros Hm Hu.
  destruct propType, u; try discriminate Hm; cbn [SerializeProp_switch value_bytes vType_of].
  - cbn [usr_ok] in Hu. apply andb_true_iff in Hu as [Hn _].
    rewrite strlen_no_NUL by assumption. reflexivity.
  - unfold srUtilItoA, bind, ret. rewrite strlen_no_NUL by apply no_NUL_itoa. reflexivity.
  - unfold srUtilItoA, bind, ret. rewrite strlen_no_NUL by apply no_NUL_itoa. reflexivity.
  - unfold srUtilItoA, bind, ret. rewrite strlen_no_NUL by apply no_NUL_itoa. reflexivity.
  - unfold srUtilItoA, bind, ret. rewrite strlen_no_NUL by apply no_NUL_itoa. reflexivity.
  - reflexivity.
  - cbn [usr_ok] in Hu. unfold syslogTime_ok in Hu.
    apply andb_true_iff in Hu as [_ Hlen]. apply Z.leb_le in Hlen.
    destruct (_ >? _) eqn:E; [lia | reflexivity].
Qed.

Lemma SerializeProp_ok pszPropName propType u :
  type_matches propType u = true -> usr_ok u = true ->
  emits (SerializeProp pszPropName propType (Some u)) (prop_bytes pszPropName u).
Proof.
  intros Hm Hu. apply SerializeProp_emits.
  intros s. apply SerializeProp_switch_ok; assumption.
Qed.

Lemma wrap_int_id a : - 2 ^ 31 <= a < 2 ^ 31 -> wrap_int a = a.
Proof.
  intros H. unfold wrap_int, wrap. change (32 - 1) with 31.
  rewrite Z.mod_small; lia.
Qed.

Lemma str_ok_len s :
  str_ok s = true ->
  s <> [] /\ wrap_int (wrap_number (Z.of_nat (length s))) = Z.of_nat (length s).
Proof.
  unfold str_ok. rewrite andb_true_iff, !Z.ltb_lt. intros [H0 H1]. split.
  - destruct s; [simpl in H0; lia | discriminate].
  - rewrite wrap_number_id, wrap_int_id; lia.
Qed.

Lemma syslogTime_ok_wrapped t :
  syslogTime_ok t = true -> syslogTime_wrapped t = t.
Proof.
  unfold syslogTime_ok. rewrite !andb_true_iff.
  intros [[[[[[[[[[[H1 H2] H3] H4] H5] H6] H7] H8] H9] H10] H11] _].
  destruct t. unfold syslogTime_wrapped. cbn in *.
  rewrite !in_number_t_wrap by assumption. reflexivity.
Qed.

Lemma vartypes_ok_spec :
  vartypes_ok = true ->
  (in_number_t VARTYPE_STR = true /\ in_number_t VARTYPE_NUMBER = true /\
   in_number_t VARTYPE_SYSLOGTIME = true) /\
  (VARTYPE_NUMBER =? VARTYPE_STR) = false /\
  (VARTYPE_SYSLOGTIME =? VARTYPE_STR) = false /\
  (VARTYPE_SYSLOGTIME =? VARTYPE_NUMBER) = false.
Proof.
  unfold vartypes_ok. rewrite !andb_true_iff, !negb_true_iff, !Z.eqb_neq.
  intros [[[[[H1 H2] H3] H4] H5] H6]. repeat split; auto.
Qed.

Lemma prop_line_app pszPropName vType lenBuf pszBuf rest :
  prop_line pszPropName vType lenBuf pszBuf ++ rest =
  COOKIE_PROPLINE :: take (Z.to_nat (strlen pszPropName)) pszPropName ++
  c_colon :: itoa vType ++ c_colon :: itoa lenBuf ++
  c_colon :: take (Z.to_nat lenBuf) pszBuf ++ c_colon :: c_NL :: rest.
Proof.
  unfold prop_line. simpl.
  repeat (rewrite <- ?app_assoc; simpl; f_equal).
Qed.

(** The line [SerializeProp] writes for a valid property is read back by
    [objDeserializeProperty] as that property, and nothing after the line is
    touched. *)
Lemma objDeserializeProperty_prop_bytes pszPropName u pProp rest :
  vartypes_ok = true -> name_ok pszPropName = true -> usr_ok u = true ->
  objDeserializeProperty pProp (prop_bytes pszPropName u ++ rest) =
  OK (mk_var pszPropName (vType_of u) (val_of u)) rest.
Proof.
  intros Hv Hn Hu.
  apply vartypes_ok_spec in Hv as ((Hs & Hnum & Ht) & Hns & Hts & Htn).
  unfold name_ok in Hn. apply andb_true_iff in Hn as [Hn0 Hnc].
  unfold prop_bytes. rewrite prop_line_app, take_strlen by assumption.
  rewrite Nat2Z.id, firstn_all.
  unfold objDeserializeProperty.
  unfold bind at 1. cbn [strmReadChar].
  rewrite Z.eqb_refl. cbn [negb].
  erewrite bind_OK by (apply name_chars_app; assumption). cbn [app].
  assert (Hvt : in_number_t (vType_of u) = true) by (destruct u; assumption).
  erewrite bind_OK by (apply objDeserializeNumber_itoa_id;
    unfold in_number_t in Hvt; apply andb_true_iff in Hvt as [? ?]; lia).
  erewrite bind_OK by apply objDeserializeNumber_itoa.
  destruct u as [s|n|n|n|n|s|t]; cbn [vType_of value_bytes val_of usr_ok] in *.
  - rewrite Z.eqb_refl. apply andb_true_iff in Hu as [_ Hu].
    apply str_ok_len in Hu as [Hne ->].
    erewrite bind_OK.
    2:{ erewrite bind_OK by (apply objDeserializeStr_app; assumption). reflexivity. }
    erewrite bind_OK by apply expect_OK. reflexivity.
  - rewrite Hns, Z.eqb_refl. erewrite bind_OK.
    2:{ erewrite bind_OK by apply objDeserializeNumber_itoa. reflexivity. }
    erewrite bind_OK by apply expect_OK. rewrite in_number_t_wrap by assumption.
    reflexivity.
  - rewrite Hns, Z.eqb_refl. erewrite bind_OK.
    2:{ erewrite bind_OK by apply objDeserializeNumber_itoa. reflexivity. }
    erewrite bind_OK by apply expect_OK. rewrite in_number_t_wrap by assumption.
    reflexivity.
  - rewrite Hns, Z.eqb_refl. erewrite bind_OK.
    2:{ erewrite bind_OK by apply objDeserializeNumber_itoa. reflexivity. }
    erewrite bind_OK by apply expect_OK. rewrite in_number_t_wrap by assumption.
    reflexivity.
  - rewrite Hns, Z.eqb_refl. erewrite bind_OK.
    2:{ erewrite bind_OK by apply objDeserializeNumber_itoa. reflexivity. }
    erewrite bind_OK by apply expect_OK. rewrite in_number_t_wrap by assumption.
    reflexivity.
  - rewrite Z.eqb_refl.
    apply str_ok_len in Hu as [Hne ->].
    erewrite bind_OK.
    2:{ erewrite bind_OK by (apply objDeserializeStr_app; assumption). reflexivity. }
    erewrite bind_OK by apply expect_OK. reflexivity.
  - rewrite Hts, Htn, Z.eqb_refl. erewrite bind_OK.
    2:{ erewrite bind_OK by apply objDeserializeSyslogTime_fmt. reflexivity. }
    erewrite bind_OK by apply expect_OK. rewrite syslogTime_ok_wrapped by assumption.
    reflexivity.
Qed.

(** ** A whole record read back *)

Definition header_bytes (pObj : obj_t) (pszRecType : list uchar) : list uchar :=
  COOKIE_OBJLINE :: take 3 pszRecType ++ c_colon :: c_1 :: c_colon ::
  itoa (objGetObjID pObj) ++ c_colon :: itoa (objGetVersion pObj) ++ c_colon ::
  take (Z.to_nat (strlen (objGetClassName pObj))) (objGetClassName pObj) ++
  [c_colon; c_NL].

Definition trailer_bytes : list uchar :=
  COOKIE_ENDLINE :: bytes_of "End" ++ [c_NL; COOKIE_BLANKLINE; c_NL].

Fixpoint props_bytes (props : list prop_t) : list uchar :=
  match props with
  | [] => []
  | p :: props' =>
      match prop_usr p with
      | None => props_bytes props'
      | Some u => prop_bytes (prop_name p) u ++ props_bytes props'
      end
  end.

(** The properties [objDeserializeProperty] is to hand to the property
    setter: one for each property that has a value. *)
Fixpoint vars_of (props : list prop_t) : list var_t :=
  match props with
  | [] => []
  | p :: props' =>
      match prop_usr p with
      | None => vars_of props'
      | Some u => mk_var (prop_name p) (vType_of u) (val_of u) :: vars_of props'
      end
  end.

(** A valid property: absent, or a name and a value of a type the format has
    (string, integer, timestamp), each within the limits above. *)
Definition prop_ok (p : prop_t) : bool :=
  match prop_usr p with
  | None => true
  | Some u => name_ok (prop_name p) && type_matches (prop_type p) u && usr_ok u
  end.

Definition props_ok (props : list prop_t) : bool := forallb prop_ok props.

Lemma objSerializeHeader_emits pObj pszRecType :
  is_rectype pszRecType = true ->
  emits (objSerializeHeader pObj pszRecType) (header_bytes pObj pszRecType).
Proof.
  intros Ht s. unfold objSerializeHeader. unfold bind at 1.
  rewrite assert_true by assumption.
  revert s. eapply emits_ext; [emits_tac|].
  unfold header_bytes. simpl.
  repeat (rewrite <- ?app_assoc; simpl; f_equal).
Qed.

Lemma EndSerialize_emits : emits EndSerialize trailer_bytes.
Proof.
  eapply emits_ext; [unfold EndSerialize, strmRecordEnd; emits_tac | reflexivity].
Qed.

Lemma SerializeProps_emits props :
  props_ok props = true -> emits (SerializeProps props) (props_bytes props).
Proof.
  induction props as [|p props IH]; intros Hok; cbn [SerializeProps props_bytes].
  - apply emits_ret.
  - cbn [props_ok forallb] in Hok. apply andb_true_iff in Hok as [Hp Hps].
    unfold prop_ok in Hp. destruct (prop_usr p) as [u|].
    + apply andb_true_iff in Hp as [Hp Hu]. apply andb_true_iff in Hp as [Hn Hm].
      apply emits_bind; [apply SerializeProp_ok; assumption | auto].
    + eapply emits_ext; [apply emits_bind; [apply emits_ret | auto]|]. reflexivity.
Qed.

Lemma serialize_emits pObj props :
  props_ok props = true ->
  emits (serialize pObj props)
        (header_bytes pObj (bytes_of "Obj") ++ props_bytes props ++ trailer_bytes).
Proof.
  intros Hok. unfold serialize, BeginSerialize, strmRecordBegin.
  apply emits_bind.
  - eapply emits_ext;
      [apply emits_bind; [apply emits_ret | apply objSerializeHeader_emits]|];
      reflexivity.
  - apply emits_bind; [apply SerializeProps_emits; assumption | apply EndSerialize_emits].
Qed.

Lemma serializePropBag_emits pObj props :
  props_ok props = true ->
  emits (serializePropBag pObj props)
        (header_bytes pObj (bytes_of "OPB") ++ props_bytes props ++ trailer_bytes).
Proof.
  intros Hok. unfold serializePropBag, BeginSerializePropBag, strmRecordBegin.
  apply emits_bind.
  - eapply emits_ext;
      [apply emits_bind; [apply emits_ret | apply objSerializeHeader_emits]|];
      reflexivity.
  - apply emits_bind; [apply SerializeProps_emits; assumption | apply EndSerialize_emits].
Qed.

Lemma no_char_take c n l : no_char c l = true -> no_char c (take n l) = true.
Proof.
  revert n. induction l as [|x l IH]; intros [|n] H; try reflexivity.
  apply no_char_cons in H as [Hx Hl]. cbn [take]. apply no_char_cons. auto.
Qed.

(** The header line [objSerializeHeader] writes is read back by
    [objDeserializeHeader] with the same record type. *)
Lemma objDeserializeHeader_header_bytes pObj pszRecType rest :
  is_rectype pszRecType = true ->
  0 < objGetObjID pObj < OBJ_NUM_IDS ->
  in_number_t (objGetObjID pObj) = true ->
  no_char c_NL (objGetClassName pObj) = true ->
  objDeserializeHeader pszRecType (header_bytes pObj pszRecType ++ rest) =
  OK (objGetObjID pObj, wrap_int (wrap_number (objGetVersion pObj))) rest.
Proof.
  intros Ht Hid Hin Hnl.
  assert (Hskip : forall r,
            skip_line (take (Z.to_nat (strlen (objGetClassName pObj)))
                         (objGetClassName pObj) ++ c_colon :: c_NL :: r) = OK tt r).
  { intros r.
    replace (take (Z.to_nat (strlen (objGetClassName pObj))) (objGetClassName pObj) ++
             c_colon :: c_NL :: r)
      with ((take (Z.to_nat (strlen (objGetClassName pObj))) (objGetClassName pObj) ++
             [c_colon]) ++ c_NL :: r)
      by (rewrite <- app_assoc; reflexivity).
    apply skip_line_app. rewrite no_char_app, no_char_take by assumption. reflexivity. }
  assert (Hrange : (objGetObjID pObj <? 1) || (objGetObjID pObj >=? OBJ_NUM_IDS) = false).
  { apply orb_false_iff. split; [apply Z.ltb_ge; lia|].
    rewrite Z.geb_leb. apply Z.leb_gt. lia. }
  unfold objDeserializeHeader, header_bytes.
  unfold bind at 1. rewrite assert_true by assumption.
  unfold is_rectype in Ht. apply orb_true_iff in Ht.
  destruct Ht as [Ht|Ht]; apply bool_decide_eq_true in Ht; subst pszRecType;
    cbn [bytes_of list_ascii_of_string List.map take app nth];
    do 7 (erewrite bind_OK by apply expect_OK);
    rewrite <- !app_assoc; cbn [app];
    (erewrite bind_OK by
       (apply objDeserializeNumber_itoa_id;
        unfold in_number_t in Hin; apply andb_true_iff in Hin as [? ?]; lia));
    rewrite <- !app_assoc; cbn [app];
    (erewrite bind_OK by apply objDeserializeNumber_itoa);
    rewrite Hrange;
    rewrite <- ?app_assoc; cbn [app];
    (erewrite bind_OK by apply Hskip);
    reflexivity.
Qed.

Lemma objDeserializeProperty_no_propline pProp c s :
  c <> COOKIE_PROPLINE ->
  objDeserializeProperty pProp (c :: s) = Err RS_RET_NO_PROPLINE (c :: s).
Proof.
  intros Hc. unfold objDeserializeProperty. unfold bind at 1. cbn [strmReadChar].
  apply Z.eqb_neq in Hc. rewrite Hc. reflexivity.
Qed.

(** A class whose constructor, property setter and finalizer succeed: the
    constructor yields [o0], the setter stores a property by [setp], the
    finalizer (when the class has one) applies [fin]. *)
Definition class_ok (pInfo : objInfo_t) (o0 : obj_t)
    (setp : obj_t -> var_t -> obj_t) (fin : obj_t -> obj_t) : Prop :=
  (exists f, objMethods pInfo !! objMethod_CONSTRUCT = Some (fn_class f) /\
             f None None = (RS_RET_OK, Some o0)) /\
  (exists f, objMethods pInfo !! objMethod_SETPROPERTY = Some (fn_class f) /\
             forall o v, f (Some o) (Some v) = (RS_RET_OK, Some (setp o v))) /\
  ((objMethods pInfo !! objMethod_CONSTRUCTION_FINALIZER =
      Some objInfoNotImplementedDummy /\ forall o, fin o = o) \/
   (exists f, objMethods pInfo !! objMethod_CONSTRUCTION_FINALIZER = Some (fn_class f) /\
              forall o, f (Some o) None = (RS_RET_OK, Some (fin o)))).

(** A fixup function that succeeds and applies [fix], or none. *)
Definition fixup_ok (fFixup : option (obj_t -> rsRetVal * obj_t))
    (fix_ : obj_t -> obj_t) : Prop :=
  match fFixup with
  | None => forall o, fix_ o = o
  | Some f => forall o, f o = (RS_RET_OK, fix_ o)
  end.

Lemma jump_class_fn sys oID pInfo objMethod f pVar w iRet o :
  info_at sys oID = Some pInfo ->
  objMethods pInfo !! objMethod = Some (fn_class f) ->
  f (pObj w) pVar = (iRet, o) ->
  jump sys oID objMethod pVar w =
  match iRet with
  | RS_RET_OK => OK tt (mk_world (pStrm w) o (calls w ++ [EvMethod oID objMethod]))
  | _ => Err iRet (mk_world (pStrm w) o (calls w ++ [EvMethod oID objMethod]))
  end.
Proof.
  intros Hi Hs Hf. unfold jump. rewrite Hi, Hs, Hf. destruct iRet; reflexivity.
Qed.

(** The property loop on the lines of a valid property list, followed by a
    character that starts no property line. *)
Lemma properties_loop_props_bytes sys oID pInfo f setp props :
  vartypes_ok = true ->
  props_ok props = true ->
  info_at sys oID = Some pInfo ->
  objMethods pInfo !! objMethod_SETPROPERTY = Some (fn_class f) ->
  (forall o v, f (Some o) (Some v) = (RS_RET_OK, Some (setp o v))) ->
  forall pVar o cs c rest,
    c <> COOKIE_PROPLINE ->
    properties_loop sys oID pVar
      (mk_world (props_bytes props ++ c :: rest) (Some o) cs) =
    OK RS_RET_NO_PROPLINE
      (mk_world (c :: rest) (Some (fold_left setp (vars_of props) o))
         (cs ++ List.map (fun _ => EvMethod oID objMethod_SETPROPERTY) (vars_of props))).
Proof.
  intros Hv Hok Hi Hs Hf.
  induction props as [|p props IH]; intros pVar o cs c rest Hc.
  - cbn [props_bytes vars_of app fold_left List.map]. rewrite app_nil_r.
    rewrite properties_loop_eq. cbn [pStrm pObj calls].
    rewrite objDeserializeProperty_no_propline by assumption. reflexivity.
  - cbn [props_ok forallb] in Hok. apply andb_true_iff in Hok as [Hp Hps].
    cbn [props_bytes vars_of]. unfold prop_ok in Hp.
    destruct (prop_usr p) as [u|]; [|apply IH; assumption].
    apply andb_true_iff in Hp as [Hp Hu]. apply andb_true_iff in Hp as [Hn Hm].
    rewrite properties_loop_eq. cbn [pStrm pObj calls].
    rewrite <- app_assoc.
    rewrite objDeserializeProperty_prop_bytes by assumption.
    erewrite jump_class_fn by (try eassumption; cbn [pObj]; apply Hf).
    cbn [pStrm calls]. rewrite IH by assumption.
    cbn [fold_left List.map]. rewrite <- app_assoc. reflexivity.
Qed.

(** [objDeserializeProperties] on the property lines and the trailer. *)
Lemma objDeserializeProperties_record sys oID pInfo f setp props rest o cs :
  vartypes_ok = true ->
  props_ok props = true ->
  0 < oID < OBJ_NUM_IDS ->
  info_at sys oID = Some pInfo ->
  objMethods pInfo !! objMethod_SETPROPERTY = Some (fn_class f) ->
  (forall o v, f (Some o) (Some v) = (RS_RET_OK, Some (setp o v))) ->
  objDeserializeProperties sys oID
    (mk_world (props_bytes props ++ trailer_bytes ++ rest) (Some o) cs) =
  OK tt (mk_world rest (Some (fold_left setp (vars_of props) o))
           (cs ++ List.map (fun _ => EvMethod oID objMethod_SETPROPERTY) (vars_of props))).
Proof.
  intros Hv Hok Hid Hi Hs Hf. unfold objDeserializeProperties.
  unfold bind at 1. cbn [ISOBJ_assert pObj].
  unfold bind at 1. rewrite assert_true by (apply Deserialize_range_ok; exact Hid).
  unfold trailer_bytes. cbn [app].
  erewrite bind_OK.
  2:{ erewrite (properties_loop_props_bytes sys oID pInfo f setp props) by
        (try eassumption; discriminate).
      reflexivity. }
  cbn [rsRetVal_eqb negb]. unfold on_strm. cbn [pStrm pObj calls].
  rewrite <- app_assoc. cbn [app].
  rewrite objDeserializeTrailer_OK. reflexivity.
Qed.

(** C6: for every instance and every valid property list, the record
    [serialize] writes is read back by [Deserialize] with the instance's class
    id: the call returns [RS_RET_OK], has consumed exactly the record, and the
    instance it yields is the constructed one with exactly the properties of
    the list set on it, in order, by the property setter (then the fixup and
    the finalizer).  Valid ([props_ok]) is what the format can carry: a
    property has no value (it is left out) or is of a string, integer or
    timestamp type; a name holds no [:] and no NUL; a string is not empty (the
    decoder's precondition, see C9); an integer of either sign is a
    [number_t]; the rendering of a timestamp fits [szBuf].  The class id is
    one the registry can hold, the class name holds no newline, and the
    functions of the class succeed. *)
Theorem serialize_Deserialize_roundtrip sys pInfo o0 setp fin fFixup fix_
    (inst : obj_t) props rest cs :
  vartypes_ok = true ->
  0 < objGetObjID inst < OBJ_NUM_IDS ->
  in_number_t (objGetObjID inst) = true ->
  no_char c_NL (objGetClassName inst) = true ->
  props_ok props = true ->
  info_at sys (objGetObjID inst) = Some pInfo ->
  class_ok pInfo o0 setp fin ->
  fixup_ok fFixup fix_ ->
  exists record evs,
    emits (serialize inst props) record /\
    Deserialize sys (objGetObjID inst) fFixup (mk_world (record ++ rest) None cs) =
    OK tt (mk_world rest
             (Some (fin (fix_ (fold_left setp (vars_of props) o0))))
             (cs ++ evs)).
Proof.
  intros Hv Hid Hin Hnl Hok Hi ((fc & Hcs & Hc) & (fs & Hss & Hs) & Hfin) Hfix.
  set (E := objGetObjID inst) in *.
  assert (Hfx : exists evs1, forall o cs',
      (match fFixup with Some f => call_fFixup f | None => ret tt end)
        (mk_world rest (Some o) cs') =
      OK tt (mk_world rest (Some (fix_ o)) (cs' ++ evs1))).
  { unfold fixup_ok in Hfix. destruct fFixup as [f|].
    - exists [EvFixup]. intros o cs'. unfold call_fFixup. cbn [pObj].
      rewrite Hfix. reflexivity.
    - exists []. intros o cs'. unfold ret. rewrite Hfix, app_nil_r. reflexivity. }
  destruct Hfx as [evs1 Hfx].
  assert (Hfn : exists evs2, forall o cs',
      (bImpl <- objInfoIsImplemented_at sys E objMethod_CONSTRUCTION_FINALIZER ;;
       if bImpl : bool then jump sys E objMethod_CONSTRUCTION_FINALIZER None
       else ret tt) (mk_world rest (Some o) cs') =
      OK tt (mk_world rest (Some (fin o)) (cs' ++ evs2))).
  { unfold objInfoIsImplemented_at, bind. rewrite Hi. unfold objInfoIsImplemented.
    destruct Hfin as [[Hfs Hf]|(ff & Hfs & Hf)]; rewrite Hfs.
    - exists []. intros o cs'. unfold ret. rewrite Hf, app_nil_r. reflexivity.
    - exists [EvMethod E objMethod_CONSTRUCTION_FINALIZER]. intros o cs'.
      erewrite jump_class_fn by (try eassumption; cbn [pObj]; apply Hf).
      reflexivity. }
  destruct Hfn as [evs2 Hfn].
  exists (header_bytes inst (bytes_of "Obj") ++ props_bytes props ++ trailer_bytes).
  exists ([EvMethod E objMethod_CONSTRUCT] ++
          List.map (fun _ => EvMethod E objMethod_SETPROPERTY) (vars_of props) ++
          evs1 ++ evs2).
  split; [apply serialize_emits; assumption|].
  unfold Deserialize.
  unfold bind at 1. rewrite assert_true by (apply Deserialize_range_ok; exact Hid).
  unfold bind at 1. unfold on_strm. cbn [pStrm pObj calls].
  rewrite header_do_while_eq. rewrite <- app_assoc.
  rewrite objDeserializeHeader_header_bytes by (assumption || reflexivity).
  cbn [fst]. fold E. rewrite Z.eqb_refl. cbn [negb].
  erewrite bind_OK.
  2:{ erewrite jump_class_fn by (try eassumption; cbn [pObj]; apply Hc). reflexivity. }
  erewrite bind_OK.
  2:{ rewrite <- app_assoc.
      eapply objDeserializeProperties_record; eassumption. }
  erewrite bind_OK by apply Hfx.
  rewrite Hfn. cbn [Deserialize_finalize_it calls].
  rewrite <- !app_assoc. reflexivity.
Qed.

(** ** The empty string *)

(** C9: for an empty C string [SerializeProp] writes a property line of the
    string type with the declared length 0; [objDeserializeStr] asserts
    [iLen > 0], so reading that line back ends in the failed assertion: an
    empty string property does not make the round trip through a decoder that
    checks its precondition. *)
Theorem empty_string_fails_decoder_assertion pszPropName pProp rest :
  vartypes_ok = true ->
  name_ok pszPropName = true ->
  emits (SerializeProp pszPropName PROPTYPE_PSZ (Some (USR_sz [])))
        (prop_line pszPropName VARTYPE_STR 0 []) /\
  (forall s, objDeserializeStr 0 s = Crash assert_failed) /\
  objDeserializeProperty pProp (prop_line pszPropName VARTYPE_STR 0 [] ++ rest) =
    Crash assert_failed.
Proof.
  intros Hv Hn. split; [|split].
  - apply SerializeProp_emits. intros s. reflexivity.
  - intros s. reflexivity.
  - apply vartypes_ok_spec in Hv as ((Hs & _ & _) & _).
    unfold name_ok in Hn. apply andb_true_iff in Hn as [Hn0 Hnc].
    rewrite prop_line_app, take_strlen by assumption.
    unfold objDeserializeProperty.
    unfold bind at 1. cbn [strmReadChar]. rewrite Z.eqb_refl. cbn [negb].
    erewrite bind_OK by (apply name_chars_app; assumption). cbn [app].
    erewrite bind_OK by (apply objDeserializeNumber_itoa_id;
      unfold in_number_t in Hs; apply andb_true_iff in Hs as [? ?]; lia).
    erewrite bind_OK by (apply objDeserializeNumber_itoa_id; lia).
    rewrite Z.eqb_refl. reflexivity.
Qed.

(** ** Streams without a record boundary *)

(** A newline immediately followed by the start-cookie occurs in the
    stream. *)
Fixpoint has_boundary (s : strm_t) : bool :=
  match s with
  | [] => false
  | c :: rest =>
      ((c =? c_NL) && match rest with
                      | c' :: _ => c' =? COOKIE_OBJLINE
                      | [] => false
                      end)
      || has_boundary rest
  end.

Lemma has_boundary_suffix s' s :
  s' `suffix_of` s -> has_boundary s = false -> has_boundary s' = false.
Proof.
  intros [k ->]. induction k as [|x k IH]; [auto|].
  cbn [app has_boundary]. intros H. apply orb_false_iff in H as [_ H]. auto.
Qed.

Lemma recover_scan_no_boundary s : forall b,
  has_boundary s = false ->
  (b = true -> match s with c :: _ => c <> COOKIE_OBJLINE | [] => True end) ->
  recover_scan b s = Err RS_RET_EOF [].
Proof.
  induction s as [|c s IH]; intros b Hnb Hb; [reflexivity|].
  cbn [has_boundary] in Hnb. apply orb_false_iff in Hnb as [Hhd Hnb].
  cbn [recover_scan]. destruct (c =? c_NL) eqn:Ec.
  - apply IH; [assumption|]. intros _. destruct s as [|c' s]; [exact I|].
    cbn [andb] in Hhd. apply Z.eqb_neq. exact Hhd.
  - destruct b.
    + specialize (Hb eq_refl). apply Z.eqb_neq in Hb. rewrite Hb. cbn [andb].
      apply IH; [assumption | discriminate].
    + cbn [andb]. apply IH; [assumption | discriminate].
Qed.

Lemma objDeserializeTryRecover_no_boundary s :
  has_boundary s = false -> objDeserializeTryRecover s = Err RS_RET_EOF [].
Proof.
  intros H. unfold objDeserializeTryRecover, bind.
  rewrite recover_scan_no_boundary; [reflexivity | assumption | discriminate].
Qed.

(** Without [abort()] in it, the loop gives up with [RS_RET_EOF] on a stream
    whose header does not parse and that has no record boundary. *)
Lemma header_do_while_no_boundary pszRecType s iRetLocal s1 :
  has_boundary s = false ->
  objDeserializeHeader pszRecType s = Err iRetLocal s1 ->
  header_do_while false pszRecType s = Err RS_RET_EOF [].
Proof.
  intros Hnb Hh. rewrite header_do_while_false_eq, Hh.
  pose proof (consumes_objDeserializeHeader pszRecType s) as Hc. rewrite Hh in Hc.
  rewrite objDeserializeTryRecover_no_boundary; [reflexivity|].
  eapply has_boundary_suffix; eassumption.
Qed.

(** C4: on a stream that has no newline immediately followed by the
    start-cookie and whose header does not parse, the recovery scanner reports
    the end of the stream and the property-bag entry points return
    [RS_RET_EOF]; [Deserialize] does not: it calls [abort()] before the
    scanner. *)
Theorem Deserialize_no_boundary_aborts sys E fFixup w iRetLocal s1 :
  0 < E < OBJ_NUM_IDS ->
  has_boundary (pStrm w) = false ->
  objDeserializeHeader (bytes_of "Obj") (pStrm w) = Err iRetLocal s1 ->
  objDeserializeTryRecover s1 = Err RS_RET_EOF [] /\
  (is_Some (pObj w) ->
   objDeserializeObjAsPropBag sys w = Err RS_RET_EOF (mk_world [] (pObj w) (calls w))) /\
  Deserialize sys E fFixup w = Crash abort_called.
Proof.
  intros HE Hnb Hh. split; [|split].
  - apply objDeserializeTryRecover_no_boundary.
    pose proof (consumes_objDeserializeHeader (bytes_of "Obj") (pStrm w)) as Hc.
    rewrite Hh in Hc. eapply has_boundary_suffix; eassumption.
  - intros [o Ho]. unfold objDeserializeObjAsPropBag.
    unfold bind at 1. unfold ISOBJ_assert. rewrite Ho.
    unfold bind at 1. unfold on_strm.
    erewrite header_do_while_no_boundary by eassumption. rewrite Ho. reflexivity.
  - unfold Deserialize.
    unfold bind at 1. rewrite assert_true by (apply Deserialize_range_ok; exact HE).
    unfold bind at 1. unfold on_strm. cbn [pStrm].
    rewrite header_do_while_eq, Hh. reflexivity.
Qed.

(** ** Property bags *)

(** The deserializer of a property bag in the words of the spec (section
    4.4), to compare the two entry points of [obj.c] with: "when Header fails,
    the reader ... scans forward ... pushes the cookie back, and retries
    Header; this repeats until a header parses or the stream reports
    exhaustion", then "readProperties: loop calling PropertyLine; for each
    successful property, dispatch it into the target's property-setter
    capability slot; stop on the no-property-line outcome or propagate any
    other failure; then validate Trailer".  [fuel] bounds the retries and the
    lines by the length of the stream. *)
Fixpoint spec_header_with_recovery (fuel : nat) (kind : list uchar) (s : strm_t)
  : res strm_t (Z * Z) :=
  match fuel with
  | O => Err RS_RET_EOF s
  | S fuel' =>
      match objDeserializeHeader kind s with
      | OK r s' => OK r s'
      | Err _ s1 =>
          match objDeserializeTryRecover s1 with
          | OK _ s2 => spec_header_with_recovery fuel' kind s2
          | Err iRet s2 => Err iRet s2
          | Crash k => Crash k
          end
      | Crash k => Crash k
      end
  end.

Fixpoint spec_readProperties (fuel : nat) (sys : objsys) (classId : Z)
    (pVar : var_t) (w : world) : res world unit :=
  match fuel with
  | O => Err RS_RET_EOF w
  | S fuel' =>
      match objDeserializeProperty pVar (pStrm w) with
      | OK v s' =>
          match jump sys classId objMethod_SETPROPERTY (Some v)
                  (mk_world s' (pObj w) (calls w)) with
          | OK _ w' => spec_readProperties fuel' sys classId v w'
          | Err iRet w' => Err iRet w'
          | Crash k => Crash k
          end
      | Err RS_RET_NO_PROPLINE s' =>
          on_strm objDeserializeTrailer (mk_world s' (pObj w) (calls w))
      | Err iRet s' => Err iRet (mk_world s' (pObj w) (calls w))
      | Crash k => Crash k
      end
  end.

(** The sequence applied to an existing instance, for a record of the given
    kind tag. *)
Definition spec_propbag_sequence (kind : list uchar) (sys : objsys) (w : world)
  : res world unit :=
  match pObj w with
  | None => Crash assert_failed
  | Some o =>
      match spec_header_with_recovery (S (length (pStrm w))) kind (pStrm w) with
      | OK r s1 =>
          if fst r =? objGetObjID o then
            spec_readProperties (S (length s1)) sys (fst r) (mk_var [] 0 VAL_none)
              (mk_world s1 (pObj w) (calls w))
          else Err RS_RET_INVALID_OID (mk_world s1 (pObj w) (calls w))
      | Err iRet s1 => Err iRet (mk_world s1 (pObj w) (calls w))
      | Crash k => Crash k
      end
  end.

(** What the spec says of both entry points: the kind tag is "OPB". *)
Definition spec_deserializePropertyBag : objsys -> world -> res world unit :=
  spec_propbag_sequence (bytes_of "OPB").

Lemma bind_OK_inv {S A B} (m : M S A) (k : A -> M S B) s b s' :
  bind m k s = OK b s' -> exists a s1, m s = OK a s1 /\ k a s1 = OK b s'.
Proof.
  unfold bind. destruct (m s) as [a s1| |]; try discriminate. eauto.
Qed.

(** A header that parses carries a class id of the registry's range. *)
Lemma objDeserializeHeader_OK_range pszRecType s oID oVers s' :
  objDeserializeHeader pszRecType s = OK (oID, oVers) s' -> 0 < oID < OBJ_NUM_IDS.
Proof.
  unfold objDeserializeHeader. intros H.
  do 10 (apply bind_OK_inv in H as (? & ? & _ & H)).
  destruct (_ || _) eqn:E; [discriminate|].
  apply orb_false_iff in E as [E1 E2].
  apply Z.ltb_ge in E1. rewrite Z.geb_leb in E2. apply Z.leb_gt in E2.
  apply bind_OK_inv in H as (? & ? & _ & H). injection H as <- _ _. lia.
Qed.

Lemma spec_header_with_recovery_eq fuel : forall kind s,
  (length s < fuel)%nat ->
  spec_header_with_recovery fuel kind s = header_do_while false kind s.
Proof.
  induction fuel as [|fuel IH]; intros kind s Hlen; [lia|].
  cbn [spec_header_with_recovery]. rewrite header_do_while_false_eq.
  pose proof (consumes_objDeserializeHeader kind s) as Hc.
  destruct (objDeserializeHeader kind s) as [r s'|e s1|k]; try reflexivity.
  apply suffix_length in Hc.
  destruct (objDeserializeTryRecover s1) as [u s2|e2 s2|k] eqn:Hr; try reflexivity.
  apply objDeserializeTryRecover_shrinks in Hr. apply IH. lia.
Qed.

Lemma header_do_while_OK_range bAbort pszRecType s oID oVers s' :
  header_do_while bAbort pszRecType s = OK (oID, oVers) s' -> 0 < oID < OBJ_NUM_IDS.
Proof.
  remember (S (length s)) as n eqn:Hn.
  assert (Hlen : (length s < n)%nat) by lia. clear Hn.
  revert s Hlen. induction n as [|n IH]; intros s Hlen; [lia|].
  destruct bAbort.
  { rewrite header_do_while_eq.
    destruct (objDeserializeHeader pszRecType s) as [r s1|e s1|k] eqn:Hh;
      try discriminate.
    intros [= -> ->]. eapply objDeserializeHeader_OK_range; eassumption. }
  rewrite header_do_while_false_eq.
  pose proof (consumes_objDeserializeHeader pszRecType s) as Hc.
  destruct (objDeserializeHeader pszRecType s) as [r s1|e s1|k] eqn:Hh; try discriminate.
  - intros [= -> ->]. eapply objDeserializeHeader_OK_range; eassumption.
  - apply suffix_length in Hc.
    destruct (objDeserializeTryRecover s1) as [u s2|e2 s2|k] eqn:Hr; try discriminate.
    apply objDeserializeTryRecover_shrinks in Hr. apply IH. lia.
Qed.

Lemma spec_readProperties_eq fuel : forall sys oID pVar w,
  (length (pStrm w) < fuel)%nat ->
  spec_readProperties fuel sys oID pVar w =
  (iRet <- properties_loop sys oID pVar ;;
   if negb (rsRetVal_eqb iRet RS_RET_NO_PROPLINE) then ABORT_FINALIZE iRet
   else on_strm objDeserializeTrailer) w.
Proof.
  induction fuel as [|fuel IH]; intros sys oID pVar w Hlen; [lia|].
  cbn [spec_readProperties]. unfold bind. rewrite properties_loop_eq.
  destruct (objDeserializeProperty pVar (pStrm w)) as [v s'|e s'|k] eqn:Hp.
  - apply objDeserializeProperty_shrinks in Hp.
    destruct (jump sys oID objMethod_SETPROPERTY (Some v) _) as [u w'|e w'|k] eqn:Hj;
      try reflexivity.
    apply jump_pStrm in Hj. cbn [pStrm] in Hj.
    rewrite IH by (rewrite Hj; lia). reflexivity.
  - destruct e; reflexivity.
  - reflexivity.
Qed.

(** Every call an operation made is a call of the property setter. *)
Definition only_setter_calls {A} (w : world) (r : res world A) : Prop :=
  match r with
  | OK _ w' | Err _ w' =>
      exists evs, calls w' = calls w ++ evs /\
                  Forall (fun e => exists oID, e = EvMethod oID objMethod_SETPROPERTY) evs
  | Crash _ => True
  end.

Lemma only_setter_calls_same {A} (w w' : world) (r : res world A) :
  calls w' = calls w -> only_setter_calls w' r -> only_setter_calls w r.
Proof. intros H. unfold only_setter_calls. rewrite H. auto. Qed.

Lemma only_setter_calls_nil_OK {A} (w w' : world) (a : A) :
  calls w' = calls w -> only_setter_calls w (OK a w').
Proof. intros H. exists []. rewrite app_nil_r. auto. Qed.

Lemma only_setter_calls_nil_Err {A} (w w' : world) iRet :
  calls w' = calls w -> only_setter_calls w (@Err world A iRet w').
Proof. intros H. exists []. rewrite app_nil_r. auto. Qed.

Lemma only_setter_calls_on_strm {A} (m : M strm_t A) w :
  only_setter_calls w (on_strm m w).
Proof.
  unfold on_strm. destruct (m (pStrm w)); simpl; auto;
    exists []; rewrite app_nil_r; auto.
Qed.

Lemma jump_calls sys oID m pVar w :
  match jump sys oID m pVar w with
  | OK _ w' | Err _ w' => calls w' = calls w ++ [EvMethod oID m]
  | Crash _ => True
  end.
Proof.
  unfold jump. destruct (info_at sys oID) as [pInfo|]; [|exact I].
  destruct (objMethods pInfo !! m) as [[| |f]|]; try exact I; [reflexivity|].
  destruct (f (pObj w) pVar) as [[] o]; reflexivity.
Qed.

Lemma only_setter_calls_properties_loop sys oID n : forall pVar w,
  (length (pStrm w) < n)%nat ->
  only_setter_calls w (properties_loop sys oID pVar w).
Proof.
  induction n as [|n IH]; intros pVar w Hlen; [lia|].
  rewrite properties_loop_eq.
  destruct (objDeserializeProperty pVar (pStrm w)) as [v s'|e s'|k] eqn:Hp;
    [|apply only_setter_calls_nil_OK; reflexivity | exact I].
  apply objDeserializeProperty_shrinks in Hp.
  pose proof (jump_calls sys oID objMethod_SETPROPERTY (Some v)
                (mk_world s' (pObj w) (calls w))) as Hc.
  destruct (jump sys oID objMethod_SETPROPERTY (Some v) _) as [u w'|e w'|k] eqn:Hj;
    [| |exact I].
  - apply jump_pStrm in Hj. cbn [pStrm calls] in *.
    specialize (IH v w' ltac:(rewrite Hj; lia)).
    destruct (properties_loop sys oID v w') as [a w2|e w2|k]; [| |exact I];
      destruct IH as (evs & Hevs & Hall);
      exists (EvMethod oID objMethod_SETPROPERTY :: evs);
      (split; [rewrite Hevs, Hc, <- app_assoc; reflexivity
              | constructor; [eexists; reflexivity | assumption]]).
  - cbn [calls] in Hc. exists [EvMethod oID objMethod_SETPROPERTY].
    split; [assumption | constructor; [eexists; reflexivity | constructor]].
Qed.

Lemma only_setter_calls_objDeserializeProperties sys oID w :
  only_setter_calls w (objDeserializeProperties sys oID w).
Proof.
  unfold objDeserializeProperties.
  unfold bind at 1. unfold ISOBJ_assert. destruct (pObj w); [|exact I].
  unfold bind at 1. unfold assert. destruct (_ && _); [|exact I].
  unfold bind.
  pose proof (only_setter_calls_properties_loop sys oID (S (length (pStrm w)))
                (mk_var [] 0 VAL_none) w ltac:(lia)) as Hl.
  destruct (properties_loop sys oID _ w) as [iRet w1|e w1|k]; [|exact Hl|exact I].
  destruct Hl as (evs & Hevs & Hall).
  destruct (negb _).
  - exists evs. auto.
  - pose proof (only_setter_calls_on_strm objDeserializeTrailer w1) as Ht.
    destruct (on_strm objDeserializeTrailer w1) as [u w2|e w2|k]; [| |exact I];
      destruct Ht as (evs2 & Hevs2 & Hall2);
      exists (evs ++ evs2);
      (split; [rewrite Hevs2, Hevs, app_assoc; reflexivity
              | apply Forall_app; auto]).
Qed.

Lemma propbag_sequence_eq kind sys w :
  (ISOBJ_assert ;;;
   r <- on_strm (header_do_while false kind) ;;
   check_oID_of_pObj (fst r) ;;;
   objDeserializeProperties sys (fst r)) w =
  spec_propbag_sequence kind sys w.
Proof.
  unfold spec_propbag_sequence.
  unfold bind at 1. unfold ISOBJ_assert.
  destruct (pObj w) as [o|] eqn:Ho; [|reflexivity].
  rewrite spec_header_with_recovery_eq by lia.
  unfold bind at 1. unfold on_strm. rewrite ?Ho.
  destruct (header_do_while false kind (pStrm w)) as [[oID oVers] s1|e s1|k] eqn:Hh;
    try reflexivity.
  apply header_do_while_OK_range in Hh. cbn [fst].
  unfold bind at 1. unfold check_oID_of_pObj. cbn [pObj].
  destruct (oID =? objGetObjID o); cbn [negb]; [|reflexivity].
  rewrite spec_readProperties_eq by (cbn [pStrm]; lia).
  unfold objDeserializeProperties.
  unfold bind at 1. unfold ISOBJ_assert. cbn [pObj].
  unfold bind at 1. rewrite assert_true by (apply Deserialize_range_ok; exact Hh).
  reflexivity.
Qed.

Lemma only_setter_calls_propbag kind sys w :
  only_setter_calls w
    ((ISOBJ_assert ;;;
      r <- on_strm (header_do_while false kind) ;;
      check_oID_of_pObj (fst r) ;;;
      objDeserializeProperties sys (fst r)) w).
Proof.
  unfold bind at 1. unfold ISOBJ_assert. destruct (pObj w) as [o|] eqn:Ho; [|exact I].
  unfold bind at 1. unfold on_strm. rewrite ?Ho.
  destruct (header_do_while false kind (pStrm w)) as [[oID oVers] s1|e s1|k];
    [|apply only_setter_calls_nil_Err; reflexivity|exact I].
  cbn [fst]. unfold bind at 1. unfold check_oID_of_pObj. cbn [pObj].
  destruct (negb _); [apply only_setter_calls_nil_Err; reflexivity|].
  eapply only_setter_calls_same;
    [|apply only_setter_calls_objDeserializeProperties]. reflexivity.
Qed.

(** The sequence reads back, into an existing instance of the same class, a
    record with the kind tag it expects: what [serializePropBag] writes for
    "OPB", what [serialize] writes for "Obj". *)
Lemma propbag_sequence_roundtrip kind sys pInfo f setp (inst o : obj_t) props rest cs :
  vartypes_ok = true ->
  is_rectype kind = true ->
  0 < objGetObjID inst < OBJ_NUM_IDS ->
  in_number_t (objGetObjID inst) = true ->
  no_char c_NL (objGetClassName inst) = true ->
  objGetObjID o = objGetObjID inst ->
  props_ok props = true ->
  info_at sys (objGetObjID inst) = Some pInfo ->
  objMethods pInfo !! objMethod_SETPROPERTY = Some (fn_class f) ->
  (forall o v, f (Some o) (Some v) = (RS_RET_OK, Some (setp o v))) ->
  spec_propbag_sequence kind sys
    (mk_world ((header_bytes inst kind ++ props_bytes props ++ trailer_bytes) ++ rest)
       (Some o) cs) =
  OK tt (mk_world rest (Some (fold_left setp (vars_of props) o))
           (cs ++ List.map (fun _ => EvMethod (objGetObjID inst) objMethod_SETPROPERTY)
                    (vars_of props))).
Proof.
  intros Hv Hk Hid Hin Hnl Ho Hok Hi Hs Hf.
  rewrite <- propbag_sequence_eq.
  unfold bind at 1. cbn [ISOBJ_assert pObj].
  unfold bind at 1. unfold on_strm. cbn [pStrm pObj calls].
  rewrite header_do_while_false_eq. rewrite <- app_assoc.
  rewrite objDeserializeHeader_header_bytes by assumption.
  cbn [fst]. unfold bind at 1. unfold check_oID_of_pObj. cbn [pObj].
  rewrite Ho, Z.eqb_refl. cbn [negb]. rewrite <- app_assoc.
  eapply objDeserializeProperties_record; eassumption.
Qed.

(** C2 (as amended): [DeserializePropBag] parses the header with the kind tag
    "OPB", [objDeserializeObjAsPropBag] with the kind tag "Obj"; after that
    both are the sequence of the spec (recovery while the header fails, the
    property loop, the trailer check) on the caller's instance, and whatever
    either returns, the only calls it made through the jump table are calls of
    the property setter: no construction, no fixup, no finalizer. *)
Theorem propbag_entry_points sys w :
  DeserializePropBag sys w = spec_propbag_sequence (bytes_of "OPB") sys w /\
  objDeserializeObjAsPropBag sys w = spec_propbag_sequence (bytes_of "Obj") sys w /\
  only_setter_calls w (DeserializePropBag sys w) /\
  only_setter_calls w (objDeserializeObjAsPropBag sys w).
Proof.
  repeat split.
  - apply propbag_sequence_eq.
  - apply propbag_sequence_eq.
  - apply only_setter_calls_propbag.
  - apply only_setter_calls_propbag.
Qed.

(** ** The class information over the life of the process *)

(** The state of the object system, with the slots [InfoSetMethod] was called
    on (the slots "explicitly set"). *)
Record objstate : Type := mk_objstate {
  st_sys : objsys;
  st_set : gset (loc * nat)
}.

(** [objClassInit]: every element of [arrObjInfo] is [NULL]; no class
    information exists yet. *)
Definition objstate_init : objstate := mk_objstate (mk_objsys ∅ ∅) ∅.

(** One successful operation of the registry or on a class information
    object.  (An operation that returns an error code has stored nothing; one
    that fails an assertion ends the process.) *)
Inductive obj_step : objstate -> objstate -> Prop :=
| step_InfoConstruct st p objID pszName iObjVers pConstruct pDestruct pInfo :
    infos (st_sys st) !! p = None ->
    InfoConstruct true objID pszName iObjVers pConstruct pDestruct tt = OK pInfo tt ->
    obj_step st
      (mk_objstate
         (mk_objsys (<[p := pInfo]> (infos (st_sys st))) (arrObjInfo (st_sys st)))
         (st_set st))
| step_InfoSetMethod st p pThis objMethod pHandler pThis' :
    infos (st_sys st) !! p = Some pThis ->
    InfoSetMethod objMethod pHandler pThis = OK tt pThis' ->
    obj_step st
      (mk_objstate
         (mk_objsys (<[p := pThis']> (infos (st_sys st))) (arrObjInfo (st_sys st)))
         ({[ (p, objMethod) ]} ∪ st_set st))
| step_RegisterObj st oID p arr' :
    RegisterObj oID p (arrObjInfo (st_sys st)) = OK tt arr' ->
    obj_step st
      (mk_objstate (mk_objsys (infos (st_sys st)) arr') (st_set st)).

(** Every slot from 2 on that was not explicitly set holds the dummy. *)
Definition unset_slots_hold_dummy (st : objstate) : Prop :=
  forall p pInfo m,
    infos (st_sys st) !! p = Some pInfo ->
    (2 <= m < OBJ_NUM_METHODS)%nat ->
    (p, m) ∉ st_set st ->
    objMethods pInfo !! m = Some objInfoNotImplementedDummy.

Lemma fill_dummy_length n : forall i tbl, length (fill_dummy i n tbl) = length tbl.
Proof.
  induction n as [|n IH]; intros i tbl; cbn [fill_dummy]; [reflexivity|].
  rewrite IH. apply length_insert.
Qed.

Lemma fill_dummy_lookup_lt n : forall i tbl m,
  (m < i)%nat -> fill_dummy i n tbl !! m = tbl !! m.
Proof.
  induction n as [|n IH]; intros i tbl m Hm; cbn [fill_dummy]; [reflexivity|].
  rewrite IH by lia. apply list_lookup_insert_ne. lia.
Qed.

Lemma fill_dummy_lookup n : forall i tbl m,
  (i <= m < i + n)%nat -> (m < length tbl)%nat ->
  fill_dummy i n tbl !! m = Some objInfoNotImplementedDummy.
Proof.
  induction n as [|n IH]; intros i tbl m Hm Hlen; [lia|].
  cbn [fill_dummy]. destruct (decide (m = i)) as [->|Hne].
  - rewrite fill_dummy_lookup_lt by lia. apply list_lookup_insert_eq. lia.
  - apply IH; [lia|]. rewrite length_insert. lia.
Qed.

(** What [InfoConstruct] builds has the dummy in every slot from 2 on. *)
Lemma InfoConstruct_slots {S} b objID pszName iObjVers pConstruct pDestruct
    (s s' : S) pInfo m :
  InfoConstruct b objID pszName iObjVers pConstruct pDestruct s = OK pInfo s' ->
  (2 <= m < OBJ_NUM_METHODS)%nat ->
  objMethods pInfo !! m = Some objInfoNotImplementedDummy.
Proof.
  unfold InfoConstruct, bind, assert, ABORT_FINALIZE, ret.
  intros H Hm.
  destruct pDestruct; try discriminate; destruct b; try discriminate;
    cbn [negb] in H; injection H as <- _; cbn [objMethods];
    (apply fill_dummy_lookup; [lia | rewrite !length_insert, length_replicate; lia]).
Qed.

Lemma obj_step_invariant st st' :
  obj_step st st' -> unset_slots_hold_dummy st -> unset_slots_hold_dummy st'.
Proof.
  intros Hstep Hinv. destruct Hstep as
    [st p objID pszName iObjVers pC pD pInfo Hfresh Hc
    |st p pThis objMethod pHandler pThis' Hp Hs
    |st oID p arr' Hr];
    intros q qInfo m Hq Hslot Hns; cbn [st_sys st_set infos] in *.
  - destruct (decide (q = p)) as [->|Hne].
    + rewrite lookup_insert_eq in Hq. injection Hq as <-.
      eapply InfoConstruct_slots; eassumption.
    + rewrite lookup_insert_ne in Hq by congruence. eapply Hinv; eassumption.
  - destruct (decide (q = p)) as [->|Hne].
    + rewrite lookup_insert_eq in Hq. injection Hq as <-.
      unfold InfoSetMethod, bind, assert in Hs.
      destruct (_ && _); [|discriminate]. injection Hs as <-. cbn [objMethods].
      apply not_elem_of_union in Hns as [Hns1 Hns2].
      apply not_elem_of_singleton in Hns1.
      rewrite list_lookup_insert_ne by congruence.
      eapply Hinv; eassumption.
    + rewrite lookup_insert_ne in Hq by congruence.
      apply not_elem_of_union in Hns as [_ Hns2].
      eapply Hinv; eassumption.
  - eapply Hinv; eassumption.
Qed.

(** C8: in every state the object system reaches from [objClassInit] by
    [InfoConstruct], [InfoSetMethod] and [RegisterObj], every slot other than
    the constructor and the destructor slot that [InfoSetMethod] was never
    called on holds [objInfoNotImplementedDummy], and a call through such a
    slot of a registered class returns [RS_RET_NOT_IMPLEMENTED]. *)
Theorem unset_slots_not_implemented st :
  rtc obj_step objstate_init st ->
  unset_slots_hold_dummy st /\
  forall oID p pInfo m pVar w,
    arrObjInfo (st_sys st) !! oID = Some p ->
    infos (st_sys st) !! p = Some pInfo ->
    (2 <= m < OBJ_NUM_METHODS)%nat ->
    (p, m) ∉ st_set st ->
    jump (st_sys st) oID m pVar w =
    Err RS_RET_NOT_IMPLEMENTED
      (mk_world (pStrm w) (pObj w) (calls w ++ [EvMethod oID m])).
Proof.
  intros Hreach.
  assert (Hinv : unset_slots_hold_dummy st).
  { assert (Hgen : forall a b, rtc obj_step a b ->
                unset_slots_hold_dummy a -> unset_slots_hold_dummy b).
    { induction 1 as [|a b c Hab _ IH]; [auto|].
      intros Ha. apply IH. eapply obj_step_invariant; eassumption. }
    apply (Hgen _ _ Hreach).
    intros p pInfo m Hp. cbn in Hp. rewrite lookup_empty in Hp. discriminate. }
  split; [exact Hinv|].
  intros oID p pInfo m pVar w Harr Hp Hm Hns.
  unfold jump, info_at. rewrite Harr, Hp.
  rewrite (Hinv p pInfo m Hp Hm Hns). reflexivity.
Qed.

(** * Further properties of the code *)

(** ** What the grammar primitives accept *)

(** The characters of a number: an optional [-] and digits; and its value as
    a [number_t]. *)
Definition number_text (bIsNegative : bool) (ds : list uchar) : list uchar :=
  (if bIsNegative then [c_minus] else []) ++ ds.

Definition number_value (bIsNegative : bool) (ds : list uchar) : Z :=
  wrap_number (if bIsNegative then - digits_value 0 ds else digits_value 0 ds).

Lemma number_digits_inv s : forall i c i' t s',
  number_digits i c s = OK (i', t) s' ->
  exists ds, c :: s = ds ++ t :: s' /\ Forall (fun d => isdigit d = true) ds /\
             isdigit t = false /\ i' = digits_wrapped i ds.
Proof.
  induction s as [|c' s IH]; intros i c i' t s'; cbn [number_digits].
  - destruct (isdigit c) eqn:E; [discriminate|]. intros [= <- <- <-].
    exists []. auto.
  - destruct (isdigit c) eqn:E.
    + intros H. apply IH in H as (ds & Heq & Hall & Ht & Hi).
      exists (c :: ds). repeat split; auto. cbn [app]. rewrite Heq. reflexivity.
    + intros [= <- <- <-]. exists []. auto.
Qed.

Lemma wrap_number_idem a : wrap_number (wrap_number a) = wrap_number a.
Proof. apply wrap_number_congr, wrap_number_mod. Qed.

Lemma digits_wrapped_nonempty i d ds :
  digits_wrapped i (d :: ds) = wrap_number (digits_value i (d :: ds)).
Proof.
  assert (Hw : digits_wrapped i (d :: ds) = wrap_number (digits_wrapped i (d :: ds))).
  { destruct ds as [|x ds _] using rev_ind.
    - unfold digits_wrapped. simpl. symmetry. apply wrap_number_idem.
    - rewrite app_comm_cons. unfold digits_wrapped. rewrite fold_left_app. simpl.
      symmetry. apply wrap_number_idem. }
  rewrite Hw. apply wrap_number_congr, digits_wrapped_mod.
Qed.

Lemma number_value_wrapped bIsNegative d ds :
  (if bIsNegative : bool then wrap_number (digits_wrapped 0 (d :: ds) * -1)
   else digits_wrapped 0 (d :: ds)) = number_value bIsNegative (d :: ds).
Proof.
  unfold number_value. rewrite digits_wrapped_nonempty. destruct bIsNegative; [|reflexivity].
  apply wrap_number_congr.
  rewrite Z.mul_mod, wrap_number_mod, <- Z.mul_mod by lia. f_equal. lia.
Qed.

(** Every text of the grammar is accepted ... *)
Lemma objDeserializeNumber_number_text bIsNegative d ds rest :
  Forall (fun c => isdigit c = true) (d :: ds) ->
  objDeserializeNumber (number_text bIsNegative (d :: ds) ++ c_colon :: rest) =
  OK (number_value bIsNegative (d :: ds)) rest.
Proof.
  intros Hall.
  pose proof (Forall_inv Hall) as Hd. pose proof (Forall_inv_tail Hall) as Hds.
  cbn beta in Hd. rewrite <- number_value_wrapped.
  unfold objDeserializeNumber, number_text. destruct bIsNegative; cbn [app].
  - unfold bind at 1. cbn [strmReadChar].
    unfold bind at 1. rewrite Z.eqb_refl. unfold bind at 1. cbn [strmReadChar].
    unfold ret at 1. cbn [fst snd]. rewrite Hd. cbn [negb].
    unfold bind. rewrite number_digits_digits by (auto; reflexivity).
    cbn [fst snd]. rewrite Z.eqb_refl. reflexivity.
  - unfold bind at 1. cbn [strmReadChar].
    unfold bind at 1. rewrite (isdigit_not_minus d Hd).
    unfold ret at 1. cbn [fst snd]. rewrite Hd. cbn [negb].
    unfold bind. rewrite number_digits_digits by (auto; reflexivity).
    cbn [fst snd]. rewrite Z.eqb_refl. reflexivity.
Qed.

(** ... and nothing else is. *)
Lemma objDeserializeNumber_inv s n s' :
  objDeserializeNumber s = OK n s' ->
  exists bIsNegative d ds,
    Forall (fun c => isdigit c = true) (d :: ds) /\
    s = number_text bIsNegative (d :: ds) ++ c_colon :: s' /\
    n = number_value bIsNegative (d :: ds).
Proof.
  assert (Hrest : forall (b : bool) c r,
    (if negb (isdigit c) then ABORT_FINALIZE RS_RET_INVALID_NUMBER else
     ic <- number_digits 0 c ;;
     if negb (snd ic =? c_colon) then ABORT_FINALIZE RS_RET_INVALID_DELIMITER else
     ret (if b then wrap_number (fst ic * -1) else fst ic)) r = OK n s' ->
    exists d ds, Forall (fun c => isdigit c = true) (d :: ds) /\
                 c :: r = (d :: ds) ++ c_colon :: s' /\
                 n = number_value b (d :: ds)).
  { intros b c r. destruct (isdigit c) eqn:Ec; cbn [negb]; [|discriminate].
    unfold bind. destruct (number_digits 0 c r) as [[i t] r'| |] eqn:Hn; try discriminate.
    cbn [fst snd]. destruct (t =? c_colon) eqn:Et; cbn [negb]; [|discriminate].
    intros [= <- <-]. apply Z.eqb_eq in Et. subst t.
    apply number_digits_inv in Hn as (ds & Heq & Hall & _ & ->).
    destruct ds as [|d ds].
    - cbn [app] in Heq. injection Heq as -> _. discriminate Ec.
    - exists d, ds. split; [assumption|]. split; [assumption|].
      apply number_value_wrapped. }
  unfold objDeserializeNumber. unfold bind at 1.
  destruct s as [|c s]; cbn [strmReadChar]; [discriminate|].
  unfold bind at 1. destruct (c =? c_minus) eqn:Em.
  - apply Z.eqb_eq in Em. subst c. unfold bind at 1.
    destruct s as [|c' s]; cbn [strmReadChar]; [discriminate|].
    unfold ret at 1. cbn [fst snd]. intros H.
    apply (Hrest true c' s) in H as (d & ds & Hall & Heq & Hn).
    exists true, d, ds. split; [assumption|]. split; [|assumption].
    unfold number_text. cbn [app] in *. rewrite Heq. reflexivity.
  - unfold ret at 1. cbn [fst snd]. intros H.
    apply (Hrest false c s) in H as (d & ds & Hall & Heq & Hn).
    exists false, d, ds. split; [assumption|]. split; [|assumption].
    unfold number_text. cbn [app] in *. exact Heq.
Qed.

(** X1: [objDeserializeNumber] accepts exactly an optional [-], one or more
    digits and a [:]; it consumes these characters and nothing after them, and
    the number it returns is the decimal value of the digits, negated after a
    [-], reduced to a [number_t]: a digit string of any length is accepted,
    there is no overflow error. *)
Theorem objDeserializeNumber_accepts s n s' :
  objDeserializeNumber s = OK n s' <->
  exists bIsNegative d ds,
    Forall (fun c => isdigit c = true) (d :: ds) /\
    s = number_text bIsNegative (d :: ds) ++ c_colon :: s' /\
    n = number_value bIsNegative (d :: ds).
Proof.
  split.
  - apply objDeserializeNumber_inv.
  - intros (b & d & ds & Hall & -> & ->).
    apply objDeserializeNumber_number_text. assumption.
Qed.

Lemma assert_OK_inv {S} (b : bool) (s : S) u s' :
  assert b s = OK u s' -> b = true /\ s' = s.
Proof. unfold assert. destruct b; [|discriminate]. intros [= <-]. auto. Qed.

(** ** The parsers with the return codes of the string class

    [objDeserializeStr] and [objDeserializeProperty] build their strings
    through [rsCStrConstruct], [rsCStrAppendChar] and [rsCStrFinish]
    ([stringbuf.c], not part of src/), each call under [CHKiRet].  What such a
    call returns depends on the heap and not on the stream: it is a
    parameter of the parser.  [objDeserializeStr] above is the case in which
    every call returns [RS_RET_OK]. *)
Record cstr_rets : Set := mk_cstr_rets {
  rsCStrConstruct_ret : rsRetVal;
  rsCStrAppendChar_ret : nat -> rsRetVal;  (* of the call in iteration i, from 0 *)
  rsCStrFinish_ret : rsRetVal
}.

(** [CHKiRet(f(...))] for a call that returned [iRet]. *)
Definition CHKiRet_of {S} (iRet : rsRetVal) : M S unit :=
  fun s => match iRet with RS_RET_OK => OK tt s | _ => Err iRet s end.

(** The loop [for(i = 0 ; i < iLen ; ++i) { CHKiRet(rsCStrAppendChar(pCStr, c));
    NEXTC; }] of [objDeserializeStr], at iteration [i] with [n] iterations
    left. *)
Fixpoint str_chars_mem (mem : cstr_rets) (i n : nat) (pCStr : list uchar) (c : uchar)
  : M strm_t (list uchar * uchar) :=
  match n with
  | O => ret (pCStr, c)
  | S n' =>
      CHKiRet_of (rsCStrAppendChar_ret mem i) ;;;
      c' <- strmReadChar ;;
      str_chars_mem mem (S i) n' (pCStr ++ [c]) c'
  end.

(* de-serialize a string, length must be provided *)
Definition objDeserializeStr_mem (mem : cstr_rets) (iLen : Z) : M strm_t (list uchar) :=
  assert (0 <? iLen) ;;;
  CHKiRet_of (rsCStrConstruct_ret mem) ;;;
  c <- strmReadChar ;;
  sc <- str_chars_mem mem 0 (Z.to_nat iLen) [] c ;;
  CHKiRet_of (rsCStrFinish_ret mem) ;;;
  (* check terminator *)
  if negb (snd sc =? c_colon) then ABORT_FINALIZE RS_RET_INVALID_DELIMITER else
  ret (fst sc).

Lemma CHKiRet_of_OK_inv {S} iRet (s : S) u s' :
  CHKiRet_of iRet s = OK u s' -> iRet = RS_RET_OK /\ s' = s.
Proof. unfold CHKiRet_of. destruct iRet; try discriminate. intros [= <-]. auto. Qed.

Lemma str_chars_mem_OK mem n : forall i acc c s,
  (forall j, (i <= j < i + n)%nat -> rsCStrAppendChar_ret mem j = RS_RET_OK) ->
  str_chars_mem mem i n acc c s = str_chars n acc c s.
Proof.
  induction n as [|n IH]; intros i acc c s Hok; cbn [str_chars_mem str_chars];
    [reflexivity|].
  unfold bind at 1. rewrite (Hok i) by lia. cbn [CHKiRet_of].
  unfold bind. destruct (strmReadChar s) as [c' s1| |]; try reflexivity.
  apply IH. intros j Hj. apply Hok. lia.
Qed.

(** With every call of the string class returning [RS_RET_OK] the parser is
    [objDeserializeStr]. *)
Lemma objDeserializeStr_mem_OK mem iLen s :
  rsCStrConstruct_ret mem = RS_RET_OK ->
  (forall j, (j < Z.to_nat iLen)%nat -> rsCStrAppendChar_ret mem j = RS_RET_OK) ->
  rsCStrFinish_ret mem = RS_RET_OK ->
  objDeserializeStr_mem mem iLen s = objDeserializeStr iLen s.
Proof.
  intros Hc Ha Hf. unfold objDeserializeStr_mem, objDeserializeStr.
  unfold bind at 1 6. destruct (assert (0 <? iLen) s) as [u s0| |]; try reflexivity.
  unfold bind at 1. rewrite Hc. cbn [CHKiRet_of].
  unfold bind at 1 4. destruct (strmReadChar s0) as [c s1| |]; try reflexivity.
  unfold bind at 1 3. rewrite str_chars_mem_OK by (intros j Hj; apply Ha; lia).
  destruct (str_chars (Z.to_nat iLen) [] c s1) as [sc s2| |]; try reflexivity.
  unfold bind. rewrite Hf. reflexivity.
Qed.

Lemma str_chars_mem_inv mem n : forall i acc c s l t s',
  str_chars_mem mem i n acc c s = OK (l, t) s' ->
  (forall j, (i <= j < i + n)%nat -> rsCStrAppendChar_ret mem j = RS_RET_OK) /\
  exists xs, length xs = n /\ c :: s = xs ++ t :: s' /\ l = acc ++ xs.
Proof.
  induction n as [|n IH]; intros i acc c s l t s'; cbn [str_chars_mem].
  - intros [= <- <- <-]. split; [intros j Hj; lia|].
    exists []. rewrite app_nil_r. auto.
  - intros H. apply bind_OK_inv in H as (? & s0 & [Hi ->]%CHKiRet_of_OK_inv & H).
    unfold bind in H. destruct s as [|c' s]; cbn [strmReadChar] in H; [discriminate|].
    apply IH in H as (Hok & xs & Hlen & Heq & ->). split.
    + intros j Hj. destruct (decide (j = i)) as [->|Hne]; [exact Hi | apply Hok; lia].
    + exists (c :: xs). cbn [length app]. rewrite Heq, <- app_assoc. auto.
Qed.

(** X2: what [objDeserializeStr] accepts.  In a build with assertions a call
    with a length [iLen <= 0] fails [assert(iLen > 0)]; nothing else guards
    the length.  For [iLen > 0] the call returns [RS_RET_OK] exactly when the
    calls of the string class it makes ([rsCStrConstruct], [rsCStrAppendChar]
    in each of the [iLen] iterations, [rsCStrFinish]) return [RS_RET_OK] and
    the stream holds [iLen] characters of any kind (also [:] and newlines)
    followed by a [:]; it then returns these characters and leaves what
    follows the [:]. *)
Theorem objDeserializeStr_accepts mem iLen s l s' :
  (iLen <= 0 -> objDeserializeStr_mem mem iLen s = Crash assert_failed) /\
  (objDeserializeStr_mem mem iLen s = OK l s' <->
   0 < iLen /\
   rsCStrConstruct_ret mem = RS_RET_OK /\
   (forall j, (j < Z.to_nat iLen)%nat -> rsCStrAppendChar_ret mem j = RS_RET_OK) /\
   rsCStrFinish_ret mem = RS_RET_OK /\
   Z.of_nat (length l) = iLen /\ s = l ++ c_colon :: s').
Proof.
  split.
  { intros Hle. unfold objDeserializeStr_mem. unfold bind at 1. unfold assert.
    apply Z.ltb_ge in Hle. rewrite Hle. reflexivity. }
  split.
  - unfold objDeserializeStr_mem. intros H.
    apply bind_OK_inv in H as (? & s0 & [E ->]%assert_OK_inv & H).
    apply Z.ltb_lt in E.
    apply bind_OK_inv in H as (? & s1 & [Hc ->]%CHKiRet_of_OK_inv & H).
    apply bind_OK_inv in H as (c & s2 & Hr & H).
    destruct s as [|c0 s]; cbn [strmReadChar] in Hr; [discriminate|].
    injection Hr as <- <-.
    apply bind_OK_inv in H as ([l0 t] & s3 & Hs & H).
    apply bind_OK_inv in H as (? & s4 & [Hf ->]%CHKiRet_of_OK_inv & H).
    cbn [fst snd] in H. destruct (t =? c_colon) eqn:Et; cbn [negb] in H; [|discriminate].
    injection H as <- <-. apply Z.eqb_eq in Et. subst t.
    apply str_chars_mem_inv in Hs as (Hok & xs & Hlen & Heq & ->). cbn [app].
    split; [assumption|]. split; [assumption|].
    split; [intros j Hj; apply Hok; lia|]. split; [assumption|].
    split; [rewrite Hlen; lia | assumption].
  - intros (Hpos & Hc & Ha & Hf & Hlen & ->).
    rewrite objDeserializeStr_mem_OK by assumption. rewrite <- Hlen.
    apply objDeserializeStr_app. destruct l; [simpl in Hlen; lia | discriminate].
Qed.

Lemma expect_OK_inv e iRet s u s' : expect e iRet s = OK u s' -> s = e :: s'.
Proof.
  unfold expect, bind. destruct s as [|c s]; cbn [strmReadChar]; [discriminate|].
  destruct (c =? e) eqn:E; cbn [negb]; [|discriminate].
  intros [= _ <-]. apply Z.eqb_eq in E. congruence.
Qed.

(** X3: [objDeserializeTrailer] accepts exactly the seven characters
    [>End\n.\n] and leaves what follows them. *)
Theorem objDeserializeTrailer_accepts s s' :
  objDeserializeTrailer s = OK tt s' <-> s = trailer_bytes ++ s'.
Proof.
  split.
  - unfold objDeserializeTrailer. intros H.
    do 6 (apply bind_OK_inv in H as (? & ? & ->%expect_OK_inv & H)).
    apply expect_OK_inv in H as ->. reflexivity.
  - intros ->. apply objDeserializeTrailer_OK.
Qed.

(** ** The return codes of the grammar primitives *)

(** [fails_with l m]: a return code of [m] other than [RS_RET_OK] is one of
    [l]. *)
Definition fails_with {A} (l : list rsRetVal) (m : M strm_t A) : Prop :=
  forall s iRet s', m s = Err iRet s' -> List.In iRet l.

Lemma fails_with_ret {A} l (a : A) : fails_with l (ret a).
Proof. intros s e s'. discriminate. Qed.

Lemma fails_with_ABORT_FINALIZE {A} l iRet :
  List.In iRet l -> fails_with l (@ABORT_FINALIZE strm_t A iRet).
Proof. intros Hin s e s' [= <- _]. exact Hin. Qed.

Lemma fails_with_assert l b : fails_with l (@assert strm_t b).
Proof. intros s e s'. unfold assert. destruct b; discriminate. Qed.

Lemma fails_with_bind {A B} l (m : M strm_t A) (k : A -> M strm_t B) :
  fails_with l m -> (forall a, fails_with l (k a)) -> fails_with l (bind m k).
Proof.
  intros Hm Hk s e s'. unfold bind.
  destruct (m s) as [a s1|e1 s1|] eqn:E; [apply Hk | | discriminate].
  intros [= <- _]. eapply Hm. eassumption.
Qed.

Lemma fails_with_if {A} l (b : bool) (m1 m2 : M strm_t A) :
  fails_with l m1 -> fails_with l m2 -> fails_with l (if b then m1 else m2).
Proof. destruct b; auto. Qed.

Lemma fails_with_strmReadChar l : List.In RS_RET_EOF l -> fails_with l strmReadChar.
Proof. intros Hin [|c s] e s'; cbn [strmReadChar]; [|discriminate]. intros [= <- _]. exact Hin. Qed.

Lemma fails_with_strmUnreadChar l c : fails_with l (strmUnreadChar c).
Proof. intros s e s'. discriminate. Qed.

Lemma fails_with_number_digits l i c :
  List.In RS_RET_EOF l -> fails_with l (number_digits i c).
Proof.
  intros Hin s. revert i c. induction s as [|c' s IH]; intros i c e s'; cbn [number_digits].
  - destruct (isdigit c); [|discriminate]. intros [= <- _]. exact Hin.
  - destruct (isdigit c); [apply IH | discriminate].
Qed.

Lemma fails_with_str_chars l n :
  List.In RS_RET_EOF l -> forall acc c, fails_with l (str_chars n acc c).
Proof.
  intros Hin. induction n as [|n IH]; intros acc c; cbn [str_chars].
  - apply fails_with_ret.
  - apply fails_with_bind; [apply fails_with_strmReadChar; exact Hin | intros; apply IH].
Qed.

Lemma fails_with_skip_line l : List.In RS_RET_EOF l -> fails_with l skip_line.
Proof.
  intros Hin s. induction s as [|c s IH]; intros e s'; cbn [skip_line].
  - intros [= <- _]. exact Hin.
  - destruct (c =? c_NL); [discriminate | apply IH].
Qed.

Lemma fails_with_name_chars l acc : List.In RS_RET_EOF l -> fails_with l (name_chars acc).
Proof.
  intros Hin s. revert acc. induction s as [|c s IH]; intros acc e s'; cbn [name_chars].
  - intros [= <- _]. exact Hin.
  - destruct (c =? c_colon); [discriminate | apply IH].
Qed.

Lemma recover_scan_Err b s iRet s' :
  recover_scan b s = Err iRet s' -> iRet = RS_RET_EOF /\ s' = [].
Proof.
  revert b. induction s as [|c s IH]; intros b; cbn [recover_scan].
  - intros [= <- <-]. auto.
  - destruct (c =? c_NL); [apply IH|].
    destruct (b && (c =? COOKIE_OBJLINE)); [discriminate | apply IH].
Qed.

Lemma fails_with_recover_scan l b : List.In RS_RET_EOF l -> fails_with l (recover_scan b).
Proof. intros Hin s e s' [-> _]%recover_scan_Err. exact Hin. Qed.

Ltac in_codes := cbn [List.In]; tauto.

Ltac fails_tac :=
  repeat first
    [ apply fails_with_ABORT_FINALIZE; in_codes
    | apply fails_with_strmReadChar; in_codes
    | apply fails_with_number_digits; in_codes
    | apply fails_with_str_chars; in_codes
    | apply fails_with_skip_line; in_codes
    | apply fails_with_name_chars; in_codes
    | apply fails_with_recover_scan; in_codes
    | apply fails_with_ret
    | apply fails_with_assert
    | apply fails_with_strmUnreadChar
    | apply fails_with_if
    | apply fails_with_bind; [|intros] ].

Lemma fails_with_weaken {A} l l' (m : M strm_t A) :
  fails_with l m -> (forall e, List.In e l -> List.In e l') -> fails_with l' m.
Proof. intros H Hl s e s' Hm. eapply Hl, H, Hm. Qed.

Lemma fails_with_expect l e iRet :
  List.In RS_RET_EOF l -> List.In iRet l -> fails_with l (expect e iRet).
Proof.
  intros H1 H2. unfold expect.
  apply fails_with_bind; [apply fails_with_strmReadChar; exact H1 | intros c].
  apply fails_with_if; [apply fails_with_ABORT_FINALIZE; exact H2 | apply fails_with_ret].
Qed.

Lemma fails_with_objDeserializeNumber l :
  List.In RS_RET_EOF l -> List.In RS_RET_INVALID_NUMBER l ->
  List.In RS_RET_INVALID_DELIMITER l -> fails_with l objDeserializeNumber.
Proof.
  intros H1 H2 H3.
  apply (fails_with_weaken [RS_RET_EOF; RS_RET_INVALID_NUMBER; RS_RET_INVALID_DELIMITER]).
  - unfold objDeserializeNumber. fails_tac.
  - intros e [<-|[<-|[<-|[]]]]; assumption.
Qed.

Lemma fails_with_objDeserializeStr l iLen :
  List.In RS_RET_EOF l -> List.In RS_RET_INVALID_DELIMITER l ->
  fails_with l (objDeserializeStr iLen).
Proof.
  intros H1 H2.
  apply (fails_with_weaken [RS_RET_EOF; RS_RET_INVALID_DELIMITER]).
  - unfold objDeserializeStr. fails_tac.
  - intros e [<-|[<-|[]]]; assumption.
Qed.

Lemma fails_with_objDeserializeSyslogTime l :
  List.In RS_RET_EOF l -> List.In RS_RET_INVALID_NUMBER l ->
  List.In RS_RET_INVALID_DELIMITER l -> fails_with l objDeserializeSyslogTime.
Proof.
  intros H1 H2 H3. unfold objDeserializeSyslogTime.
  repeat first
    [ apply fails_with_objDeserializeNumber; assumption
    | apply fails_with_strmReadChar; assumption
    | apply fails_with_ABORT_FINALIZE; assumption
    | apply fails_with_ret
    | apply fails_with_if
    | apply fails_with_bind; [|intros] ].
Qed.

(** What is left of [objDeserializeProperty] once the cookie is read. *)
Lemma fails_with_property_line pProp :
  fails_with [RS_RET_EOF; RS_RET_INVALID_NUMBER; RS_RET_INVALID_DELIMITER;
              RS_RET_INVALID_PROPFRAME]
    (name <- name_chars [] ;;
     i <- objDeserializeNumber ;;
     iLen <- objDeserializeNumber ;;
     v <- (if i =? VARTYPE_STR then
             pStr <- objDeserializeStr (wrap_int iLen) ;; ret (VAL_pStr pStr)
           else if i =? VARTYPE_NUMBER then
             num <- objDeserializeNumber ;; ret (VAL_num num)
           else if i =? VARTYPE_SYSLOGTIME then
             t <- objDeserializeSyslogTime ;; ret (VAL_vSyslogTime t)
           else ret (val pProp)) ;;
     expect c_NL RS_RET_INVALID_PROPFRAME ;;;
     ret (mk_var name i v)).
Proof.
  repeat first
    [ apply fails_with_name_chars; in_codes
    | apply fails_with_expect; in_codes
    | apply fails_with_objDeserializeNumber; in_codes
    | apply fails_with_objDeserializeStr; in_codes
    | apply fails_with_objDeserializeSyslogTime; in_codes
    | apply fails_with_ret
    | apply fails_with_if
    | apply fails_with_bind; [|intros] ].
Qed.

(** The loop [NEXTC; while(c != ':') { CHKiRet(rsCStrAppendChar(pProp->pcsName, c));
    NEXTC; }] of [objDeserializeProperty], at iteration [i]. *)
Fixpoint name_chars_mem (mem : cstr_rets) (i : nat) (pcsName : list uchar)
    (pStrm : strm_t) : res strm_t (list uchar) :=
  match pStrm with
  | [] => Err RS_RET_EOF []
  | c :: rest =>
      if c =? c_colon then OK pcsName rest
      else match rsCStrAppendChar_ret mem i with
           | RS_RET_OK => name_chars_mem mem (S i) (pcsName ++ [c]) rest
           | iRet => Err iRet rest
           end
  end.

(** [objDeserializeProperty] with the return codes of the string class:
    [mem_name] for the calls that build the name, [mem_str] for those of
    [objDeserializeStr].  [pProp->varType = i] stores the number read in a
    field of the enum type [varType_t] ([var.h], not part of src/), which is
    as wide as an [int]: the [switch] sees the number narrowed to 32 bits. *)
Definition objDeserializeProperty_mem (mem_name mem_str : cstr_rets) (pProp : var_t)
  : M strm_t var_t :=
  (* check cookie *)
  c <- strmReadChar ;;
  if negb (c =? COOKIE_PROPLINE) then
    (* oops, we've read one char that does not belong to use - unget it first *)
    strmUnreadChar c ;;;
    ABORT_FINALIZE RS_RET_NO_PROPLINE
  else
  (* get the property name first *)
  CHKiRet_of (rsCStrConstruct_ret mem_name) ;;;
  name <- name_chars_mem mem_name 0 [] ;;
  CHKiRet_of (rsCStrFinish_ret mem_name) ;;;
  (* property type *)
  i <- objDeserializeNumber ;;
  let varType := wrap_int i in
  (* size (needed for strings) *)
  iLen <- objDeserializeNumber ;;
  (* we now need to deserialize the value *)
  v <- (if varType =? VARTYPE_STR then
          pStr <- objDeserializeStr_mem mem_str (wrap_int iLen) ;; ret (VAL_pStr pStr)
        else if varType =? VARTYPE_NUMBER then
          num <- objDeserializeNumber ;; ret (VAL_num num)
        else if varType =? VARTYPE_SYSLOGTIME then
          t <- objDeserializeSyslogTime ;; ret (VAL_vSyslogTime t)
        else ret (val pProp)) ;;
  (* we should now be at the end of the line. So the next char must be \n *)
  expect c_NL RS_RET_INVALID_PROPFRAME ;;;
  ret (mk_var name varType v).












(** X5: [objDeserializeProperty] returns [RS_RET_NO_PROPLINE] exactly when the
    stream is not at its end and its first character is not the property
    cookie, and then it leaves the stream as it found it: the character it
    read is pushed back. *)
Theorem objDeserializeProperty_NO_PROPLINE pProp s s' :
  objDeserializeProperty pProp s = Err RS_RET_NO_PROPLINE s' <->
  s' = s /\ exists c rest, s = c :: rest /\ c <> COOKIE_PROPLINE.
Proof.
  split.
  - unfold objDeserializeProperty. unfold bind at 1.
    destruct s as [|c s]; cbn [strmReadChar]; [discriminate|].
    destruct (c =? COOKIE_PROPLINE) eqn:E; cbn [negb].
    + intros H. apply fails_with_property_line in H.
      cbn [List.In] in H. exfalso. intuition discriminate.
    + unfold bind, strmUnreadChar, ABORT_FINALIZE. intros [= <-].
      split; [reflexivity|]. exists c, s. split; [reflexivity|].
      apply Z.eqb_neq. exact E.
  - intros (-> & c & rest & -> & Hc).
    apply objDeserializeProperty_no_propline. exact Hc.
Qed.

(** ** The recovery scanner *)

Lemma has_boundary_first s :
  has_boundary s = true ->
  exists pre rest,
    s = pre ++ c_NL :: COOKIE_OBJLINE :: rest /\ has_boundary (pre ++ [c_NL]) = false.
Proof.
  induction s as [|c s IH]; [discriminate|].
  cbn [has_boundary]. destruct ((c =? c_NL) && _) eqn:E.
  - intros _. apply andb_true_iff in E as [Ec Es].
    destruct s as [|c' s]; [discriminate|].
    apply Z.eqb_eq in Ec, Es. subst. exists [], s. split; reflexivity.
  - cbn [orb]. intros H. destruct (IH H) as (pre & rest & -> & Hpre).
    exists (c :: pre), rest. split; [reflexivity|].
    cbn [app has_boundary]. rewrite Hpre, orb_false_r.
    destruct pre; cbn [app] in *; exact E.
Qed.

Lemma recover_scan_first pre : forall b rest,
  has_boundary (pre ++ [c_NL]) = false ->
  (b = true -> match pre with c :: _ => c <> COOKIE_OBJLINE | [] => True end) ->
  recover_scan b (pre ++ c_NL :: COOKIE_OBJLINE :: rest) = OK COOKIE_OBJLINE rest.
Proof.
  induction pre as [|c pre IH]; intros b rest Hnb Hb.
  - reflexivity.
  - cbn [app has_boundary] in Hnb. apply orb_false_iff in Hnb as [Hhd Hnb].
    cbn [app recover_scan]. destruct (c =? c_NL) eqn:Ec.
    + apply IH; [assumption|]. intros _. destruct pre as [|c' pre]; [exact I|].
      cbn [app andb] in Hhd. apply Z.eqb_neq. exact Hhd.
    + destruct b.
      * specialize (Hb eq_refl). apply Z.eqb_neq in Hb. rewrite Hb. cbn [andb].
        apply IH; [assumption | discriminate].
      * cbn [andb]. apply IH; [assumption | discriminate].
Qed.

Lemma objDeserializeTryRecover_first pre rest :
  has_boundary (pre ++ [c_NL]) = false ->
  objDeserializeTryRecover (pre ++ c_NL :: COOKIE_OBJLINE :: rest) =
  OK tt (COOKIE_OBJLINE :: rest).
Proof.
  intros H. unfold objDeserializeTryRecover, bind.
  rewrite recover_scan_first; [reflexivity | assumption | discriminate].
Qed.

(** X6: what [objDeserializeTryRecover] returns on any stream.  If a newline
    immediately followed by the start-cookie occurs in the stream, it returns
    [RS_RET_OK] and leaves the stream at the start-cookie of the first such
    place; if none occurs, it returns [RS_RET_EOF] with the stream used up. *)
Theorem objDeserializeTryRecover_result s :
  match objDeserializeTryRecover s with
  | OK _ s' =>
      exists pre rest,
        s = pre ++ c_NL :: s' /\ s' = COOKIE_OBJLINE :: rest /\
        has_boundary (pre ++ [c_NL]) = false
  | Err iRet s' => iRet = RS_RET_EOF /\ s' = [] /\ has_boundary s = false
  | Crash _ => False
  end.
Proof.
  destruct (has_boundary s) eqn:E.
  - destruct (has_boundary_first s E) as (pre & rest & -> & Hpre).
    rewrite objDeserializeTryRecover_first by assumption.
    exists pre, rest. auto.
  - rewrite objDeserializeTryRecover_no_boundary by assumption. auto.
Qed.

(** X7: the header loop of the property-bag readers never hands a header
    error to its caller: if it fails, it fails with [RS_RET_EOF], and the
    stream is used up. *)
Theorem header_do_while_fails_with_EOF pszRecType s iRet s' :
  header_do_while false pszRecType s = Err iRet s' -> iRet = RS_RET_EOF /\ s' = [].
Proof.
  remember (S (length s)) as n eqn:Hn.
  assert (Hlen : (length s < n)%nat) by lia. clear Hn.
  revert s Hlen. induction n as [|n IH]; intros s Hlen; [lia|].
  rewrite header_do_while_false_eq.
  pose proof (consumes_objDeserializeHeader pszRecType s) as Hc.
  destruct (objDeserializeHeader pszRecType s) as [r s1|e s1|k] eqn:Hh; try discriminate.
  apply suffix_length in Hc.
  destruct (objDeserializeTryRecover s1) as [u s2|e2 s2|k] eqn:Hr; try discriminate.
  - apply objDeserializeTryRecover_shrinks in Hr. apply IH. lia.
  - intros [= <- <-]. unfold objDeserializeTryRecover, bind in Hr.
    destruct (recover_scan false s1) as [c r|e3 r|k] eqn:Hscan; try discriminate.
    injection Hr as <- <-. eapply recover_scan_Err. eassumption.
Qed.

(** ** Resynchronisation in the property-bag readers *)

Lemma objDeserializeHeader_bad_cookie pszRecType c s :
  is_rectype pszRecType = true -> c <> COOKIE_OBJLINE ->
  objDeserializeHeader pszRecType (c :: s) = Err RS_RET_INVALID_HEADER s.
Proof.
  intros Hk Hc. unfold objDeserializeHeader.
  unfold bind at 1. rewrite assert_true by assumption.
  unfold bind at 1. unfold expect, bind. cbn [strmReadChar].
  apply Z.eqb_neq in Hc. rewrite Hc. reflexivity.
Qed.



(** X9: the scanner needs the newline before the start-cookie, and the header
    parser has already consumed the character it failed on.  So a record that
    directly follows one stray character (a newline, too) is not found: when
    no later newline is followed by a start-cookie, both readers return
    [RS_RET_EOF] with the stream used up and the instance untouched, whatever
    the record was. *)
Theorem propbag_readers_lose_record_after_stray_char sys c tail o cs :
  c <> COOKIE_OBJLINE ->
  has_boundary (COOKIE_OBJLINE :: tail) = false ->
  DeserializePropBag sys (mk_world (c :: COOKIE_OBJLINE :: tail) (Some o) cs) =
    Err RS_RET_EOF (mk_world [] (Some o) cs) /\
  objDeserializeObjAsPropBag sys (mk_world (c :: COOKIE_OBJLINE :: tail) (Some o) cs) =
    Err RS_RET_EOF (mk_world [] (Some o) cs).
Proof.
  intros Hc Hnb.
  split; unfold DeserializePropBag, objDeserializeObjAsPropBag;
    unfold bind at 1; cbn [ISOBJ_assert pObj];
    unfold bind at 1; unfold on_strm; cbn [pStrm pObj calls];
    rewrite header_do_while_false_eq;
    rewrite objDeserializeHeader_bad_cookie by (assumption || reflexivity);
    rewrite objDeserializeTryRecover_no_boundary by assumption; reflexivity.
Qed.

(** ** What the header parser accepts *)

Lemma skip_line_inv s : forall u s',
  skip_line s = OK u s' ->
  exists junk, s = junk ++ c_NL :: s' /\ no_char c_NL junk = true.
Proof.
  induction s as [|c s IH]; intros u s'; cbn [skip_line]; [discriminate|].
  destruct (c =? c_NL) eqn:E.
  - intros [= _ <-]. apply Z.eqb_eq in E. subst c. exists []. auto.
  - intros H. apply IH in H as (junk & -> & Hj). exists (c :: junk).
    split; [reflexivity|]. apply no_char_cons. split; [|assumption].
    apply Z.eqb_neq. exact E.
Qed.

Lemma is_rectype_chars pszRecType :
  is_rectype pszRecType = true ->
  pszRecType = [nth 0 pszRecType 0; nth 1 pszRecType 0; nth 2 pszRecType 0].
Proof.
  unfold is_rectype. intros H. apply orb_true_iff in H.
  destruct H as [H|H]; apply bool_decide_eq_true in H; subst; reflexivity.
Qed.

(** X10: [objDeserializeHeader] accepts exactly the header lines of the
    grammar: the start-cookie, the record type it was asked for, [:1:], the
    class id and the version as numbers, each with its [:], then any
    characters up to the first newline.  The class id it returns lies in
    [1, OBJ_NUM_IDS), so that the readers index [arrObjInfo] within its
    bounds; the version is returned as an [int]; the stream is left after the
    newline. *)
Theorem objDeserializeHeader_accepts pszRecType s oID oVers s' :
  objDeserializeHeader pszRecType s = OK (oID, oVers) s' <->
  is_rectype pszRecType = true /\
  exists b1 d1 ds1 b2 d2 ds2 junk,
    Forall (fun c => isdigit c = true) (d1 :: ds1) /\
    Forall (fun c => isdigit c = true) (d2 :: ds2) /\
    no_char c_NL junk = true /\
    s = COOKIE_OBJLINE :: pszRecType ++ c_colon :: c_1 :: c_colon ::
        number_text b1 (d1 :: ds1) ++ c_colon ::
        number_text b2 (d2 :: ds2) ++ c_colon :: junk ++ c_NL :: s' /\
    oID = number_value b1 (d1 :: ds1) /\
    0 < oID < OBJ_NUM_IDS /\
    oVers = wrap_int (number_value b2 (d2 :: ds2)).
Proof.
  split.
  - unfold objDeserializeHeader. intros H.
    apply bind_OK_inv in H as (? & s0 & [Hk ->]%assert_OK_inv & H).
    split; [exact Hk|].
    apply bind_OK_inv in H as (? & ? & ->%expect_OK_inv & H).
    apply bind_OK_inv in H as (? & ? & ->%expect_OK_inv & H).
    apply bind_OK_inv in H as (? & ? & ->%expect_OK_inv & H).
    apply bind_OK_inv in H as (? & ? & ->%expect_OK_inv & H).
    apply bind_OK_inv in H as (? & ? & ->%expect_OK_inv & H).
    apply bind_OK_inv in H as (? & ? & ->%expect_OK_inv & H).
    apply bind_OK_inv in H as (? & ? & ->%expect_OK_inv & H).
    apply bind_OK_inv in H as (n1 & ? & Hn1 & H).
    apply objDeserializeNumber_inv in Hn1 as (b1 & d1 & ds1 & Hall1 & -> & ->).
    apply bind_OK_inv in H as (n2 & ? & Hn2 & H).
    apply objDeserializeNumber_inv in Hn2 as (b2 & d2 & ds2 & Hall2 & -> & ->).
    destruct (_ || _) eqn:E; [discriminate|].
    apply orb_false_iff in E as [E1 E2].
    apply Z.ltb_ge in E1. rewrite Z.geb_leb in E2. apply Z.leb_gt in E2.
    apply bind_OK_inv in H as (? & ? & Hs & H).
    apply skip_line_inv in Hs as (junk & -> & Hj).
    injection H as <- <- <-.
    exists b1, d1, ds1, b2, d2, ds2, junk.
    split; [assumption|]. split; [assumption|]. split; [assumption|].
    split; [|split; [reflexivity|split; [lia|reflexivity]]].
    rewrite (is_rectype_chars pszRecType Hk) at 4. reflexivity.
  - intros (Hk & b1 & d1 & ds1 & b2 & d2 & ds2 & junk &
            Hall1 & Hall2 & Hj & -> & -> & Hr & ->).
    unfold objDeserializeHeader.
    unfold bind at 1. rewrite assert_true by assumption.
    assert (E : (number_value b1 (d1 :: ds1) <? 1) ||
                (number_value b1 (d1 :: ds1) >=? OBJ_NUM_IDS) = false).
    { apply orb_false_iff. split; [apply Z.ltb_ge; lia|].
      rewrite Z.geb_leb. apply Z.leb_gt. lia. }
    unfold is_rectype in Hk. apply orb_true_iff in Hk.
    destruct Hk as [Hk|Hk]; apply bool_decide_eq_true in Hk; subst pszRecType;
      cbn [bytes_of list_ascii_of_string List.map app nth];
      do 7 (erewrite bind_OK by apply expect_OK);
      (erewrite bind_OK by (apply objDeserializeNumber_number_text; assumption));
      (erewrite bind_OK by (apply objDeserializeNumber_number_text; assumption));
      rewrite E;
      (erewrite bind_OK by (apply skip_line_app; assumption));
      reflexivity.
Qed.

(** ** Property bags read back *)

(** X11: the round trip of the other two readers.  For every valid property
    list, the record [serializePropBag] writes for an instance is read by
    [DeserializePropBag], and the record [serialize] writes is read by
    [objDeserializeObjAsPropBag], into any existing instance of the same
    class: the call returns [RS_RET_OK], consumes exactly the record, and has
    set exactly the properties of the list, in order, on the instance it was
    given; its only calls are those of the property setter. *)
Theorem propbag_roundtrip sys pInfo f setp (inst o : obj_t) props rest cs :
  vartypes_ok = true ->
  0 < objGetObjID inst < OBJ_NUM_IDS ->
  in_number_t (objGetObjID inst) = true ->
  no_char c_NL (objGetClassName inst) = true ->
  objGetObjID o = objGetObjID inst ->
  props_ok props = true ->
  info_at sys (objGetObjID inst) = Some pInfo ->
  objMethods pInfo !! objMethod_SETPROPERTY = Some (fn_class f) ->
  (forall o v, f (Some o) (Some v) = (RS_RET_OK, Some (setp o v))) ->
  exists bag record,
    emits (serializePropBag inst props) bag /\
    emits (serialize inst props) record /\
    DeserializePropBag sys (mk_world (bag ++ rest) (Some o) cs) =
      OK tt (mk_world rest (Some (fold_left setp (vars_of props) o))
               (cs ++ List.map (fun _ => EvMethod (objGetObjID inst) objMethod_SETPROPERTY)
                        (vars_of props))) /\
    objDeserializeObjAsPropBag sys (mk_world (record ++ rest) (Some o) cs) =
      OK tt (mk_world rest (Some (fold_left setp (vars_of props) o))
               (cs ++ List.map (fun _ => EvMethod (objGetObjID inst) objMethod_SETPROPERTY)
                        (vars_of props))).
Proof.
  intros Hv Hid Hin Hnl Ho Hok Hi Hs Hf.
  exists (header_bytes inst (bytes_of "OPB") ++ props_bytes props ++ trailer_bytes).
  exists (header_bytes inst (bytes_of "Obj") ++ props_bytes props ++ trailer_bytes).
  split; [apply serializePropBag_emits; assumption|].
  split; [apply serialize_emits; assumption|].
  split.
  - etrans; [apply (propbag_sequence_eq (bytes_of "OPB") sys)|].
    eapply propbag_sequence_roundtrip; try eassumption. reflexivity.
  - etrans; [apply (propbag_sequence_eq (bytes_of "Obj") sys)|].
    eapply propbag_sequence_roundtrip; try eassumption. reflexivity.
Qed.

(** ** Lines the serializer writes and the deserializer rejects *)

(** X12: the line [SerializeProp] writes for a property type without a case
    of its own is not read back.  Its type tag [VARTYPE_NONE] has no case in
    [objDeserializeProperty] either, which then reads no value and expects the
    newline where the line has the [:] that ends the (empty) value: the line
    fails with [RS_RET_INVALID_PROPFRAME], and the stream is left at the
    newline of that line. *)
Theorem unknown_type_line_not_read_back pszPropName n u pProp rest :
  in_number_t VARTYPE_NONE = true ->
  VARTYPE_NONE <> VARTYPE_STR -> VARTYPE_NONE <> VARTYPE_NUMBER ->
  VARTYPE_NONE <> VARTYPE_SYSLOGTIME ->
  name_ok pszPropName = true ->
  emits (SerializeProp pszPropName (PROPTYPE_other n) (Some u))
        (prop_line pszPropName VARTYPE_NONE 0 []) /\
  objDeserializeProperty pProp (prop_line pszPropName VARTYPE_NONE 0 [] ++ rest) =
    Err RS_RET_INVALID_PROPFRAME (c_NL :: rest).
Proof.
  intros Hin Hs Hnum Ht Hn. split.
  - apply SerializeProp_emits. intros s. destruct u; reflexivity.
  - unfold name_ok in Hn. apply andb_true_iff in Hn as [Hn0 Hnc].
    rewrite prop_line_app, take_strlen by assumption.
    unfold objDeserializeProperty.
    unfold bind at 1. cbn [strmReadChar]. rewrite Z.eqb_refl. cbn [negb].
    erewrite bind_OK by (apply name_chars_app; assumption). cbn [app].
    erewrite bind_OK by (apply objDeserializeNumber_itoa_id;
      unfold in_number_t in Hin; apply andb_true_iff in Hin as [? ?]; lia).
    erewrite bind_OK by (apply objDeserializeNumber_itoa_id; lia).
    apply Z.eqb_neq in Hs, Hnum, Ht. rewrite Hs, Hnum, Ht.
    reflexivity.
Qed.

(** ** Timestamps and the 64 character buffer *)

Lemma itoa_digits_length fuel : forall n acc k,
  0 <= n < 10 ^ Z.of_nat (S k) ->
  (length (itoa_digits fuel n acc) <= length acc + S k)%nat.
Proof.
  induction fuel as [|fuel IH]; intros n acc k Hn; [cbn [itoa_digits]; lia|].
  rewrite itoa_digits_S. destruct (0 <? n / 10) eqn:E.
  - apply Z.ltb_lt in E. destruct k as [|k].
    + change (10 ^ Z.of_nat 1) with 10 in Hn.
      rewrite Z.div_small in E by lia. lia.
    + assert (Hq : 0 <= n / 10 < 10 ^ Z.of_nat (S k)).
      { split; [lia|]. apply Z.div_lt_upper_bound; [lia|].
        rewrite <- Z.pow_succ_r by lia. rewrite <- Nat2Z.inj_succ. lia. }
      specialize (IH (n / 10) ((c_0 + n mod 10) :: acc) k Hq).
      cbn [length] in IH. lia.
  - cbn [length]. lia.
Qed.

Lemma itoa_length n k :
  0 <= n < 10 ^ Z.of_nat (S k) -> (length (itoa n) <= S k)%nat.
Proof.
  intros Hn. unfold itoa. destruct (n <? 0) eqn:E; [apply Z.ltb_lt in E; lia|].
  unfold itoa_nonneg.
  pose proof (itoa_digits_length (S (Z.to_nat (Z.log2 n))) n [] k Hn) as H.
  cbn [length] in H. lia.
Qed.

(** The fields of a timestamp as a calendar has them: a year of up to four
    digits, a fraction of a second of up to nine, the others of up to two. *)
Definition syslogTime_in_calendar (t : syslogTime_t) : Prop :=
  0 <= timeType t < 100 /\ 0 <= year t < 10000 /\ 0 <= month t < 100 /\
  0 <= day t < 100 /\ 0 <= hour t < 100 /\ 0 <= minute t < 100 /\
  0 <= second t < 100 /\ 0 <= secfrac t < 1000000000 /\
  0 <= secfracPrecision t < 100 /\
  0 <= OffsetHour t < 100 /\ 0 <= OffsetMinute t < 100.

(** X13: [szBuf[64]] is large enough for every timestamp of a calendar: its
    rendering has at most 43 characters, so [SerializeProp] never returns
    [RS_RET_PROVIDED_BUFFER_TOO_SMALL] for it but writes the property line,
    and the timestamp is a value the round trip carries. *)
Theorem calendar_timestamp_fits_szBuf pszPropName t :
  syslogTime_in_calendar t ->
  (length (syslogTime_fmt t) <= 43)%nat /\
  emits (SerializeProp pszPropName PROPTYPE_SYSLOGTIME (Some (USR_syslogTime t)))
        (prop_bytes pszPropName (USR_syslogTime t)) /\
  usr_ok (USR_syslogTime t) = true.
Proof.
  intros (H1 & H2 & H3 & H4 & H5 & H6 & H7 & H8 & H9 & H10 & H11).
  assert (Hlen : (length (syslogTime_fmt t) <= 43)%nat).
  { unfold syslogTime_fmt.
    pose proof (itoa_length (timeType t) 1 ltac:(simpl; lia)).
    pose proof (itoa_length (year t) 3 ltac:(simpl; lia)).
    pose proof (itoa_length (month t) 1 ltac:(simpl; lia)).
    pose proof (itoa_length (day t) 1 ltac:(simpl; lia)).
    pose proof (itoa_length (hour t) 1 ltac:(simpl; lia)).
    pose proof (itoa_length (minute t) 1 ltac:(simpl; lia)).
    pose proof (itoa_length (second t) 1 ltac:(simpl; lia)).
    pose proof (itoa_length (secfrac t) 8 ltac:(simpl; lia)).
    pose proof (itoa_length (secfracPrecision t) 1 ltac:(simpl; lia)).
    pose proof (itoa_length (OffsetHour t) 1 ltac:(simpl; lia)).
    pose proof (itoa_length (OffsetMinute t) 1 ltac:(simpl; lia)).
    repeat (rewrite length_app; cbn [length]). lia. }
  assert (Hok : usr_ok (USR_syslogTime t) = true).
  { cbn [usr_ok]. unfold syslogTime_ok, in_number_t, sizeof_szBuf.
    rewrite !andb_true_iff, !Z.leb_le, !Z.ltb_lt. repeat split; lia. }
  split; [exact Hlen|]. split; [|exact Hok].
  apply SerializeProp_ok; [reflexivity | exact Hok].
Qed.

(** ** Properties without a value *)

Definition has_value (p : prop_t) : bool :=
  match prop_usr p with Some _ => true | None => false end.

Lemma SerializeProps_has_value props s :
  SerializeProps props s = SerializeProps (List.filter has_value props) s.
Proof.
  revert s. induction props as [|p props IH]; intros s; [reflexivity|].
  cbn [SerializeProps List.filter]. unfold has_value at 1.
  destruct (prop_usr p) as [u|] eqn:E.
  - cbn [SerializeProps]. rewrite E. unfold bind.
    destruct (SerializeProp _ _ _ s); auto.
  - unfold bind. cbn [SerializeProp ret]. apply IH.
Qed.

(** X14: a property without a value leaves no trace in a record: for every
    property list, whatever [serialize] and [serializePropBag] do (write the
    record, fail, or read a value through a pointer of the wrong type) is what
    they do for the list without its valueless properties. *)
Theorem valueless_properties_leave_no_trace (inst : obj_t) props s :
  serialize inst props s = serialize inst (List.filter has_value props) s /\
  serializePropBag inst props s =
    serializePropBag inst (List.filter has_value props) s.
Proof.
  split; unfold serialize, serializePropBag, bind;
    (destruct (_ inst s) as [u s1| |]; [|reflexivity|reflexivity]);
    rewrite SerializeProps_has_value; reflexivity.
Qed.

(** ** The class information and the registry *)

Definition is_dummy (h : handler) : bool :=
  match h with objInfoNotImplementedDummy => true | _ => false end.

(** X15: what [InfoConstruct] builds.  With a destructor and memory, it
    returns a class information object with the name, version and id it was
    given and a jump table of [OBJ_NUM_METHODS] slots: the constructor in slot
    0, the destructor in slot 1, [objInfoNotImplementedDummy] in every other
    slot, which [objInfoIsImplemented] therefore reports as not implemented.
    Without memory it returns [RS_RET_OUT_OF_MEMORY]; without a destructor it
    fails its assertion, while a [NULL] constructor is accepted. *)
Theorem InfoConstruct_result {S} id name vers pConstruct pDestruct (s : S) :
  (2 <= OBJ_NUM_METHODS)%nat ->
  pDestruct <> fn_NULL ->
  (exists pInfo,
     InfoConstruct true id name vers pConstruct pDestruct s = OK pInfo s /\
     pszName pInfo = name /\ iObjVers pInfo = vers /\ objID pInfo = id /\
     length (objMethods pInfo) = OBJ_NUM_METHODS /\
     objMethods pInfo !! objMethod_CONSTRUCT = Some pConstruct /\
     objMethods pInfo !! objMethod_DESTRUCT = Some pDestruct /\
     forall m, (2 <= m < OBJ_NUM_METHODS)%nat ->
       objMethods pInfo !! m = Some objInfoNotImplementedDummy /\
       objInfoIsImplemented pInfo m = false) /\
  InfoConstruct false id name vers pConstruct pDestruct s =
    Err RS_RET_OUT_OF_MEMORY s /\
  (forall b, InfoConstruct b id name vers pConstruct fn_NULL s = Crash assert_failed).
Proof.
  intros HN Hd.
  assert (Ha : forall b,
    InfoConstruct b id name vers pConstruct pDestruct s =
    (if negb b then ABORT_FINALIZE RS_RET_OUT_OF_MEMORY else
     ret (mk_objInfo name vers id
            (fill_dummy 2 (OBJ_NUM_METHODS - 2)
               (<[1%nat := pDestruct]>
                  (<[0%nat := pConstruct]> (replicate OBJ_NUM_METHODS fn_NULL)))))) s).
  { intros b. unfold InfoConstruct. unfold bind at 1.
    destruct pDestruct; [congruence | reflexivity | reflexivity]. }
  split; [|split; [rewrite Ha; reflexivity | reflexivity]].
  eexists. split; [rewrite Ha; reflexivity|].
  cbn [pszName iObjVers objID objMethods].
  split; [reflexivity|]. split; [reflexivity|]. split; [reflexivity|].
  split; [rewrite fill_dummy_length, !length_insert, length_replicate; reflexivity|].
  split.
  { unfold objMethod_CONSTRUCT. rewrite fill_dummy_lookup_lt by lia.
    rewrite list_lookup_insert_ne by lia. apply list_lookup_insert_eq.
    rewrite length_replicate. lia. }
  split.
  { unfold objMethod_DESTRUCT. rewrite fill_dummy_lookup_lt by lia.
    apply list_lookup_insert_eq. rewrite length_insert, length_replicate. lia. }
  intros m Hm.
  assert (Hl : fill_dummy 2 (OBJ_NUM_METHODS - 2)
                 (<[1%nat := pDestruct]>
                    (<[0%nat := pConstruct]> (replicate OBJ_NUM_METHODS fn_NULL))) !! m =
               Some objInfoNotImplementedDummy).
  { apply fill_dummy_lookup; [lia | rewrite !length_insert, length_replicate; lia]. }
  split; [exact Hl|]. unfold objInfoIsImplemented. cbn [objMethods]. rewrite Hl. reflexivity.
Qed.

(** X16: which slots a class implements.  After [InfoConstruct] and one
    [InfoSetMethod] for a slot from 2 on, [objInfoIsImplemented] holds for
    that slot unless the handler set is the dummy itself, and for no other
    slot from 2 on. *)
Theorem objInfoIsImplemented_after_InfoSetMethod {S} id name vers pConstruct pDestruct
    (s s' : S) pInfo objMethod pHandler pInfo' m :
  InfoConstruct true id name vers pConstruct pDestruct s = OK pInfo s' ->
  InfoSetMethod objMethod pHandler pInfo = OK tt pInfo' ->
  (2 <= objMethod)%nat ->
  (2 <= m < OBJ_NUM_METHODS)%nat ->
  objInfoIsImplemented pInfo' m =
  (if decide (m = objMethod) then negb (is_dummy pHandler) else false).
Proof.
  intros Hc Hs Ho Hm.
  pose proof (InfoConstruct_slots _ _ _ _ _ _ _ _ _ m Hc Hm) as Hl.
  assert (Hlen : length (objMethods pInfo) = OBJ_NUM_METHODS).
  { unfold InfoConstruct, bind, assert, ABORT_FINALIZE, ret in Hc.
    destruct pDestruct; try discriminate; cbn [negb] in Hc;
      injection Hc as <- _; cbn [objMethods];
      rewrite fill_dummy_length, !length_insert, length_replicate; reflexivity. }
  unfold InfoSetMethod, bind, assert in Hs.
  destruct (_ && _) eqn:E; [|discriminate]. injection Hs as <-.
  apply andb_true_iff in E as [_ E]. apply Nat.ltb_lt in E.
  unfold objInfoIsImplemented. cbn [objMethods].
  destruct (decide (m = objMethod)) as [->|Hne].
  - rewrite list_lookup_insert_eq by lia. destruct pHandler; reflexivity.
  - rewrite list_lookup_insert_ne by congruence. rewrite Hl. reflexivity.
Qed.

(** X17: registering a class and looking it up.  When [RegisterObj] returns
    [RS_RET_OK], the class id is in [1, OBJ_NUM_IDS], the readers find the
    class information under that id, every other id is as before, and a
    second registration of the id fails the assertion
    [arrObjInfo[oID] == NULL]. *)
Theorem RegisterObj_then_info_at sys oID p arr' pInfo :
  RegisterObj oID p (arrObjInfo sys) = OK tt arr' ->
  infos sys !! p = Some pInfo ->
  1 <= oID <= OBJ_NUM_IDS /\
  info_at (mk_objsys (infos sys) arr') oID = Some pInfo /\
  (forall oID', oID' <> oID ->
     info_at (mk_objsys (infos sys) arr') oID' = info_at sys oID') /\
  (forall p', RegisterObj oID p' arr' = Crash assert_failed).
Proof.
  unfold RegisterObj, bind, assert. intros H Hp.
  destruct (bool_decide (arrObjInfo sys !! oID = None)); [|discriminate].
  destruct ((oID <? 1) || (oID >? OBJ_NUM_IDS)) eqn:E; [discriminate|].
  injection H as <-. apply orb_false_iff in E as [E1 E2].
  apply Z.ltb_ge in E1. rewrite Z.gtb_ltb in E2. apply Z.ltb_ge in E2.
  split; [lia|]. split; [|split].
  - unfold info_at. cbn [arrObjInfo infos]. rewrite lookup_insert_eq. exact Hp.
  - intros oID' Hne. unfold info_at. cbn [arrObjInfo infos].
    rewrite lookup_insert_ne by congruence. reflexivity.
  - intros p'. rewrite bool_decide_eq_false_2; [reflexivity|].
    rewrite lookup_insert_eq. discriminate.
Qed.

(** The loop [for(i = 0 ; i < OBJ_NUM_IDS ; ++i) arrObjInfo[i] = NULL] of
    [objClassInit], at index [i] with [n] iterations left. *)
Fixpoint clear_arrObjInfo (i : Z) (n : nat) (arr : gmap Z loc) : gmap Z loc :=
  match n with
  | O => arr
  | S n' => clear_arrObjInfo (i + 1) n' (delete i arr)
  end.

(* initialize our own class *)
Definition objClassInit (objUse_var : M (gmap Z loc) unit) : M (gmap Z loc) unit :=
  (* first, initialize the object system itself. This must be done
   * before any other object is created. *)
  (fun arr => OK tt (clear_arrObjInfo 0 (Z.to_nat OBJ_NUM_IDS) arr)) ;;;
  (* request objects we use *)
  objUse_var.

Lemma clear_arrObjInfo_lookup n : forall i arr k,
  clear_arrObjInfo i n arr !! k =
  if bool_decide (i <= k < i + Z.of_nat n) then None else arr !! k.
Proof.
  induction n as [|n IH]; intros i arr k; cbn [clear_arrObjInfo].
  - rewrite bool_decide_eq_false_2 by lia. reflexivity.
  - rewrite IH. destruct (decide (k = i)) as [->|Hne].
    + rewrite lookup_delete_eq.
      rewrite (bool_decide_eq_true_2 (i <= i < i + Z.of_nat (S n))) by lia.
      destruct (bool_decide (i + 1 <= i < _)); reflexivity.
    + rewrite lookup_delete_ne by congruence.
      destruct (bool_decide (i + 1 <= k < i + 1 + Z.of_nat n)) eqn:E.
      * apply bool_decide_eq_true in E. rewrite bool_decide_eq_true_2 by lia. reflexivity.
      * apply bool_decide_eq_false in E. rewrite bool_decide_eq_false_2 by lia. reflexivity.
Qed.

(** X18: after [objClassInit] every class can register.  Whatever the array
    held before, once [objClassInit] has returned [RS_RET_OK] (its [objUse]
    leaving the array alone) every id in [1, OBJ_NUM_IDS) is free: [RegisterObj]
    for it returns [RS_RET_OK] and stores the pointer.  The element behind the
    array, which [RegisterObj] also accepts, is not reset by the loop. *)
Theorem objClassInit_then_RegisterObj objUse_var arr arr' :
  (forall a, objUse_var a = OK tt a) ->
  objClassInit objUse_var arr = OK tt arr' ->
  (forall oID p, 1 <= oID < OBJ_NUM_IDS ->
     RegisterObj oID p arr' = OK tt (<[oID := p]> arr')) /\
  arr' !! OBJ_NUM_IDS = arr !! OBJ_NUM_IDS.
Proof.
  intros Huse. unfold objClassInit, bind. rewrite Huse. intros [= <-]. split.
  - intros oID p Hr. apply RegisterObj_in_range; [|assumption].
    rewrite clear_arrObjInfo_lookup. rewrite bool_decide_eq_true_2; [reflexivity|].
    rewrite Z2Nat.id; lia.
  - rewrite clear_arrObjInfo_lookup. rewrite bool_decide_eq_false_2; [reflexivity|].
    destruct (Z.le_gt_cases 0 OBJ_NUM_IDS).
    + rewrite Z2Nat.id; lia.
    + rewrite Z2Nat.nonpos by lia. simpl. lia.
Qed.

(** ** The calls [Deserialize] makes *)

(** [calls_within P m]: whatever [m] returns, the calls it made satisfy [P]. *)
Definition calls_within {A} (P : event -> Prop) (m : M world A) : Prop :=
  forall w,
    match m w with
    | OK _ w' | Err _ w' => exists evs, calls w' = calls w ++ evs /\ Forall P evs
    | Crash _ => True
    end.

Lemma calls_within_bind {A B} P (m : M world A) (k : A -> M world B) :
  calls_within P m -> (forall a, calls_within P (k a)) -> calls_within P (bind m k).
Proof.
  intros Hm Hk w. unfold bind. specialize (Hm w).
  destruct (m w) as [a w1|e w1|]; [|exact Hm|exact I].
  destruct Hm as (evs1 & H1 & HP1). specialize (Hk a w1).
  destruct (k a w1) as [b w2|e w2|]; [| |exact I];
    destruct Hk as (evs2 & H2 & HP2); exists (evs1 ++ evs2);
    (split; [rewrite H2, H1, app_assoc; reflexivity | apply Forall_app; auto]).
Qed.

Lemma calls_within_same {A} P (m : M world A) :
  (forall w, match m w with
             | OK _ w' | Err _ w' => calls w' = calls w
             | Crash _ => True
             end) ->
  calls_within P m.
Proof.
  intros H w. specialize (H w).
  destruct (m w); [| |exact I]; exists []; rewrite app_nil_r; auto.
Qed.

Lemma calls_within_ret {A} P (a : A) : calls_within P (ret a).
Proof. apply calls_within_same. reflexivity. Qed.

Lemma calls_within_ABORT_FINALIZE {A} P iRet : calls_within P (@ABORT_FINALIZE world A iRet).
Proof. apply calls_within_same. reflexivity. Qed.

Lemma calls_within_assert P b : calls_within P (@assert world b).
Proof. apply calls_within_same. intros w. unfold assert. destruct b; auto. Qed.

Lemma calls_within_ISOBJ_assert P : calls_within P ISOBJ_assert.
Proof. apply calls_within_same. intros w. unfold ISOBJ_assert. destruct (pObj w); auto. Qed.

Lemma calls_within_on_strm {A} P (m : M strm_t A) : calls_within P (on_strm m).
Proof.
  apply calls_within_same. intros w. unfold on_strm. destruct (m (pStrm w)); auto.
Qed.

Lemma calls_within_if {A} P (b : bool) (m1 m2 : M world A) :
  calls_within P m1 -> calls_within P m2 -> calls_within P (if b then m1 else m2).
Proof. destruct b; auto. Qed.

Lemma calls_within_jump P sys oID m pVar :
  P (EvMethod oID m) -> calls_within P (jump sys oID m pVar).
Proof.
  intros HP w. pose proof (jump_calls sys oID m pVar w) as H.
  destruct (jump sys oID m pVar w); [| |exact I];
    exists [EvMethod oID m]; auto.
Qed.

Lemma calls_within_call_fFixup P f : P EvFixup -> calls_within P (call_fFixup f).
Proof.
  intros HP w. unfold call_fFixup. destruct (pObj w) as [o|]; [|exact I].
  destruct (f o) as [[] o']; cbn [fst snd]; exists [EvFixup]; auto.
Qed.

Lemma calls_within_objInfoIsImplemented_at P sys oID m :
  calls_within P (objInfoIsImplemented_at sys oID m).
Proof.
  apply calls_within_same. intros w. unfold objInfoIsImplemented_at.
  destruct (info_at sys oID); auto.
Qed.

Lemma calls_within_properties_loop P sys oID n :
  P (EvMethod oID objMethod_SETPROPERTY) ->
  forall pVar w, (length (pStrm w) < n)%nat ->
  match properties_loop sys oID pVar w with
  | OK _ w' | Err _ w' => exists evs, calls w' = calls w ++ evs /\ Forall P evs
  | Crash _ => True
  end.
Proof.
  intros HP. induction n as [|n IH]; intros pVar w Hlen; [lia|].
  rewrite properties_loop_eq.
  destruct (objDeserializeProperty pVar (pStrm w)) as [v s'|e s'|k] eqn:Hp;
    [|exists []; rewrite app_nil_r; auto | exact I].
  apply objDeserializeProperty_shrinks in Hp.
  pose proof (jump_calls sys oID objMethod_SETPROPERTY (Some v)
                (mk_world s' (pObj w) (calls w))) as Hc.
  destruct (jump sys oID objMethod_SETPROPERTY (Some v) _) as [u w'|e w'|k] eqn:Hj;
    [| |exact I].
  - apply jump_pStrm in Hj. cbn [pStrm calls] in *.
    specialize (IH v w' ltac:(rewrite Hj; lia)).
    destruct (properties_loop sys oID v w') as [a w2|e w2|k]; [| |exact I];
      destruct IH as (evs & Hevs & Hall);
      exists (EvMethod oID objMethod_SETPROPERTY :: evs);
      (split; [rewrite Hevs, Hc, <- app_assoc; reflexivity | constructor; assumption]).
  - cbn [calls] in Hc. exists [EvMethod oID objMethod_SETPROPERTY]. auto.
Qed.

Lemma calls_within_objDeserializeProperties P sys oID :
  P (EvMethod oID objMethod_SETPROPERTY) ->
  calls_within P (objDeserializeProperties sys oID).
Proof.
  intros HP. unfold objDeserializeProperties.
  apply calls_within_bind; [apply calls_within_ISOBJ_assert | intros _].
  apply calls_within_bind; [apply calls_within_assert | intros _].
  apply calls_within_bind.
  - intros w. apply (calls_within_properties_loop P sys oID (S (length (pStrm w)))); [assumption | lia].
  - intros iRet. apply calls_within_if;
      [apply calls_within_ABORT_FINALIZE | apply calls_within_on_strm].
Qed.

(** What [Deserialize] does before [finalize_it]. *)
Lemma calls_within_Deserialize_body P sys E fFixup :
  P (EvMethod E objMethod_CONSTRUCT) -> P (EvMethod E objMethod_SETPROPERTY) ->
  P EvFixup -> P (EvMethod E objMethod_CONSTRUCTION_FINALIZER) ->
  calls_within P
    (assert ((0 <? E) && (E <? OBJ_NUM_IDS)) ;;;
     r <- on_strm (header_do_while true (bytes_of "Obj")) ;;
     if negb (fst r =? E) then ABORT_FINALIZE RS_RET_INVALID_OID else
     jump sys (fst r) objMethod_CONSTRUCT None ;;;
     objDeserializeProperties sys (fst r) ;;;
     match fFixup with Some f => call_fFixup f | None => ret tt end ;;;
     bImpl <- objInfoIsImplemented_at sys (fst r) objMethod_CONSTRUCTION_FINALIZER ;;
     if bImpl : bool then jump sys (fst r) objMethod_CONSTRUCTION_FINALIZER None
     else ret tt).
Proof.
  intros H1 H2 H3 H4.
  apply calls_within_bind; [apply calls_within_assert | intros _].
  apply calls_within_bind; [apply calls_within_on_strm | intros r].
  destruct (fst r =? E) eqn:Er; cbn [negb]; [|apply calls_within_ABORT_FINALIZE].
  apply Z.eqb_eq in Er. rewrite Er.
  apply calls_within_bind; [apply calls_within_jump; assumption | intros _].
  apply calls_within_bind; [apply calls_within_objDeserializeProperties; assumption | intros _].
  apply calls_within_bind.
  { destruct fFixup; [apply calls_within_call_fFixup; assumption | apply calls_within_ret]. }
  intros _.
  apply calls_within_bind; [apply calls_within_objInfoIsImplemented_at | intros b].
  apply calls_within_if; [apply calls_within_jump; assumption | apply calls_within_ret].
Qed.

(** X19: [Deserialize] never calls the destructor of the class.  Whatever it
    returns, the calls it made are calls of the constructor, the property
    setter, the fixup function and the finalizer of the expected class; when
    it fails after the constructor has run, [finalize_it] only frees the
    instance: the caller gets no instance, and the destructor slot was not
    called. *)
Theorem Deserialize_never_calls_destructor sys E fFixup w :
  objMethod_SETPROPERTY <> objMethod_DESTRUCT ->
  objMethod_CONSTRUCTION_FINALIZER <> objMethod_DESTRUCT ->
  match Deserialize sys E fFixup w with
  | OK _ w' =>
      exists evs, calls w' = calls w ++ evs /\
                  Forall (fun e => forall oID, e <> EvMethod oID objMethod_DESTRUCT) evs
  | Err _ w' =>
      pObj w' = None /\
      exists evs, calls w' = calls w ++ evs /\
                  Forall (fun e => forall oID, e <> EvMethod oID objMethod_DESTRUCT) evs
  | Crash _ => True
  end.
Proof.
  intros Hs Hf.
  pose proof (calls_within_Deserialize_body
                (fun e => forall oID, e <> EvMethod oID objMethod_DESTRUCT) sys E fFixup) as H.
  specialize (H ltac:(intros oID; unfold objMethod_CONSTRUCT, objMethod_DESTRUCT; congruence)
                ltac:(intros oID; congruence)
                ltac:(intros oID; congruence)
                ltac:(intros oID; congruence)
                (mk_world (pStrm w) None (calls w))).
  unfold Deserialize.
  match goal with |- match Deserialize_finalize_it ?body with _ => _ end =>
    change body with
      ((assert ((0 <? E) && (E <? OBJ_NUM_IDS)) ;;;
        r <- on_strm (header_do_while true (bytes_of "Obj")) ;;
        if negb (fst r =? E) then ABORT_FINALIZE RS_RET_INVALID_OID else
        jump sys (fst r) objMethod_CONSTRUCT None ;;;
        objDeserializeProperties sys (fst r) ;;;
        match fFixup with Some f => call_fFixup f | None => ret tt end ;;;
        bImpl <- objInfoIsImplemented_at sys (fst r) objMethod_CONSTRUCTION_FINALIZER ;;
        if bImpl : bool then jump sys (fst r) objMethod_CONSTRUCTION_FINALIZER None
        else ret tt) (mk_world (pStrm w) None (calls w)))
  end.
  revert H.
  match goal with |- _ -> match Deserialize_finalize_it ?body with _ => _ end =>
    destruct body as [u w1|e w1|k]
  end; cbn [Deserialize_finalize_it calls pObj]; auto.
Qed.

(** X20: the order of the calls of a successful [Deserialize]: one call of
    the constructor, then calls of the property setter (one for each property
    line), then the fixup function if the caller passed one, then the
    finalizer if the class implements it; all through the jump table of the
    expected class. *)
Theorem Deserialize_call_order sys E fFixup w w' :
  Deserialize sys E fFixup w = OK tt w' ->
  exists pInfo k,
    info_at sys E = Some pInfo /\
    calls w' =
      calls w ++ EvMethod E objMethod_CONSTRUCT ::
      replicate k (EvMethod E objMethod_SETPROPERTY) ++
      (match fFixup with Some _ => [EvFixup] | None => [] end) ++
      (if objInfoIsImplemented pInfo objMethod_CONSTRUCTION_FINALIZER
       then [EvMethod E objMethod_CONSTRUCTION_FINALIZER] else []).
Proof.
  intros H. unfold Deserialize in H.
  match type of H with Deserialize_finalize_it ?body = _ =>
    destruct body as [u w1|e w1|k] eqn:Hb
  end; cbn [Deserialize_finalize_it] in H; try discriminate.
  injection H as _ <-.
  apply bind_OK_inv in Hb as (? & wa & [_ ->]%assert_OK_inv & Hb).
  apply bind_OK_inv in Hb as (r & wb & Hh & Hb).
  unfold on_strm in Hh. cbn [pStrm pObj calls] in Hh.
  destruct (header_do_while true (bytes_of "Obj") (pStrm w)) as [r0 s0| |];
    try discriminate.
  injection Hh as <- <-. cbv zeta in Hb.
  destruct (fst r0 =? E) eqn:Er; cbn [negb] in Hb; [|discriminate].
  apply Z.eqb_eq in Er. rewrite Er in Hb.
  apply bind_OK_inv in Hb as (? & wc & Hj & Hb).
  pose proof (jump_calls sys E objMethod_CONSTRUCT None (mk_world s0 None (calls w))) as Hc.
  rewrite Hj in Hc. cbn [calls] in Hc.
  apply bind_OK_inv in Hb as (? & wd & Hp & Hb).
  pose proof (calls_within_objDeserializeProperties
                (fun e => EvMethod E objMethod_SETPROPERTY = e) sys E eq_refl wc) as Hpc.
  rewrite Hp in Hpc. destruct Hpc as (evs & Hevs & Hall).
  assert (Hrep : evs = replicate (length evs) (EvMethod E objMethod_SETPROPERTY)).
  { symmetry. apply replicate_as_Forall. auto. }
  apply bind_OK_inv in Hb as (? & we & Hf & Hb).
  assert (Hfx : calls we = calls wd ++
                  match fFixup with Some _ => [EvFixup] | None => [] end).
  { destruct fFixup as [f|].
    - unfold call_fFixup in Hf. destruct (pObj wd) as [o|]; [|discriminate].
      destruct (f o) as [[] o']; cbn [fst snd] in Hf; try discriminate.
      injection Hf as _ <-. reflexivity.
    - injection Hf as _ <-. rewrite app_nil_r. reflexivity. }
  apply bind_OK_inv in Hb as (b & wf & Hi & Hb).
  unfold objInfoIsImplemented_at in Hi.
  destruct (info_at sys E) as [pInfo|] eqn:Hinfo; [|discriminate].
  injection Hi as <- <-.
  exists pInfo, (length evs). split; [reflexivity|].
  rewrite <- Hrep.
  destruct (objInfoIsImplemented pInfo objMethod_CONSTRUCTION_FINALIZER).
  - pose proof (jump_calls sys E objMethod_CONSTRUCTION_FINALIZER None we) as Hfin.
    rewrite Hb in Hfin. rewrite Hfin, Hfx, Hevs, Hc.
    rewrite <- !app_assoc. reflexivity.
  - injection Hb as _ <-. rewrite Hfx, Hevs, Hc.
    rewrite <- !app_assoc, app_nil_r. reflexivity.
Qed.

(** ** Failures of the property-bag readers *)

(** X21: a property-bag reader is not atomic.  When the property lines of a
    record are valid and what follows them is not the trailer,
    [DeserializePropBag] returns the code of [objDeserializeTrailer], and the
    caller's instance has all the properties of the record set on it: the
    setter ran for each line before the trailer was checked. *)
Theorem DeserializePropBag_bad_trailer_keeps_properties sys pInfo f setp
    (inst o : obj_t) props c tail iRet s' cs :
  vartypes_ok = true ->
  0 < objGetObjID inst < OBJ_NUM_IDS ->
  in_number_t (objGetObjID inst) = true ->
  no_char c_NL (objGetClassName inst) = true ->
  objGetObjID o = objGetObjID inst ->
  props_ok props = true ->
  info_at sys (objGetObjID inst) = Some pInfo ->
  objMethods pInfo !! objMethod_SETPROPERTY = Some (fn_class f) ->
  (forall o v, f (Some o) (Some v) = (RS_RET_OK, Some (setp o v))) ->
  c <> COOKIE_PROPLINE ->
  objDeserializeTrailer (c :: tail) = Err iRet s' ->
  DeserializePropBag sys
    (mk_world (header_bytes inst (bytes_of "OPB") ++ props_bytes props ++ c :: tail)
       (Some o) cs) =
  Err iRet
    (mk_world s' (Some (fold_left setp (vars_of props) o))
       (cs ++ List.map (fun _ => EvMethod (objGetObjID inst) objMethod_SETPROPERTY)
                (vars_of props))).
Proof.
  intros Hv Hid Hin Hnl Ho Hok Hi Hs Hf Hc Ht.
  unfold DeserializePropBag.
  unfold bind at 1. cbn [ISOBJ_assert pObj].
  unfold bind at 1. unfold on_strm. cbn [pStrm pObj calls].
  rewrite header_do_while_false_eq.
  rewrite objDeserializeHeader_header_bytes by (assumption || reflexivity).
  cbn [fst]. unfold bind at 1. unfold check_oID_of_pObj. cbn [pObj].
  rewrite Ho, Z.eqb_refl. cbn [negb].
  unfold objDeserializeProperties.
  unfold bind at 1. cbn [ISOBJ_assert pObj].
  unfold bind at 1. rewrite assert_true by (apply Deserialize_range_ok; exact Hid).
  erewrite bind_OK.
  2:{ erewrite (properties_loop_props_bytes sys _ pInfo f setp props) by eassumption.
      reflexivity. }
  cbn [rsRetVal_eqb negb]. unfold on_strm. cbn [pStrm pObj calls].
  rewrite Ht. reflexivity.
Qed.

(** X22: a record of another class is refused before anything is set.  When
    the header the reader's loop reaches (at the start of the stream, or after
    any number of resynchronisations) carries a class id other than that of
    the caller's instance, [DeserializePropBag] and
    [objDeserializeObjAsPropBag] return [RS_RET_INVALID_OID]; the instance is
    as it was and no call was made; the stream is left after that header
    line. *)
Theorem propbag_readers_class_id_mismatch sys (o : obj_t) cs D
    s1 oVers1 s1' s2 oVers2 s2' :
  D <> objGetObjID o ->
  header_do_while false (bytes_of "OPB") s1 = OK (D, oVers1) s1' ->
  header_do_while false (bytes_of "Obj") s2 = OK (D, oVers2) s2' ->
  DeserializePropBag sys (mk_world s1 (Some o) cs) =
    Err RS_RET_INVALID_OID (mk_world s1' (Some o) cs) /\
  objDeserializeObjAsPropBag sys (mk_world s2 (Some o) cs) =
    Err RS_RET_INVALID_OID (mk_world s2' (Some o) cs).
Proof.
  intros Hne Hh1 Hh2. apply Z.eqb_neq in Hne.
  split; unfold DeserializePropBag, objDeserializeObjAsPropBag;
    unfold bind at 1; cbn [ISOBJ_assert pObj];
    unfold bind at 1; unfold on_strm; cbn [pStrm pObj calls];
    rewrite ?Hh1, ?Hh2; cbn [fst];
    unfold bind at 1; unfold check_oID_of_pObj; cbn [pObj];
    rewrite Hne; reflexivity.
Qed.

(** ** The instance name: [SetName] and [GetName] *)

(** What [SetName] and [GetName] use of an instance: the name of its class
    ([objGetClassName(pThis)], constant pool memory) and the field [pszName]
    ([None]: [NULL]). *)
Record named_t : Set := mk_named {
  className : list uchar;
  inst_pszName : option (list uchar)
}.

(** The C string a buffer holds: its characters before the first NUL. *)
Definition cstr (s : list uchar) : list uchar := take (Z.to_nat (strlen s)) s.

(** [strdup]: a copy of the C string, or [NULL] when there is no memory. *)
Definition strdup (malloc_ok : bool) (s : list uchar) : option (list uchar) :=
  if malloc_ok then Some (cstr s) else None.

(* set the object (instance) name *)
Definition SetName (malloc_ok : bool) (pszName : list uchar) : M named_t unit :=
  fun pThis =>
    (* if(pThis->pszName != NULL) free(pThis->pszName); *)
    let pThis := mk_named (className pThis) (strdup malloc_ok pszName) in
    match inst_pszName pThis with
    | None => Err RS_RET_OUT_OF_MEMORY pThis
    | Some _ => OK tt pThis
    end.

Definition c_space : uchar := Eval cbv in chr " ".

(** [snprintf(szName, sizeof(szName)/sizeof(uchar), "%s %p", objGetClassName(pThis), pThis)]
    for [uchar szName[128]]: at most 127 characters are stored.  How a
    pointer prints is up to the C library: [ptr] is the text of [%p]. *)
Definition GetName_szName (pThis : named_t) (ptr : list uchar) : list uchar :=
  take 127 (cstr (className pThis) ++ c_space :: ptr).

(* get the object (instance) name
 * Note that we use a non-standard calling convention. Thus function must never
 * fail, else we run into real big problems. So it must make sure that at least someting
 * is returned. *)
Definition GetName (malloc_ok : bool) (ptr : list uchar) : M named_t (list uchar) :=
  fun pThis =>
    match inst_pszName pThis with
    | None =>
        match SetName malloc_ok (GetName_szName pThis ptr) pThis with
        | OK _ pThis' | Err _ pThis' =>
            (* looks strange, but we NEED to re-check because if there was an
             * error in objSetName(), the pointer may still be NULL *)
            match inst_pszName pThis' with
            | None => OK (className pThis') pThis'
            | Some ret => OK ret pThis'
            end
        | Crash k => Crash k
        end
    | Some ret => OK ret pThis
    end.

Lemma cstr_length s : (length (cstr s) <= length s)%nat.
Proof. unfold cstr. rewrite length_take. lia. Qed.

(** X23: the name set is the name got.  When [SetName] returns [RS_RET_OK],
    every later [GetName] returns the C string that was passed (its
    characters up to the first NUL) and leaves the instance alone.  When
    [strdup] has no memory, [SetName] returns [RS_RET_OUT_OF_MEMORY] and the
    instance has lost the name it had: [pszName] is [NULL]. *)
Theorem SetName_then_GetName malloc_ok pszName pThis :
  match SetName malloc_ok pszName pThis with
  | OK _ pThis' =>
      inst_pszName pThis' = Some (cstr pszName) /\
      className pThis' = className pThis /\
      forall b ptr, GetName b ptr pThis' = OK (cstr pszName) pThis'
  | Err iRet pThis' =>
      iRet = RS_RET_OUT_OF_MEMORY /\ malloc_ok = false /\
      inst_pszName pThis' = None /\ className pThis' = className pThis
  | Crash _ => False
  end.
Proof. destruct malloc_ok; cbn; auto. Qed.

(** X24: [GetName] always returns a name, and the same one from then on.  For
    an instance without a name it makes one of the class name, a blank and
    the address, of at most 127 characters, and stores it; when there is no
    memory to store it, it returns the class name.  Once a call has left the
    instance with a name, every later call returns that name and changes
    nothing. *)
Theorem GetName_result malloc_ok ptr pThis :
  exists ret pThis',
    GetName malloc_ok ptr pThis = OK ret pThis' /\
    className pThis' = className pThis /\
    match inst_pszName pThis with
    | Some n => ret = n /\ pThis' = pThis
    | None =>
        if malloc_ok
        then ret = cstr (GetName_szName pThis ptr) /\ (length ret <= 127)%nat /\
             inst_pszName pThis' = Some ret
        else ret = className pThis /\ inst_pszName pThis' = None
    end /\
    (is_Some (inst_pszName pThis') ->
     forall b ptr', GetName b ptr' pThis' = OK ret pThis').
Proof.
  unfold GetName. destruct pThis as [cls [n|]]; cbn [inst_pszName className].
  - exists n, (mk_named cls (Some n)). cbn. auto.
  - destruct malloc_ok; cbn.
    + eexists _, _. split; [reflexivity|]. cbn. split; [reflexivity|]. split.
      * split; [reflexivity|]. split; [|reflexivity].
        etrans; [apply cstr_length|]. unfold GetName_szName.
        rewrite length_take. lia.
      * auto.
    + eexists _, _. split; [reflexivity|]. cbn. split; [reflexivity|]. split; [auto|].
      intros [? [=]].
Qed.

End Obj.

(** * A concrete configuration

    The values the constants have in rsyslog's headers ([OBJ_NUM_IDS] 100,
    eight methods, [objMethod_SETPROPERTY] 4,
    [objMethod_CONSTRUCTION_FINALIZER] 5, the type tags 0 to 3), and a class
    with id 5 whose instances record the properties set on them.  The
    theorems above are applied to it, and the points where [obj.c] departs
    from a claim are evaluated on it. *)
Module Ex.

Definition OBJ_NUM_IDS : Z := 100.
Definition OBJ_NUM_METHODS : nat := 8.
Definition objMethod_SETPROPERTY : nat := 4.
Definition objMethod_CONSTRUCTION_FINALIZER : nat := 5.
Definition VARTYPE_NONE : Z := 0.
Definition VARTYPE_STR : Z := 1.
Definition VARTYPE_NUMBER : Z := 2.
Definition VARTYPE_SYSLOGTIME : Z := 3.

Record xobj : Set := mk_xobj {
  x_id : Z;
  x_vers : Z;
  x_name : list uchar;
  x_props : list var_t
}.

Definition o0 : xobj := mk_xobj 5 1 (bytes_of "msg") [].

Definition setp (o : xobj) (v : var_t) : xobj :=
  mk_xobj (x_id o) (x_vers o) (x_name o) (x_props o ++ [v]).

Definition msgConstruct : handler xobj :=
  fn_class xobj (fun _ _ => (RS_RET_OK, Some o0)).

Definition msgDestruct : handler xobj :=
  fn_class xobj (fun _ _ => (RS_RET_OK, None)).

Definition msgSetProperty : handler xobj :=
  fn_class xobj (fun o v =>
    match o, v with
    | Some o, Some v => (RS_RET_OK, Some (setp o v))
    | _, _ => (RS_RET_ERR, o)
    end).

(** The class information as [InfoConstruct] leaves it, and after
    [InfoSetMethod] for the property setter. *)
Definition info0 : objInfo_t xobj :=
  mk_objInfo xobj (bytes_of "msg") 1 5
    [msgConstruct; msgDestruct;
     objInfoNotImplementedDummy xobj; objInfoNotImplementedDummy xobj;
     objInfoNotImplementedDummy xobj; objInfoNotImplementedDummy xobj;
     objInfoNotImplementedDummy xobj; objInfoNotImplementedDummy xobj].

Definition info : objInfo_t xobj :=
  mk_objInfo xobj (bytes_of "msg") 1 5
    [msgConstruct; msgDestruct;
     objInfoNotImplementedDummy xobj; objInfoNotImplementedDummy xobj;
     msgSetProperty; objInfoNotImplementedDummy xobj;
     objInfoNotImplementedDummy xobj; objInfoNotImplementedDummy xobj].

Definition sys : objsys xobj :=
  mk_objsys xobj (<[1%positive := info]> ∅) (<[5 := 1%positive]> ∅).

Definition Deserialize :=
  Deserialize OBJ_NUM_IDS objMethod_SETPROPERTY objMethod_CONSTRUCTION_FINALIZER
    VARTYPE_STR VARTYPE_NUMBER VARTYPE_SYSLOGTIME xobj.

Definition DeserializePropBag :=
  DeserializePropBag OBJ_NUM_IDS objMethod_SETPROPERTY
    VARTYPE_STR VARTYPE_NUMBER VARTYPE_SYSLOGTIME xobj x_id.

Definition objDeserializeObjAsPropBag :=
  objDeserializeObjAsPropBag OBJ_NUM_IDS objMethod_SETPROPERTY
    VARTYPE_STR VARTYPE_NUMBER VARTYPE_SYSLOGTIME xobj x_id.

Definition spec_deserializePropertyBag :=
  spec_deserializePropertyBag OBJ_NUM_IDS objMethod_SETPROPERTY
    VARTYPE_STR VARTYPE_NUMBER VARTYPE_SYSLOGTIME xobj x_id.

Definition serialize :=
  serialize VARTYPE_NONE VARTYPE_STR VARTYPE_NUMBER VARTYPE_SYSLOGTIME
    xobj x_id x_vers x_name.

Definition serializePropBag :=
  serializePropBag VARTYPE_NONE VARTYPE_STR VARTYPE_NUMBER VARTYPE_SYSLOGTIME
    xobj x_id x_vers x_name.

Definition objDeserializeHeader := objDeserializeHeader OBJ_NUM_IDS.

Definition t1 : syslogTime_t :=
  mk_syslogTime 2 2008 1 8 23 59 59 123456 6 (chr "+") 1 30.

(** A string, the integers -42 and 0, a property without a value, a counted
    string and a timestamp. *)
Definition props : list prop_t :=
  [ mk_prop (bytes_of "a") PROPTYPE_PSZ (Some (USR_sz (bytes_of "hello:x")));
    mk_prop (bytes_of "n") PROPTYPE_INT (Some (USR_int (-42)));
    mk_prop (bytes_of "z") PROPTYPE_LONG (Some (USR_long 0));
    mk_prop (bytes_of "unset") PROPTYPE_INT64 None;
    mk_prop (bytes_of "c") PROPTYPE_CSTR (Some (USR_cstr (bytes_of "cs")));
    mk_prop (bytes_of "t") PROPTYPE_SYSLOGTIME (Some (USR_syslogTime t1)) ].

(** The record [serialize] writes for an instance of class 5 without
    properties, a record of class 7, and a line of garbage. *)
Definition record5 : strm_t :=
  bytes_of "<Obj:1:5:1:msg:" ++ [c_NL] ++ bytes_of ">End" ++ [c_NL] ++
  bytes_of "." ++ [c_NL].

Definition record7 : strm_t :=
  bytes_of "<Obj:1:7:1:strm:" ++ [c_NL] ++ bytes_of ">End" ++ [c_NL] ++
  bytes_of "." ++ [c_NL].

Definition garbage : strm_t := bytes_of "garbage" ++ [c_NL].

Definition world0 (s : strm_t) : world xobj := mk_world xobj s None [].
Definition world1 (s : strm_t) : world xobj := mk_world xobj s (Some o0) [].

End Ex.

(** ** What [obj.c] does on the examples *)

Example InfoConstruct_ex :
  InfoConstruct Ex.OBJ_NUM_METHODS Ex.xobj true 5 (bytes_of "msg") 1
    Ex.msgConstruct Ex.msgDestruct tt = OK Ex.info0 tt.
Proof. reflexivity. Qed.

Example InfoSetMethod_ex :
  InfoSetMethod Ex.OBJ_NUM_METHODS Ex.xobj Ex.objMethod_SETPROPERTY
    Ex.msgSetProperty Ex.info0 = OK tt Ex.info.
Proof. reflexivity. Qed.

Example serialize_record5 : Ex.serialize Ex.o0 [] [] = OK tt Ex.record5.
Proof. vm_compute. reflexivity. Qed.

(** -42 and 0, a string, a counted string and a timestamp come back as they
    were written; the property without a value is not in the record. *)
Example roundtrip_ex :
  exists record,
    Ex.serialize Ex.o0 Ex.props [] = OK tt record /\
    Ex.Deserialize Ex.sys 5 None (Ex.world0 record) =
    OK tt (mk_world Ex.xobj []
             (Some (Ex.mk_xobj 5 1 (bytes_of "msg")
                      [ mk_var (bytes_of "a") 1 (VAL_pStr (bytes_of "hello:x"));
                        mk_var (bytes_of "n") 2 (VAL_num (-42));
                        mk_var (bytes_of "z") 2 (VAL_num 0);
                        mk_var (bytes_of "c") 1 (VAL_pStr (bytes_of "cs"));
                        mk_var (bytes_of "t") 3 (VAL_vSyslogTime Ex.t1) ]))
             [EvMethod 5 0; EvMethod 5 4; EvMethod 5 4; EvMethod 5 4;
              EvMethod 5 4; EvMethod 5 4]).
Proof.
  eexists. split.
  - vm_compute. reflexivity.
  - vm_compute. reflexivity.
Qed.

(** A record, garbage, a record: the property-bag reader of whole objects
    skips the garbage and reads the second record; [Deserialize] reads the
    first record and ends the process at the garbage. *)
Example recovery_ex :
  objDeserializeObjAsPropBag Ex.OBJ_NUM_IDS Ex.objMethod_SETPROPERTY
    Ex.VARTYPE_STR Ex.VARTYPE_NUMBER Ex.VARTYPE_SYSLOGTIME Ex.xobj Ex.x_id Ex.sys
    (Ex.world1 (Ex.garbage ++ Ex.record5)) = OK tt (Ex.world1 []) /\
  Ex.Deserialize Ex.sys 5 None (Ex.world0 (Ex.garbage ++ Ex.record5)) =
    Crash abort_called.
Proof. split; vm_compute; reflexivity. Qed.

(** ** The theorems at the examples *)

Definition recordOPB : strm_t :=
  bytes_of "<OPB:1:5:1:msg:" ++ [c_NL] ++ bytes_of ">End" ++ [c_NL] ++
  bytes_of "." ++ [c_NL].

Example serializePropBag_recordOPB :
  Ex.serializePropBag Ex.o0 [] [] = OK tt recordOPB.
Proof. vm_compute. reflexivity. Qed.

Lemma Deserialize_aborts_on_header_failure_witness :
  0 < 5 < Ex.OBJ_NUM_IDS /\
  Ex.objDeserializeHeader (bytes_of "Obj") (Ex.garbage ++ Ex.record5) =
    Err RS_RET_INVALID_HEADER (bytes_of "arbage" ++ [c_NL] ++ Ex.record5) /\
  Ex.Deserialize Ex.sys 5 None (Ex.world0 (Ex.garbage ++ Ex.record5)) =
    Crash abort_called.
Proof.
  split; [unfold Ex.OBJ_NUM_IDS; lia|]. split; [vm_compute; reflexivity|].
  apply (Deserialize_aborts_on_header_failure Ex.OBJ_NUM_IDS
           Ex.objMethod_SETPROPERTY Ex.objMethod_CONSTRUCTION_FINALIZER
           Ex.VARTYPE_STR Ex.VARTYPE_NUMBER Ex.VARTYPE_SYSLOGTIME Ex.xobj
           Ex.sys 5 None (Ex.world0 (Ex.garbage ++ Ex.record5))
           RS_RET_INVALID_HEADER (bytes_of "arbage" ++ [c_NL] ++ Ex.record5)).
  - unfold Ex.OBJ_NUM_IDS. lia.
  - vm_compute. reflexivity.
Defined.

Lemma RegisterObj_accepts_OBJ_NUM_IDS_witness :
  1 <= Ex.OBJ_NUM_IDS /\
  (∅ : gmap Z loc) !! Ex.OBJ_NUM_IDS = None /\
  RegisterObj Ex.OBJ_NUM_IDS Ex.OBJ_NUM_IDS 1%positive ∅ =
    OK tt (<[Ex.OBJ_NUM_IDS := 1%positive]> ∅).
Proof.
  split; [unfold Ex.OBJ_NUM_IDS; lia|]. split; [reflexivity|].
  apply (RegisterObj_accepts_OBJ_NUM_IDS Ex.OBJ_NUM_IDS 1%positive ∅).
  - unfold Ex.OBJ_NUM_IDS. lia.
  - reflexivity.
Defined.

Lemma Deserialize_no_boundary_aborts_witness :
  0 < 5 < Ex.OBJ_NUM_IDS /\
  has_boundary Ex.garbage = false /\
  Ex.objDeserializeHeader (bytes_of "Obj") Ex.garbage =
    Err RS_RET_INVALID_HEADER (bytes_of "arbage" ++ [c_NL]) /\
  objDeserializeTryRecover (bytes_of "arbage" ++ [c_NL]) = Err RS_RET_EOF [] /\
  (is_Some (Some Ex.o0) ->
   Ex.objDeserializeObjAsPropBag Ex.sys (Ex.world1 Ex.garbage) =
     Err RS_RET_EOF (Ex.world1 [])) /\
  Ex.Deserialize Ex.sys 5 None (Ex.world1 Ex.garbage) = Crash abort_called.
Proof.
  split; [unfold Ex.OBJ_NUM_IDS; lia|]. split; [reflexivity|].
  split; [vm_compute; reflexivity|].
  apply (Deserialize_no_boundary_aborts Ex.OBJ_NUM_IDS
           Ex.objMethod_SETPROPERTY Ex.objMethod_CONSTRUCTION_FINALIZER
           Ex.VARTYPE_STR Ex.VARTYPE_NUMBER Ex.VARTYPE_SYSLOGTIME Ex.xobj Ex.x_id
           Ex.sys 5 None (Ex.world1 Ex.garbage)
           RS_RET_INVALID_HEADER (bytes_of "arbage" ++ [c_NL])).
  - unfold Ex.OBJ_NUM_IDS. lia.
  - reflexivity.
  - vm_compute. reflexivity.
Defined.

(** A record of class 7 at the start of the stream: the call returns
    [RS_RET_INVALID_OID] and has constructed nothing. *)
Example Deserialize_class_id_mismatch_at_start :
  Ex.Deserialize Ex.sys 5 None (Ex.world0 Ex.record7) =
  Err RS_RET_INVALID_OID
    (Ex.world0 (bytes_of ">End" ++ [c_NL] ++ bytes_of "." ++ [c_NL])).
Proof. vm_compute. reflexivity. Qed.

(** The same record behind a line of garbage: its header is the first
    well-formed one, and the call ends the process. *)
Lemma Deserialize_class_id_mismatch_witness :
  0 < 5 < Ex.OBJ_NUM_IDS /\
  header_do_while Ex.OBJ_NUM_IDS false (bytes_of "Obj") (Ex.garbage ++ Ex.record7) =
    OK (7, 1) (bytes_of ">End" ++ [c_NL] ++ bytes_of "." ++ [c_NL]) /\
  7 <> 5 /\
  Ex.objDeserializeHeader (bytes_of "Obj") (Ex.garbage ++ Ex.record7) =
    Err RS_RET_INVALID_HEADER (bytes_of "arbage" ++ [c_NL] ++ Ex.record7) /\
  Ex.Deserialize Ex.sys 5 None (Ex.world0 (Ex.garbage ++ Ex.record7)) =
    Crash abort_called.
Proof.
  split; [unfold Ex.OBJ_NUM_IDS; lia|]. split; [vm_compute; reflexivity|].
  split; [lia|]. split; [vm_compute; reflexivity|].
  apply (Deserialize_class_id_mismatch Ex.OBJ_NUM_IDS
           Ex.objMethod_SETPROPERTY Ex.objMethod_CONSTRUCTION_FINALIZER
           Ex.VARTYPE_STR Ex.VARTYPE_NUMBER Ex.VARTYPE_SYSLOGTIME Ex.xobj
           Ex.sys 5 None (Ex.world0 (Ex.garbage ++ Ex.record7)) 7 1
           (bytes_of ">End" ++ [c_NL] ++ bytes_of "." ++ [c_NL])).
  - unfold Ex.OBJ_NUM_IDS. lia.
  - vm_compute. reflexivity.
  - lia.
Defined.

Lemma empty_string_fails_decoder_assertion_witness :
  vartypes_ok Ex.VARTYPE_STR Ex.VARTYPE_NUMBER Ex.VARTYPE_SYSLOGTIME = true /\
  name_ok (bytes_of "a") = true /\
  emits (SerializeProp Ex.VARTYPE_NONE Ex.VARTYPE_STR Ex.VARTYPE_NUMBER
           Ex.VARTYPE_SYSLOGTIME (bytes_of "a") PROPTYPE_PSZ (Some (USR_sz [])))
        (prop_line (bytes_of "a") Ex.VARTYPE_STR 0 []) /\
  (forall s, objDeserializeStr 0 s = Crash assert_failed) /\
  objDeserializeProperty Ex.VARTYPE_STR Ex.VARTYPE_NUMBER Ex.VARTYPE_SYSLOGTIME
    (mk_var [] 0 VAL_none) (prop_line (bytes_of "a") Ex.VARTYPE_STR 0 [] ++ []) =
    Crash assert_failed.
Proof.
  split; [reflexivity|]. split; [reflexivity|].
  apply (empty_string_fails_decoder_assertion Ex.VARTYPE_NONE Ex.VARTYPE_STR
           Ex.VARTYPE_NUMBER Ex.VARTYPE_SYSLOGTIME (bytes_of "a")
           (mk_var [] 0 VAL_none) []); reflexivity.
Defined.

Lemma class_ok_ex :
  class_ok Ex.objMethod_SETPROPERTY Ex.objMethod_CONSTRUCTION_FINALIZER Ex.xobj
    Ex.info Ex.o0 Ex.setp (fun o => o).
Proof.
  split; [|split].
  - eexists. split; reflexivity.
  - eexists. split; [reflexivity|]. intros o v. reflexivity.
  - left. split; [reflexivity|]. intros o. reflexivity.
Defined.

Lemma serialize_Deserialize_roundtrip_witness :
  vartypes_ok Ex.VARTYPE_STR Ex.VARTYPE_NUMBER Ex.VARTYPE_SYSLOGTIME = true /\
  0 < Ex.x_id Ex.o0 < Ex.OBJ_NUM_IDS /\
  in_number_t (Ex.x_id Ex.o0) = true /\
  no_char c_NL (Ex.x_name Ex.o0) = true /\
  props_ok Ex.props = true /\
  info_at Ex.xobj Ex.sys (Ex.x_id Ex.o0) = Some Ex.info /\
  exists record evs,
    emits (Ex.serialize Ex.o0 Ex.props) record /\
    Ex.Deserialize Ex.sys (Ex.x_id Ex.o0) None
      (mk_world Ex.xobj (record ++ []) None []) =
    OK tt (mk_world Ex.xobj []
             (Some (fold_left Ex.setp
                      (vars_of Ex.VARTYPE_STR Ex.VARTYPE_NUMBER
                         Ex.VARTYPE_SYSLOGTIME Ex.props) Ex.o0))
             ([] ++ evs)).
Proof.
  split; [reflexivity|]. split; [split; reflexivity|]. split; [reflexivity|].
  split; [reflexivity|]. split; [reflexivity|]. split; [reflexivity|].
  apply (serialize_Deserialize_roundtrip Ex.OBJ_NUM_IDS
           Ex.objMethod_SETPROPERTY Ex.objMethod_CONSTRUCTION_FINALIZER
           Ex.VARTYPE_NONE Ex.VARTYPE_STR Ex.VARTYPE_NUMBER Ex.VARTYPE_SYSLOGTIME
           Ex.xobj Ex.x_id Ex.x_vers Ex.x_name Ex.sys Ex.info Ex.o0 Ex.setp
           (fun o => o) None (fun o => o) Ex.o0 Ex.props [] []).
  - reflexivity.
  - split; reflexivity.
  - reflexivity.
  - reflexivity.
  - reflexivity.
  - reflexivity.
  - exact class_ok_ex.
  - intros o. reflexivity.
Defined.

(** The state after [InfoConstruct], [InfoSetMethod] for the property setter
    and [RegisterObj] for class 5. *)
Definition st_ex : objstate Ex.xobj :=
  mk_objstate Ex.xobj
    (mk_objsys Ex.xobj (<[1%positive := Ex.info]> (<[1%positive := Ex.info0]> ∅))
       (<[5 := 1%positive]> ∅))
    ({[ (1%positive, Ex.objMethod_SETPROPERTY) ]} ∪ ∅).

Lemma st_ex_reachable :
  rtc (obj_step Ex.OBJ_NUM_IDS Ex.OBJ_NUM_METHODS Ex.xobj)
      (objstate_init Ex.xobj) st_ex.
Proof.
  eapply rtc_l.
  { apply (step_InfoConstruct Ex.OBJ_NUM_IDS Ex.OBJ_NUM_METHODS Ex.xobj
             (objstate_init Ex.xobj) 1%positive 5 (bytes_of "msg") 1
             Ex.msgConstruct Ex.msgDestruct Ex.info0); reflexivity. }
  eapply rtc_l.
  { eapply (step_InfoSetMethod Ex.OBJ_NUM_IDS Ex.OBJ_NUM_METHODS Ex.xobj _
              1%positive Ex.info0 Ex.objMethod_SETPROPERTY Ex.msgSetProperty
              Ex.info); reflexivity. }
  eapply rtc_l.
  { eapply (step_RegisterObj Ex.OBJ_NUM_IDS Ex.OBJ_NUM_METHODS Ex.xobj _
              5 1%positive (<[5 := 1%positive]> ∅)). reflexivity. }
  apply rtc_refl.
Defined.

Lemma unset_slots_not_implemented_witness :
  rtc (obj_step Ex.OBJ_NUM_IDS Ex.OBJ_NUM_METHODS Ex.xobj)
      (objstate_init Ex.xobj) st_ex /\
  unset_slots_hold_dummy Ex.OBJ_NUM_METHODS Ex.xobj st_ex /\
  forall oID p pInfo m pVar w,
    arrObjInfo Ex.xobj (st_sys Ex.xobj st_ex) !! oID = Some p ->
    infos Ex.xobj (st_sys Ex.xobj st_ex) !! p = Some pInfo ->
    (2 <= m < Ex.OBJ_NUM_METHODS)%nat ->
    (p, m) ∉ st_set Ex.xobj st_ex ->
    jump Ex.xobj (st_sys Ex.xobj st_ex) oID m pVar w =
    Err RS_RET_NOT_IMPLEMENTED
      (mk_world Ex.xobj (pStrm Ex.xobj w) (pObj Ex.xobj w)
         (calls Ex.xobj w ++ [EvMethod oID m])).
Proof.
  split; [exact st_ex_reachable|].
  apply (unset_slots_not_implemented Ex.OBJ_NUM_IDS Ex.OBJ_NUM_METHODS Ex.xobj
           st_ex st_ex_reachable).
Defined.

(** The finalizer slot of the registered class was never set: calling it
    returns [RS_RET_NOT_IMPLEMENTED]. *)
Example jump_unset_slot_ex :
  jump Ex.xobj (st_sys Ex.xobj st_ex) 5 Ex.objMethod_CONSTRUCTION_FINALIZER None
    (Ex.world1 []) =
  Err RS_RET_NOT_IMPLEMENTED
    (mk_world Ex.xobj [] (Some Ex.o0) [EvMethod 5 5]).
Proof. vm_compute. reflexivity. Qed.

(** C5, the claim as stated fails at slot 0: [InfoSetMethod] for the
    constructor slot does not overwrite it, the assertion [objMethod > 0]
    stops the call. *)
Lemma InfoSetMethod_constructor_slot_asserted :
  InfoSetMethod Ex.OBJ_NUM_METHODS Ex.xobj objMethod_CONSTRUCT Ex.msgSetProperty
    Ex.info0 = Crash assert_failed.
Proof. reflexivity. Qed.

(** C2, the claim as stated fails for [objDeserializeObjAsPropBag]: on the
    property-bag record (kind tag "OPB") that [serializePropBag] writes, the
    sequence of the spec reads the record, while [objDeserializeObjAsPropBag]
    rejects its header and finds the end of the stream; on an object record
    (kind tag "Obj") it is the other way round. *)
Lemma objDeserializeObjAsPropBag_expects_Obj :
  Ex.spec_deserializePropertyBag Ex.sys (Ex.world1 recordOPB) = OK tt (Ex.world1 []) /\
  Ex.objDeserializeObjAsPropBag Ex.sys (Ex.world1 recordOPB) =
    Err RS_RET_EOF (Ex.world1 []) /\
  Ex.spec_deserializePropertyBag Ex.sys (Ex.world1 Ex.record5) =
    Err RS_RET_EOF (Ex.world1 []) /\
  Ex.objDeserializeObjAsPropBag Ex.sys (Ex.world1 Ex.record5) = OK tt (Ex.world1 []).
Proof. repeat split; vm_compute; reflexivity. Qed.

(** ** The further properties at the examples *)

(** What follows the start-cookie in [recordOPB]. *)
Definition recordOPB_tail : list uchar :=
  bytes_of "OPB:1:5:1:msg:" ++ [c_NL] ++ bytes_of ">End" ++ [c_NL] ++
  bytes_of "." ++ [c_NL].

(** A record of class 5 with the integer property n = 7, and the same record
    with a damaged trailer. *)
Definition props_n : list prop_t :=
  [ mk_prop (bytes_of "n") PROPTYPE_INT (Some (USR_int 7)) ].

Definition record5n : strm_t :=
  bytes_of "<Obj:1:5:1:msg:" ++ [c_NL] ++ bytes_of "+n:2:1:7:" ++ [c_NL] ++
  bytes_of ">End" ++ [c_NL] ++ bytes_of "." ++ [c_NL].

Definition record5n_damaged : strm_t :=
  bytes_of "<Obj:1:5:1:msg:" ++ [c_NL] ++ bytes_of "+n:2:1:7:" ++ [c_NL] ++
  bytes_of ">Enx" ++ [c_NL] ++ bytes_of "." ++ [c_NL].

Definition recordOPB7 : strm_t :=
  bytes_of "<OPB:1:7:1:strm:" ++ [c_NL] ++ bytes_of ">End" ++ [c_NL] ++
  bytes_of "." ++ [c_NL].

Definition o0_n : Ex.xobj :=
  Ex.mk_xobj 5 1 (bytes_of "msg") [mk_var (bytes_of "n") 2 (VAL_num 7)].

Lemma header_do_while_fails_with_EOF_witness :
  header_do_while Ex.OBJ_NUM_IDS false (bytes_of "OPB") Ex.garbage =
    Err RS_RET_EOF [] /\
  RS_RET_EOF = RS_RET_EOF /\ ([] : strm_t) = [].
Proof.
  split; [vm_compute; reflexivity|].
  apply (header_do_while_fails_with_EOF Ex.OBJ_NUM_IDS (bytes_of "OPB") Ex.garbage
           RS_RET_EOF []).
  vm_compute. reflexivity.
Defined.


(** The record alone is read; behind one newline it is lost. *)
Example record_after_newline_ex :
  Ex.DeserializePropBag Ex.sys (Ex.world1 (COOKIE_OBJLINE :: recordOPB_tail)) =
    OK tt (Ex.world1 []) /\
  Ex.DeserializePropBag Ex.sys (Ex.world1 (c_NL :: COOKIE_OBJLINE :: recordOPB_tail)) =
    Err RS_RET_EOF (Ex.world1 []).
Proof. split; vm_compute; reflexivity. Qed.

Lemma propbag_readers_lose_record_after_stray_char_witness :
  c_NL <> COOKIE_OBJLINE /\
  has_boundary (COOKIE_OBJLINE :: recordOPB_tail) = false /\
  Ex.DeserializePropBag Ex.sys
      (mk_world Ex.xobj (c_NL :: COOKIE_OBJLINE :: recordOPB_tail) (Some Ex.o0) []) =
    Err RS_RET_EOF (mk_world Ex.xobj [] (Some Ex.o0) []) /\
  Ex.objDeserializeObjAsPropBag Ex.sys
      (mk_world Ex.xobj (c_NL :: COOKIE_OBJLINE :: recordOPB_tail) (Some Ex.o0) []) =
    Err RS_RET_EOF (mk_world Ex.xobj [] (Some Ex.o0) []).
Proof.
  split; [unfold c_NL, COOKIE_OBJLINE; lia|]. split; [reflexivity|].
  apply (propbag_readers_lose_record_after_stray_char Ex.OBJ_NUM_IDS
           Ex.objMethod_SETPROPERTY Ex.VARTYPE_STR Ex.VARTYPE_NUMBER
           Ex.VARTYPE_SYSLOGTIME Ex.xobj Ex.x_id Ex.sys c_NL recordOPB_tail Ex.o0 []).
  - unfold c_NL, COOKIE_OBJLINE. lia.
  - reflexivity.
Defined.

(** The function behind [Ex.msgSetProperty]. *)
Definition msgSetProperty_fn : class_fn Ex.xobj :=
  fun o v =>
    match o, v with
    | Some o, Some v => (RS_RET_OK, Some (Ex.setp o v))
    | _, _ => (RS_RET_ERR, o)
    end.

Lemma propbag_roundtrip_witness :
  vartypes_ok Ex.VARTYPE_STR Ex.VARTYPE_NUMBER Ex.VARTYPE_SYSLOGTIME = true /\
  0 < Ex.x_id Ex.o0 < Ex.OBJ_NUM_IDS /\
  in_number_t (Ex.x_id Ex.o0) = true /\
  no_char c_NL (Ex.x_name Ex.o0) = true /\
  Ex.x_id o0_n = Ex.x_id Ex.o0 /\
  props_ok Ex.props = true /\
  info_at Ex.xobj Ex.sys (Ex.x_id Ex.o0) = Some Ex.info /\
  objMethods Ex.xobj Ex.info !! Ex.objMethod_SETPROPERTY =
    Some (fn_class Ex.xobj msgSetProperty_fn) /\
  exists bag record,
    emits (Ex.serializePropBag Ex.o0 Ex.props) bag /\
    emits (Ex.serialize Ex.o0 Ex.props) record /\
    Ex.DeserializePropBag Ex.sys (mk_world Ex.xobj (bag ++ []) (Some o0_n) []) =
      OK tt (mk_world Ex.xobj []
               (Some (fold_left Ex.setp
                        (vars_of Ex.VARTYPE_STR Ex.VARTYPE_NUMBER
                           Ex.VARTYPE_SYSLOGTIME Ex.props) o0_n))
               ([] ++ List.map (fun _ => EvMethod (Ex.x_id Ex.o0) Ex.objMethod_SETPROPERTY)
                        (vars_of Ex.VARTYPE_STR Ex.VARTYPE_NUMBER
                           Ex.VARTYPE_SYSLOGTIME Ex.props))) /\
    Ex.objDeserializeObjAsPropBag Ex.sys
        (mk_world Ex.xobj (record ++ []) (Some o0_n) []) =
      OK tt (mk_world Ex.xobj []
               (Some (fold_left Ex.setp
                        (vars_of Ex.VARTYPE_STR Ex.VARTYPE_NUMBER
                           Ex.VARTYPE_SYSLOGTIME Ex.props) o0_n))
               ([] ++ List.map (fun _ => EvMethod (Ex.x_id Ex.o0) Ex.objMethod_SETPROPERTY)
                        (vars_of Ex.VARTYPE_STR Ex.VARTYPE_NUMBER
                           Ex.VARTYPE_SYSLOGTIME Ex.props))).
Proof.
  split; [reflexivity|]. split; [split; reflexivity|]. split; [reflexivity|].
  split; [reflexivity|]. split; [reflexivity|]. split; [reflexivity|].
  split; [reflexivity|]. split; [reflexivity|].
  apply (propbag_roundtrip Ex.OBJ_NUM_IDS Ex.objMethod_SETPROPERTY
           Ex.VARTYPE_NONE Ex.VARTYPE_STR Ex.VARTYPE_NUMBER Ex.VARTYPE_SYSLOGTIME
           Ex.xobj Ex.x_id Ex.x_vers Ex.x_name Ex.sys Ex.info msgSetProperty_fn
           Ex.setp Ex.o0 o0_n Ex.props [] []).
  - reflexivity.
  - split; reflexivity.
  - reflexivity.
  - reflexivity.
  - reflexivity.
  - reflexivity.
  - reflexivity.
  - reflexivity.
  - intros o v. reflexivity.
Defined.

Lemma unknown_type_line_not_read_back_witness :
  in_number_t Ex.VARTYPE_NONE = true /\
  Ex.VARTYPE_NONE <> Ex.VARTYPE_STR /\ Ex.VARTYPE_NONE <> Ex.VARTYPE_NUMBER /\
  Ex.VARTYPE_NONE <> Ex.VARTYPE_SYSLOGTIME /\
  name_ok (bytes_of "a") = true /\
  emits (SerializeProp Ex.VARTYPE_NONE Ex.VARTYPE_STR Ex.VARTYPE_NUMBER
           Ex.VARTYPE_SYSLOGTIME (bytes_of "a") (PROPTYPE_other 99)
           (Some (USR_int 7)))
        (prop_line (bytes_of "a") Ex.VARTYPE_NONE 0 []) /\
  objDeserializeProperty Ex.VARTYPE_STR Ex.VARTYPE_NUMBER Ex.VARTYPE_SYSLOGTIME
    (mk_var [] 0 VAL_none) (prop_line (bytes_of "a") Ex.VARTYPE_NONE 0 [] ++ []) =
    Err RS_RET_INVALID_PROPFRAME (c_NL :: []).
Proof.
  split; [reflexivity|].
  split; [unfold Ex.VARTYPE_NONE, Ex.VARTYPE_STR; lia|].
  split; [unfold Ex.VARTYPE_NONE, Ex.VARTYPE_NUMBER; lia|].
  split; [unfold Ex.VARTYPE_NONE, Ex.VARTYPE_SYSLOGTIME; lia|].
  split; [reflexivity|].
  apply (unknown_type_line_not_read_back Ex.VARTYPE_NONE Ex.VARTYPE_STR
           Ex.VARTYPE_NUMBER Ex.VARTYPE_SYSLOGTIME (bytes_of "a") 99 (USR_int 7)
           (mk_var [] 0 VAL_none) []).
  - reflexivity.
  - unfold Ex.VARTYPE_NONE, Ex.VARTYPE_STR. lia.
  - unfold Ex.VARTYPE_NONE, Ex.VARTYPE_NUMBER. lia.
  - unfold Ex.VARTYPE_NONE, Ex.VARTYPE_SYSLOGTIME. lia.
  - reflexivity.
Defined.

Lemma calendar_timestamp_fits_szBuf_witness :
  syslogTime_in_calendar Ex.t1 /\
  (length (syslogTime_fmt Ex.t1) <= 43)%nat /\
  emits (SerializeProp Ex.VARTYPE_NONE Ex.VARTYPE_STR Ex.VARTYPE_NUMBER
           Ex.VARTYPE_SYSLOGTIME (bytes_of "t") PROPTYPE_SYSLOGTIME
           (Some (USR_syslogTime Ex.t1)))
        (prop_bytes Ex.VARTYPE_STR Ex.VARTYPE_NUMBER Ex.VARTYPE_SYSLOGTIME
           (bytes_of "t") (USR_syslogTime Ex.t1)) /\
  usr_ok (USR_syslogTime Ex.t1) = true.
Proof.
  split; [unfold syslogTime_in_calendar, Ex.t1; cbn; lia|].
  apply (calendar_timestamp_fits_szBuf Ex.VARTYPE_NONE Ex.VARTYPE_STR
           Ex.VARTYPE_NUMBER Ex.VARTYPE_SYSLOGTIME (bytes_of "t") Ex.t1).
  unfold syslogTime_in_calendar, Ex.t1. cbn. lia.
Defined.

Lemma InfoConstruct_result_witness :
  (2 <= Ex.OBJ_NUM_METHODS)%nat /\
  Ex.msgDestruct <> fn_NULL Ex.xobj /\
  (exists pInfo,
     InfoConstruct Ex.OBJ_NUM_METHODS Ex.xobj true 5 (bytes_of "msg") 1
       Ex.msgConstruct Ex.msgDestruct tt = OK pInfo tt /\
     pszName Ex.xobj pInfo = bytes_of "msg" /\ iObjVers Ex.xobj pInfo = 1 /\
     objID Ex.xobj pInfo = 5 /\
     length (objMethods Ex.xobj pInfo) = Ex.OBJ_NUM_METHODS /\
     objMethods Ex.xobj pInfo !! objMethod_CONSTRUCT = Some Ex.msgConstruct /\
     objMethods Ex.xobj pInfo !! objMethod_DESTRUCT = Some Ex.msgDestruct /\
     forall m, (2 <= m < Ex.OBJ_NUM_METHODS)%nat ->
       objMethods Ex.xobj pInfo !! m = Some (objInfoNotImplementedDummy Ex.xobj) /\
       objInfoIsImplemented Ex.xobj pInfo m = false) /\
  InfoConstruct Ex.OBJ_NUM_METHODS Ex.xobj false 5 (bytes_of "msg") 1
    Ex.msgConstruct Ex.msgDestruct tt = Err RS_RET_OUT_OF_MEMORY tt /\
  (forall b, InfoConstruct Ex.OBJ_NUM_METHODS Ex.xobj b 5 (bytes_of "msg") 1
               Ex.msgConstruct (fn_NULL Ex.xobj) tt = Crash assert_failed).
Proof.
  split; [unfold Ex.OBJ_NUM_METHODS; lia|]. split; [discriminate|].
  apply (InfoConstruct_result Ex.OBJ_NUM_METHODS Ex.xobj 5 (bytes_of "msg") 1
           Ex.msgConstruct Ex.msgDestruct tt).
  - unfold Ex.OBJ_NUM_METHODS. lia.
  - discriminate.
Defined.

Lemma objInfoIsImplemented_after_InfoSetMethod_witness :
  InfoConstruct Ex.OBJ_NUM_METHODS Ex.xobj true 5 (bytes_of "msg") 1
    Ex.msgConstruct Ex.msgDestruct tt = OK Ex.info0 tt /\
  InfoSetMethod Ex.OBJ_NUM_METHODS Ex.xobj Ex.objMethod_SETPROPERTY
    Ex.msgSetProperty Ex.info0 = OK tt Ex.info /\
  (2 <= Ex.objMethod_SETPROPERTY)%nat /\
  (2 <= Ex.objMethod_CONSTRUCTION_FINALIZER < Ex.OBJ_NUM_METHODS)%nat /\
  objInfoIsImplemented Ex.xobj Ex.info Ex.objMethod_CONSTRUCTION_FINALIZER =
  (if decide (Ex.objMethod_CONSTRUCTION_FINALIZER = Ex.objMethod_SETPROPERTY)
   then negb (is_dummy Ex.xobj Ex.msgSetProperty) else false).
Proof.
  split; [reflexivity|]. split; [reflexivity|].
  split; [unfold Ex.objMethod_SETPROPERTY; lia|].
  split; [unfold Ex.objMethod_CONSTRUCTION_FINALIZER, Ex.OBJ_NUM_METHODS; lia|].
  apply (objInfoIsImplemented_after_InfoSetMethod Ex.OBJ_NUM_METHODS Ex.xobj
           5 (bytes_of "msg") 1 Ex.msgConstruct Ex.msgDestruct tt tt Ex.info0
           Ex.objMethod_SETPROPERTY Ex.msgSetProperty Ex.info
           Ex.objMethod_CONSTRUCTION_FINALIZER).
  - reflexivity.
  - reflexivity.
  - unfold Ex.objMethod_SETPROPERTY. lia.
  - unfold Ex.objMethod_CONSTRUCTION_FINALIZER, Ex.OBJ_NUM_METHODS. lia.
Defined.

(** The object system with the class information of class 5 on the heap and
    nothing registered yet. *)
Definition sys_unregistered : objsys Ex.xobj :=
  mk_objsys Ex.xobj (<[1%positive := Ex.info]> ∅) ∅.

Lemma RegisterObj_then_info_at_witness :
  RegisterObj Ex.OBJ_NUM_IDS 5 1%positive (arrObjInfo Ex.xobj sys_unregistered) =
    OK tt (<[5 := 1%positive]> ∅) /\
  infos Ex.xobj sys_unregistered !! 1%positive = Some Ex.info /\
  1 <= 5 <= Ex.OBJ_NUM_IDS /\
  info_at Ex.xobj
    (mk_objsys Ex.xobj (infos Ex.xobj sys_unregistered) (<[5 := 1%positive]> ∅)) 5 =
    Some Ex.info /\
  (forall oID', oID' <> 5 ->
     info_at Ex.xobj
       (mk_objsys Ex.xobj (infos Ex.xobj sys_unregistered) (<[5 := 1%positive]> ∅))
       oID' = info_at Ex.xobj sys_unregistered oID') /\
  (forall p', RegisterObj Ex.OBJ_NUM_IDS 5 p' (<[5 := 1%positive]> ∅) =
              Crash assert_failed).
Proof.
  split; [reflexivity|]. split; [reflexivity|].
  apply (RegisterObj_then_info_at Ex.OBJ_NUM_IDS Ex.xobj sys_unregistered 5
           1%positive (<[5 := 1%positive]> ∅) Ex.info).
  - reflexivity.
  - reflexivity.
Defined.

Lemma objClassInit_then_RegisterObj_witness :
  (forall a : gmap Z loc, ret tt a = OK tt a) /\
  objClassInit Ex.OBJ_NUM_IDS (ret tt)
    (<[100 := 1%positive]> (<[5 := 2%positive]> ∅)) =
    OK tt (<[100 := 1%positive]> ∅) /\
  (forall oID p, 1 <= oID < Ex.OBJ_NUM_IDS ->
     RegisterObj Ex.OBJ_NUM_IDS oID p (<[100 := 1%positive]> ∅) =
       OK tt (<[oID := p]> (<[100 := 1%positive]> ∅))) /\
  (<[100 := 1%positive]> ∅ : gmap Z loc) !! Ex.OBJ_NUM_IDS =
    (<[100 := 1%positive]> (<[5 := 2%positive]> ∅) : gmap Z loc) !! Ex.OBJ_NUM_IDS.
Proof.
  split; [reflexivity|]. split; [vm_compute; reflexivity|].
  apply (objClassInit_then_RegisterObj Ex.OBJ_NUM_IDS (ret tt)
           (<[100 := 1%positive]> (<[5 := 2%positive]> ∅))
           (<[100 := 1%positive]> ∅)).
  - reflexivity.
  - vm_compute. reflexivity.
Defined.

(** With the damaged trailer the call fails after the constructor and the
    setter have run: no instance is returned. *)
Example Deserialize_damaged_ex :
  Ex.Deserialize Ex.sys 5 None (Ex.world0 record5n_damaged) =
  Err RS_RET_INVALID_TRAILER
    (mk_world Ex.xobj [c_NL; COOKIE_BLANKLINE; c_NL] None [EvMethod 5 0; EvMethod 5 4]).
Proof. vm_compute. reflexivity. Qed.

Lemma Deserialize_never_calls_destructor_witness :
  Ex.objMethod_SETPROPERTY <> objMethod_DESTRUCT /\
  Ex.objMethod_CONSTRUCTION_FINALIZER <> objMethod_DESTRUCT /\
  match Ex.Deserialize Ex.sys 5 None (Ex.world0 record5n_damaged) with
  | OK _ w' =>
      exists evs, calls Ex.xobj w' = calls Ex.xobj (Ex.world0 record5n_damaged) ++ evs /\
                  Forall (fun e => forall oID, e <> EvMethod oID objMethod_DESTRUCT) evs
  | Err _ w' =>
      pObj Ex.xobj w' = None /\
      exists evs, calls Ex.xobj w' = calls Ex.xobj (Ex.world0 record5n_damaged) ++ evs /\
                  Forall (fun e => forall oID, e <> EvMethod oID objMethod_DESTRUCT) evs
  | Crash _ => True
  end.
Proof.
  split; [discriminate|]. split; [discriminate|].
  apply (Deserialize_never_calls_destructor Ex.OBJ_NUM_IDS Ex.objMethod_SETPROPERTY
           Ex.objMethod_CONSTRUCTION_FINALIZER Ex.VARTYPE_STR Ex.VARTYPE_NUMBER
           Ex.VARTYPE_SYSLOGTIME Ex.xobj Ex.sys 5 None (Ex.world0 record5n_damaged)).
  - discriminate.
  - discriminate.
Defined.

Lemma Deserialize_call_order_witness :
  Ex.Deserialize Ex.sys 5 None (Ex.world0 record5n) =
    OK tt (mk_world Ex.xobj [] (Some o0_n) [EvMethod 5 0; EvMethod 5 4]) /\
  exists pInfo k,
    info_at Ex.xobj Ex.sys 5 = Some pInfo /\
    calls Ex.xobj (mk_world Ex.xobj [] (Some o0_n) [EvMethod 5 0; EvMethod 5 4]) =
      calls Ex.xobj (Ex.world0 record5n) ++ EvMethod 5 objMethod_CONSTRUCT ::
      replicate k (EvMethod 5 Ex.objMethod_SETPROPERTY) ++
      [] ++
      (if objInfoIsImplemented Ex.xobj pInfo Ex.objMethod_CONSTRUCTION_FINALIZER
       then [EvMethod 5 Ex.objMethod_CONSTRUCTION_FINALIZER] else []).
Proof.
  split; [vm_compute; reflexivity|].
  apply (Deserialize_call_order Ex.OBJ_NUM_IDS Ex.objMethod_SETPROPERTY
           Ex.objMethod_CONSTRUCTION_FINALIZER Ex.VARTYPE_STR Ex.VARTYPE_NUMBER
           Ex.VARTYPE_SYSLOGTIME Ex.xobj Ex.sys 5 None (Ex.world0 record5n)
           (mk_world Ex.xobj [] (Some o0_n) [EvMethod 5 0; EvMethod 5 4])).
  vm_compute. reflexivity.
Defined.

Lemma DeserializePropBag_bad_trailer_keeps_properties_witness :
  vartypes_ok Ex.VARTYPE_STR Ex.VARTYPE_NUMBER Ex.VARTYPE_SYSLOGTIME = true /\
  0 < Ex.x_id Ex.o0 < Ex.OBJ_NUM_IDS /\
  in_number_t (Ex.x_id Ex.o0) = true /\
  no_char c_NL (Ex.x_name Ex.o0) = true /\
  props_ok props_n = true /\
  info_at Ex.xobj Ex.sys (Ex.x_id Ex.o0) = Some Ex.info /\
  objMethods Ex.xobj Ex.info !! Ex.objMethod_SETPROPERTY =
    Some (fn_class Ex.xobj msgSetProperty_fn) /\
  COOKIE_ENDLINE <> COOKIE_PROPLINE /\
  objDeserializeTrailer
    (COOKIE_ENDLINE :: bytes_of "Enx" ++ [c_NL; COOKIE_BLANKLINE; c_NL]) =
    Err RS_RET_INVALID_TRAILER [c_NL; COOKIE_BLANKLINE; c_NL] /\
  Ex.DeserializePropBag Ex.sys
    (mk_world Ex.xobj
       (header_bytes Ex.xobj Ex.x_id Ex.x_vers Ex.x_name Ex.o0 (bytes_of "OPB") ++
        props_bytes Ex.VARTYPE_STR Ex.VARTYPE_NUMBER Ex.VARTYPE_SYSLOGTIME props_n ++
        COOKIE_ENDLINE :: bytes_of "Enx" ++ [c_NL; COOKIE_BLANKLINE; c_NL])
       (Some Ex.o0) []) =
  Err RS_RET_INVALID_TRAILER
    (mk_world Ex.xobj [c_NL; COOKIE_BLANKLINE; c_NL]
       (Some (fold_left Ex.setp
                (vars_of Ex.VARTYPE_STR Ex.VARTYPE_NUMBER Ex.VARTYPE_SYSLOGTIME props_n)
                Ex.o0))
       ([] ++ List.map (fun _ => EvMethod (Ex.x_id Ex.o0) Ex.objMethod_SETPROPERTY)
                (vars_of Ex.VARTYPE_STR Ex.VARTYPE_NUMBER Ex.VARTYPE_SYSLOGTIME
                   props_n))).
Proof.
  split; [reflexivity|]. split; [split; reflexivity|]. split; [reflexivity|].
  split; [reflexivity|]. split; [reflexivity|]. split; [reflexivity|].
  split; [reflexivity|]. split; [discriminate|]. split; [reflexivity|].
  apply (DeserializePropBag_bad_trailer_keeps_properties Ex.OBJ_NUM_IDS
           Ex.objMethod_SETPROPERTY Ex.VARTYPE_STR Ex.VARTYPE_NUMBER
           Ex.VARTYPE_SYSLOGTIME Ex.xobj Ex.x_id Ex.x_vers Ex.x_name Ex.sys Ex.info
           msgSetProperty_fn Ex.setp Ex.o0 Ex.o0 props_n COOKIE_ENDLINE
           (bytes_of "Enx" ++ [c_NL; COOKIE_BLANKLINE; c_NL])
           RS_RET_INVALID_TRAILER [c_NL; COOKIE_BLANKLINE; c_NL] []).
  - reflexivity.
  - split; reflexivity.
  - reflexivity.
  - reflexivity.
  - reflexivity.
  - reflexivity.
  - reflexivity.
  - reflexivity.
  - intros o v. reflexivity.
  - discriminate.
  - reflexivity.
Defined.

(** Records of class 7 behind a line of garbage: the readers resynchronise,
    reach the header and refuse the record. *)
Lemma propbag_readers_class_id_mismatch_witness :
  7 <> Ex.x_id Ex.o0 /\
  header_do_while Ex.OBJ_NUM_IDS false (bytes_of "OPB") (Ex.garbage ++ recordOPB7) =
    OK (7, 1) (bytes_of ">End" ++ [c_NL] ++ bytes_of "." ++ [c_NL]) /\
  header_do_while Ex.OBJ_NUM_IDS false (bytes_of "Obj") (Ex.garbage ++ Ex.record7) =
    OK (7, 1) (bytes_of ">End" ++ [c_NL] ++ bytes_of "." ++ [c_NL]) /\
  Ex.DeserializePropBag Ex.sys
      (mk_world Ex.xobj (Ex.garbage ++ recordOPB7) (Some Ex.o0) []) =
    Err RS_RET_INVALID_OID
      (mk_world Ex.xobj (bytes_of ">End" ++ [c_NL] ++ bytes_of "." ++ [c_NL])
         (Some Ex.o0) []) /\
  Ex.objDeserializeObjAsPropBag Ex.sys
      (mk_world Ex.xobj (Ex.garbage ++ Ex.record7) (Some Ex.o0) []) =
    Err RS_RET_INVALID_OID
      (mk_world Ex.xobj (bytes_of ">End" ++ [c_NL] ++ bytes_of "." ++ [c_NL])
         (Some Ex.o0) []).
Proof.
  split; [cbn; lia|]. split; [vm_compute; reflexivity|].
  split; [vm_compute; reflexivity|].
  apply (propbag_readers_class_id_mismatch Ex.OBJ_NUM_IDS Ex.objMethod_SETPROPERTY
           Ex.VARTYPE_STR Ex.VARTYPE_NUMBER Ex.VARTYPE_SYSLOGTIME Ex.xobj Ex.x_id
           Ex.sys Ex.o0 [] 7
           (Ex.garbage ++ recordOPB7) 1
           (bytes_of ">End" ++ [c_NL] ++ bytes_of "." ++ [c_NL])
           (Ex.garbage ++ Ex.record7) 1
           (bytes_of ">End" ++ [c_NL] ++ bytes_of "." ++ [c_NL])).
  - cbn. lia.
  - vm_compute. reflexivity.
  - vm_compute. reflexivity.
Defined.

(** ** The parsers when a call of the string class fails *)

Definition cstr_all_OK : cstr_rets :=
  mk_cstr_rets RS_RET_OK (fun _ => RS_RET_OK) RS_RET_OK.

(** The second [rsCStrAppendChar] has no memory. *)
Definition cstr_second_append_fails : cstr_rets :=
  mk_cstr_rets RS_RET_OK
    (fun i => match i with 1%nat => RS_RET_OUT_OF_MEMORY | _ => RS_RET_OK end)
    RS_RET_OK.

Example objDeserializeStr_mem_ex :
  objDeserializeStr_mem cstr_all_OK 2 (bytes_of "ab:rest") = OK (bytes_of "ab") (bytes_of "rest") /\
  objDeserializeStr_mem cstr_second_append_fails 2 (bytes_of "ab:rest") =
    Err RS_RET_OUT_OF_MEMORY (bytes_of ":rest") /\
  objDeserializeStr_mem cstr_all_OK 0 (bytes_of ":rest") = Crash assert_failed.
Proof. repeat split; vm_compute; reflexivity. Qed.

Example objDeserializeProperty_mem_ex :
  objDeserializeProperty_mem Ex.VARTYPE_STR Ex.VARTYPE_NUMBER Ex.VARTYPE_SYSLOGTIME
    cstr_all_OK cstr_all_OK (mk_var [] 0 VAL_none) (bytes_of "+ab:1:2:xy:" ++ [c_NL]) =
    OK (mk_var (bytes_of "ab") 1 (VAL_pStr (bytes_of "xy"))) [] /\
  objDeserializeProperty_mem Ex.VARTYPE_STR Ex.VARTYPE_NUMBER Ex.VARTYPE_SYSLOGTIME
    cstr_second_append_fails cstr_all_OK (mk_var [] 0 VAL_none)
    (bytes_of "+ab:1:2:xy:" ++ [c_NL]) =
    Err RS_RET_OUT_OF_MEMORY (bytes_of ":1:2:xy:" ++ [c_NL]) /\
  objDeserializeProperty_mem Ex.VARTYPE_STR Ex.VARTYPE_NUMBER Ex.VARTYPE_SYSLOGTIME
    cstr_all_OK cstr_second_append_fails (mk_var [] 0 VAL_none)
    (bytes_of "+ab:1:2:xy:" ++ [c_NL]) =
    Err RS_RET_OUT_OF_MEMORY (bytes_of ":" ++ [c_NL]).
Proof. repeat split; vm_compute; reflexivity. Qed.
